(** * MTAT publishing pipeline (upload-to-moodle.py): a shallow embedding

    The Python program is embedded function by function.  Python [str]
    values are sequences of Unicode code points, decoded YAML / JSON data is
    a small tree type, ordered [dict]s are association lists kept in
    insertion order, and everything the program does to the outside (files,
    HTTP, [docker exec], the clock, stdout) is threaded through an explicit
    world by a state-and-exception monad. *)

From Stdlib Require Import Bool Ascii String ZArith NArith Lia List.
Import ListNotations.
Open Scope string_scope.
Open Scope list_scope.

Set Warnings "-register-all".

(* ------------------------------------------------------------------ *)
(** * Python strings *)
(* ------------------------------------------------------------------ *)

Module PyStr.

(** A Python [str] is a sequence of code points. *)
Definition char := N.
Definition str := list char.

Definition of_ascii (s : string) : str :=
  map N_of_ascii (list_ascii_of_string s).

Definition LF : char := 10%N.
Definition DQUOTE : char := 34%N.

(** [join_lines ["a"; "b"]] is the Python literal ["a\nb"]. *)
Fixpoint join_lines (ls : list string) : str :=
  match ls with
  | [] => []
  | [l] => of_ascii l
  | l :: rest => of_ascii l ++ LF :: join_lines rest
  end.

Fixpoint str_eqb (a b : str) : bool :=
  match a, b with
  | [], [] => true
  | x :: a', y :: b' => N.eqb x y && str_eqb a' b'
  | _, _ => false
  end.

(** [s.startswith(p)] *)
Fixpoint startswith (s p : str) {struct p} : bool :=
  match p with
  | [] => true
  | c :: p' =>
      match s with
      | [] => false
      | d :: s' => N.eqb d c && startswith s' p'
      end
  end.

(** Scan for the lowest offset at which [sub] occurs in [s]; [i] is the
    index of the head of [s] in the original string.  [-1] when absent. *)
Fixpoint find_from (s sub : str) (i : Z) : Z :=
  if startswith s sub then i
  else match s with
       | [] => (-1)%Z
       | _ :: s' => find_from s' sub (i + 1)
       end.

(** [s.find(sub, start)] for [start >= 0]. *)
Definition find (s sub : str) (start : nat) : Z :=
  if (length s <? start)%nat then (-1)%Z
  else find_from (skipn start s) sub (Z.of_nat start).

(** [s[i:]] for [i >= 0]. *)
Definition slice_from (s : str) (i : Z) : str := skipn (Z.to_nat i) s.

(** [s[:n]] for [n >= 0]. *)
Definition slice_to (s : str) (n : nat) : str := firstn n s.

(** [c.isspace()]: the code points CPython lists in
    [_PyUnicode_IsWhitespace]. *)
Definition isspace (c : char) : bool :=
  ((9 <=? c) && (c <=? 13) || (28 <=? c) && (c <=? 32)
   || (c =? 133) || (c =? 160) || (c =? 5760)
   || (8192 <=? c) && (c <=? 8202)
   || (c =? 8232) || (c =? 8233) || (c =? 8239) || (c =? 8287)
   || (c =? 12288))%N.

(** [s.lstrip()] *)
Fixpoint lstrip (s : str) : str :=
  match s with
  | [] => []
  | c :: s' => if isspace c then lstrip s' else s
  end.

(** [s.rstrip()] and [s.strip()] *)
Definition rstrip (s : str) : str := rev (lstrip (rev s)).
Definition strip (s : str) : str := rstrip (lstrip s).

(** [s.replace(old, new)] for a one-character [old]. *)
Definition replace_char (old : char) (new : str) (s : str) : str :=
  flat_map (fun c => if N.eqb c old then new else [c]) s.

(** [s.splitlines()]: the line boundaries of [str.splitlines], with CR LF
    counted once.  [cur] is the current line, reversed; [after_cr] tells that
    the previous character was a CR that closed a line. *)
Definition is_linebreak (c : char) : bool :=
  ((10 <=? c) && (c <=? 13) || (28 <=? c) && (c <=? 30)
   || (c =? 133) || (c =? 8232) || (c =? 8233))%N.

Fixpoint splitlines_aux (s cur : str) (after_cr : bool) : list str :=
  match s with
  | [] => match cur with [] => [] | _ => [rev cur] end
  | c :: s' =>
      if (c =? 10)%N && after_cr then splitlines_aux s' cur false
      else if is_linebreak c then rev cur :: splitlines_aux s' [] (c =? 13)%N
      else splitlines_aux s' (c :: cur) false
  end.

Definition splitlines (s : str) : list str := splitlines_aux s [] false.

(** [0-9a-f] *)
Definition is_lower_hex (c : char) : bool :=
  ((48 <=? c) && (c <=? 57) || (97 <=? c) && (c <=? 102))%N.

(** The text up to the first double quote, and the rest from that quote. *)
Fixpoint span_noquote (s : str) : str * str :=
  match s with
  | [] => ([], [])
  | c :: s' =>
      if (c =? DQUOTE)%N then ([], s)
      else let (g, r) := span_noquote s' in (c :: g, r)
  end.

(** [re.match(prefix + r'([^"]+)"', s)]: group 1, for a literal [prefix]. *)
Definition match_quoted_here (prefix s : str) : option str :=
  if startswith s prefix then
    match span_noquote (skipn (length prefix) s) with
    | (c :: g, _ :: _) => Some (c :: g)
    | _ => None
    end
  else None.

(** [re.search(prefix + r'([^"]+)"', s)]: group 1 of the leftmost match. *)
Fixpoint search_quoted (prefix s : str) : option str :=
  match match_quoted_here prefix s with
  | Some g => Some g
  | None => match s with
            | [] => None
            | _ :: s' => search_quoted prefix s'
            end
  end.

End PyStr.

Import PyStr.

(* ------------------------------------------------------------------ *)
(** * Content transform *)
(* ------------------------------------------------------------------ *)

Definition fence_open : str := of_ascii "---".
Definition fence_close : str := LF :: of_ascii "---".

(** [strip_front_matter]: remove a YAML front matter block if present. *)
Definition strip_front_matter (text : str) : str :=
  if startswith text fence_open then
    let end_ := find text fence_close 3 in
    if negb (end_ =? -1)%Z then lstrip (slice_from text (end_ + 4))
    else text
  else text.

(** [occurs_first s sub pre post]: [sub] occurs in [s] right after [pre],
    and nowhere earlier. *)
Definition occurs_first (s sub pre post : str) : Prop :=
  s = pre ++ sub ++ post /\
  forall pre' post', s = pre' ++ sub ++ post' -> (length pre <= length pre')%nat.

(** A text has a leading block when it opens with a fence and a closing
    fence follows. *)
Definition has_front_matter (y : str) : Prop :=
  exists pre post, y = fence_open ++ pre ++ fence_close ++ post.

(* ------------------------------------------------------------------ *)
(** * Python values, dictionaries, exceptions *)
(* ------------------------------------------------------------------ *)

Module Py.

(** Decoded YAML / JSON data.  Mappings keep insertion order and have
    string keys; numbers are integers (the ledger and the Moodle answers
    the program looks at hold no others). *)
Inductive value : Type :=
| VNone
| VBool (b : bool)
| VInt (z : Z)
| VStr (s : str)
| VList (l : list value)
| VDict (d : list (str * value)).

Definition dict := list (str * value).

(** [bool(v)] *)
Definition truthy (v : value) : bool :=
  match v with
  | VNone => false
  | VBool b => b
  | VInt z => negb (z =? 0)%Z
  | VStr s => match s with [] => false | _ => true end
  | VList l => match l with [] => false | _ => true end
  | VDict d => match d with [] => false | _ => true end
  end.

(** [isinstance(v, dict)], [isinstance(v, list)] *)
Definition is_dict (v : value) : bool :=
  match v with VDict _ => true | _ => false end.
Definition is_list (v : value) : bool :=
  match v with VList _ => true | _ => false end.

(** Lookup in an ordered dictionary with string keys. *)
Fixpoint dict_get (d : dict) (k : str) : option value :=
  match d with
  | [] => None
  | (k', v) :: d' => if str_eqb k' k then Some v else dict_get d' k
  end.

(** [d[k] = v]: an existing key keeps its position, a new one goes last. *)
Fixpoint dict_set (d : dict) (k : str) (v : value) : dict :=
  match d with
  | [] => [(k, v)]
  | (k', v') :: d' =>
      if str_eqb k' k then (k', v) :: d' else (k', v') :: dict_set d' k v
  end.

(** [{**d, **extra}] *)
Definition dict_update (d extra : dict) : dict :=
  fold_left (fun acc kv => dict_set acc (fst kv) (snd kv)) extra d.

(** [k in v] for a string [k] and a mapping [v]. *)
Definition dict_contains (d : dict) (k : str) : bool :=
  match dict_get d k with Some _ => true | None => false end.

(** [v == s] for a string [s]. *)
Definition eq_str (v : value) (s : str) : bool :=
  match v with VStr t => str_eqb t s | _ => false end.

(** Hashable values, and [==] on them: [True == 1] and [False == 0]. *)
Definition hashable (v : value) : bool :=
  match v with VList _ | VDict _ => false | _ => true end.

Definition key_eqb (a b : value) : bool :=
  match a, b with
  | VNone, VNone => true
  | VStr s, VStr t => str_eqb s t
  | VBool x, VBool y => Bool.eqb x y
  | VInt x, VInt y => (x =? y)%Z
  | VBool x, VInt y | VInt y, VBool x => ((if x then 1 else 0) =? y)%Z
  | _, _ => false
  end.

(** What a RuntimeError of this program says. *)
Inductive runtime_msg : Type :=
| MoodleApiError (function : str) (detail : value)
    (* f"Moodle API error [{function}]: {data.get('message', data)}" *)
| UnexpectedPhpOutput (stdout : str)
    (* f"Unexpected PHP output: {result.stdout!r}" *)
| DockerExecFailed (stderr : str).
    (* f"docker exec failed: {e.stderr}\n..." *)

Inductive exn : Type :=
| HTTPError (status : Z)        (* requests: raise_for_status *)
| RequestException              (* requests: connection error, timeout *)
| JSONDecodeError               (* requests: resp.json() on a non-JSON body *)
| RuntimeError (m : runtime_msg)
| CalledProcessError (stderr : str)
| TimeoutError
| KeyError
| IndexError
| TypeError
| AttributeError
| OSError                       (* unreadable file, docker not launchable *)
| UnicodeDecodeError            (* a file or a captured stream that is not text *)
| YAMLError.

(** [requests.RequestException] is the base class of [HTTPError] and of
    requests' [JSONDecodeError]. *)
Definition is_RequestException (e : exn) : bool :=
  match e with
  | HTTPError _ | RequestException | JSONDecodeError => true
  | _ => false
  end.

(** Pure computations that may raise. *)
Inductive res (A : Type) : Type :=
| Val (a : A)
| Err (e : exn).
Arguments Val {A} a.
Arguments Err {A} e.

Definition res_bind {A B} (r : res A) (k : A -> res B) : res B :=
  match r with Val a => k a | Err e => Err e end.

(** [v.get(k, default)] *)
Definition py_get (v : value) (k : str) (default : value) : res value :=
  match v with
  | VDict d => Val (match dict_get d k with Some x => x | None => default end)
  | _ => Err AttributeError
  end.

(** [v[k]] for a string [k] *)
Definition subscript_str (v : value) (k : str) : res value :=
  match v with
  | VDict d => match dict_get d k with Some x => Val x | None => Err KeyError end
  | _ => Err TypeError
  end.

(** [v[0]] *)
Definition subscript_0 (v : value) : res value :=
  match v with
  | VList l => match l with x :: _ => Val x | [] => Err IndexError end
  | VStr s => match s with c :: _ => Val (VStr [c]) | [] => Err IndexError end
  | VDict _ => Err KeyError
  | _ => Err TypeError
  end.

End Py.

Import Py.


(* ------------------------------------------------------------------ *)
(** * The outside world *)
(* ------------------------------------------------------------------ *)

Inductive http_method : Type := GET | POST.

(** One call of [requests.get] / [requests.post] / [session.get] /
    [session.post]: the URL, the query parameters and the form data.
    (Timeouts and [allow_redirects] are transport settings and are left to
    the remote side of the model.) *)
Record request : Type := mkRequest {
  method : http_method;
  req_url : str;
  req_params : dict;
  req_data : dict
}.

(** What [requests] hands back: the status, the body, the body decoded as
    JSON when it is JSON, and how long the exchange took (milliseconds). *)
Record response : Type := mkResponse {
  status_code : Z;
  text : str;
  json : option value;
  elapsed : N
}.

Inductive reply : Type :=
| Replied (r : response)
| Failed (elapsed : N).     (* connection refused, timed out, ... *)

(** How a process that was started ended, for a caller that keeps the
    captured streams as bytes. *)
Inductive proc_status : Type :=
| ExitZero
| ExitNonZero (stderr : str).

(** Outcome of [subprocess.run(..., check=True, capture_output=True)].
    [OutputNotText]: a captured stream is not valid text, which only a
    caller that asked for text ([text=True]) notices. *)
Inductive proc_reply : Type :=
| Completed (stdout : str)
| NonZeroExit (stderr : str)
| NotLaunched
| OutputNotText (status : proc_status).

(** Why reading a file as text gives no text: the file cannot be opened or
    read ([OSError]), or its bytes are not valid in the encoding
    ([UnicodeDecodeError]). *)
Inductive read_error : Type :=
| NotReadable
| NotText.

(** Everything the program takes from its platform: [pathlib], the file
    system, the Moodle host (HTTP and [docker exec]), the YAML and Markdown
    libraries, and the Python built-ins whose tables are Unicode-wide. *)
Class Platform : Type := {
  Path : Type;
  Path_of : str -> Path;                  (* Path(s) *)
  joinpath : Path -> Path -> Path;        (* p / q *)
  parent : Path -> Path;                  (* p.parent *)
  FS : Type;
  fs_exists : FS -> Path -> bool;
  fs_read_text : FS -> Path -> option str;
  fs_read_error : FS -> Path -> read_error;   (* where [fs_read_text] is [None] *)
  fs_write_text : FS -> Path -> str -> option FS;
  Remote : Type;
  http_send : Remote -> option nat -> request -> Remote * reply;
  docker_exec : Remote -> list str -> Remote * proc_reply;
  yaml_safe_load : str -> option value;
  markdown_markdown : str -> list str -> str;
  str_title : str -> str;                 (* s.title() *)
  str_of : value -> str;                  (* str(v) for v not a str *)
  MOODLE_CLI_SCRIPT : str
}.

(** How a computation ends: a value, an exception, or [sys.exit(code)]. *)
Inductive outcome (A : Type) : Type :=
| Ok (a : A)
| Raise (e : exn)
| Exit (code : Z).
Arguments Ok {A} a.
Arguments Raise {A} e.
Arguments Exit {A} code.

Section Program.

Context {P : Platform}.

(** The lines the program prints, one constructor per [print] call, with the
    values its f-string interpolates. *)
Inductive line : Type :=
| PSetupStart
| PSetupDone (token : str)
| PWaiting (url : str)
| PReady
| PDot
| PCourseExists (moodle_id : value) (course_title : str)
| PCourseCreated (moodle_id : value) (course_title : str)
| PModule (module_title : value) (n_variants : nat)
| PVariantMissing (variant_path : Path)
| PUploaded (page_title : str)
| PModuleDone (url : str) (course_moodle_id : value)
| PNoManifest (manifest_path : Path)
| PGenerateFirst
| PTokenCached
| PToken (token : option str)
| PConnected (sitename release : value)
| PValidationFailed (e : exn)
| PTryRegenerate
| PManifestEmpty
| PNoVariantsFor (course_id : str)
| PUploading (n_entries n_courses : nat)
| PCourse (course_title course_id : str)
| PAllDone
| POpenMoodle (url : str).

(** What the program does to the outside, in the order it does it. *)
Inductive event : Type :=
| EvStat (p : Path)                          (* p.exists() *)
| EvRead (p : Path)                          (* p.read_text() / p.open() *)
| EvWrite (p : Path) (s : str)               (* p.write_text(s) *)
| EvSession (id : nat)                       (* requests.Session() *)
| EvHttp (session : option nat) (rq : request)
| EvExec (argv : list str)                   (* subprocess.run(argv) *)
| EvSleep (seconds : Z)                      (* time.sleep(seconds) *)
| EvPrint (l : line).

Record world : Type := mkWorld {
  fs : FS;
  remote : Remote;
  clock : Z;                  (* time.time(), in milliseconds *)
  next_session : nat;         (* sessions created so far *)
  DEFAULT_USER : str;         (* module-level globals, patched by main *)
  DEFAULT_PASS : str;
  trace : list event
}.

(** ** The monad: state, exceptions and [sys.exit] *)

Definition M (A : Type) : Type := world -> outcome A * world.

Definition ret {A} (a : A) : M A := fun w => (Ok a, w).

Definition bind {A B} (m : M A) (k : A -> M B) : M B :=
  fun w =>
    match m w with
    | (Ok a, w') => k a w'
    | (Raise e, w') => (Raise e, w')
    | (Exit c, w') => (Exit c, w')
    end.

Definition raise {A} (e : exn) : M A := fun w => (Raise e, w).
Definition sys_exit {A} (code : Z) : M A := fun w => (Exit code, w).

(** [try: m except Exception as e: h e] -- [SystemExit] is not an
    [Exception] and passes through. *)
Definition try_except {A} (m : M A) (h : exn -> M A) : M A :=
  fun w =>
    match m w with
    | (Raise e, w') => h e w'
    | r => r
    end.

(** [try: m except <some classes>: h] -- [h e] is [None] for an exception
    the clause does not name. *)
Definition try_except_when {A} (m : M A) (h : exn -> option (M A)) : M A :=
  fun w =>
    match m w with
    | (Raise e, w') => match h e with Some k => k w' | None => (Raise e, w') end
    | r => r
    end.

Definition lift {A} (r : res A) : M A :=
  match r with Val a => ret a | Err e => raise e end.

Definition emit (e : event) : M unit :=
  fun w => (Ok tt, mkWorld (fs w) (remote w) (clock w) (next_session w)
                           (DEFAULT_USER w) (DEFAULT_PASS w) (trace w ++ [e])).

Definition print (l : line) : M unit := emit (EvPrint l).

End Program.

Notation "x <- m ;; k" := (bind m (fun x => k))
  (at level 61, m at next level, right associativity).
Notation "m ;;; k" := (bind m (fun _ => k))
  (at level 61, right associativity).


(* ------------------------------------------------------------------ *)
(** * Primitive actions *)
(* ------------------------------------------------------------------ *)

Section Primitives.

Context {P : Platform}.

(** [p.exists()] *)
Definition path_exists (p : Path) : M bool :=
  emit (EvStat p) ;;; fun w => (Ok (fs_exists (fs w) p), w).

(** [p.read_text()], also [p.open()] followed by reading the stream. *)
Definition read_text (p : Path) : M str :=
  emit (EvRead p) ;;;
  fun w => match fs_read_text (fs w) p with
           | Some s => (Ok s, w)
           | None => match fs_read_error (fs w) p with
                     | NotReadable => (Raise OSError, w)
                     | NotText => (Raise UnicodeDecodeError, w)
                     end
           end.

(** [p.write_text(s)] *)
Definition write_text (p : Path) (s : str) : M unit :=
  emit (EvWrite p s) ;;;
  fun w => match fs_write_text (fs w) p s with
           | Some f => (Ok tt, mkWorld f (remote w) (clock w) (next_session w)
                                       (DEFAULT_USER w) (DEFAULT_PASS w) (trace w))
           | None => (Raise OSError, w)
           end.

(** [requests.Session()] *)
Definition requests_Session : M nat :=
  fun w => (Ok (next_session w),
            mkWorld (fs w) (remote w) (clock w) (S (next_session w))
                    (DEFAULT_USER w) (DEFAULT_PASS w)
                    (trace w ++ [EvSession (next_session w)])).

(** One HTTP exchange, inside a session or not. *)
Definition send (session : option nat) (rq : request) : M response :=
  fun w =>
    let (r', rep) := http_send (remote w) session rq in
    let dt := match rep with Replied r => elapsed r | Failed e => e end in
    let w' := mkWorld (fs w) r' (clock w + Z.of_N dt) (next_session w)
                      (DEFAULT_USER w) (DEFAULT_PASS w)
                      (trace w ++ [EvHttp session rq]) in
    match rep with
    | Replied r => (Ok r, w')
    | Failed _ => (Raise RequestException, w')
    end.

Definition requests_get (url : str) : M response :=
  send None (mkRequest GET url [] []).
Definition requests_post (url : str) (data : dict) : M response :=
  send None (mkRequest POST url [] data).
Definition session_get (session : nat) (url : str) (params : dict) : M response :=
  send (Some session) (mkRequest GET url params []).
Definition session_post (session : nat) (url : str) (data : dict) : M response :=
  send (Some session) (mkRequest POST url [] data).

(** [resp.raise_for_status()] *)
Definition raise_for_status (resp : response) : M unit :=
  if ((400 <=? status_code resp) && (status_code resp <? 600))%Z
  then raise (HTTPError (status_code resp))
  else ret tt.

(** [resp.json()] *)
Definition response_json (resp : response) : M value :=
  match json resp with
  | Some v => ret v
  | None => raise JSONDecodeError
  end.

(** [subprocess.run(argv, check=True, capture_output=True)], the result
    dropped: the captured bytes are not decoded. *)
Definition subprocess_run (argv : list str) : M unit :=
  fun w =>
    let (r', rep) := docker_exec (remote w) argv in
    let w' := mkWorld (fs w) r' (clock w) (next_session w)
                      (DEFAULT_USER w) (DEFAULT_PASS w)
                      (trace w ++ [EvExec argv]) in
    match rep with
    | Completed _ | OutputNotText ExitZero => (Ok tt, w')
    | NonZeroExit err | OutputNotText (ExitNonZero err) =>
        (Raise (CalledProcessError err), w')
    | NotLaunched => (Raise OSError, w')
    end.

(** [subprocess.run(argv, check=True, capture_output=True, text=True)]: its
    stdout.  The streams are decoded while they are collected, before the
    exit status is checked. *)
Definition subprocess_run_text (argv : list str) : M str :=
  fun w =>
    let (r', rep) := docker_exec (remote w) argv in
    let w' := mkWorld (fs w) r' (clock w) (next_session w)
                      (DEFAULT_USER w) (DEFAULT_PASS w)
                      (trace w ++ [EvExec argv]) in
    match rep with
    | Completed out => (Ok out, w')
    | NonZeroExit err => (Raise (CalledProcessError err), w')
    | NotLaunched => (Raise OSError, w')
    | OutputNotText _ => (Raise UnicodeDecodeError, w')
    end.

(** [time.time()] *)
Definition time_time : M Z := fun w => (Ok (clock w), w).

(** [time.sleep(seconds)] *)
Definition time_sleep (seconds : Z) : M unit :=
  fun w => (Ok tt, mkWorld (fs w) (remote w) (clock w + 1000 * seconds)
                           (next_session w) (DEFAULT_USER w) (DEFAULT_PASS w)
                           (trace w ++ [EvSleep seconds])).

(** [yaml.safe_load(text)] *)
Definition yaml_load (t : str) : M value :=
  match yaml_safe_load t with
  | Some v => ret v
  | None => raise YAMLError
  end.

(** [for x in l: body x] *)
Fixpoint for_each {A} (l : list A) (body : A -> M unit) : M unit :=
  match l with
  | [] => ret tt
  | x :: rest => body x ;;; for_each rest body
  end.

(** How an f-string renders a value. *)
Definition fmt (v : value) : str :=
  match v with VStr s => s | _ => str_of v end.

End Primitives.

(** String literals of the source. *)
Notation "'lit' s" := (of_ascii s) (at level 10, s at level 9, only parsing).


(* ------------------------------------------------------------------ *)
(** * upload-to-moodle.py *)
(* ------------------------------------------------------------------ *)

Section Moodle.

Context {P : Platform}.

Definition DEFAULT_URL : str := lit "http://localhost:8080".
Definition TOKEN_CACHE_FILE : Path := Path_of (lit ".moodle-token").
Definition CATEGORY_ID : Z := 1.

(** ** Moodle REST helpers *)

(** [api(url, token, function, **params)]: call a Moodle Web Services REST
    function; raises on HTTP or API error. *)
Definition api_form (token function : str) (params : dict) : dict :=
  dict_update
    [ (lit "wstoken", VStr token);
      (lit "moodlewsrestformat", VStr (lit "json"));
      (lit "wsfunction", VStr function) ]
    params.

Definition api (url token function : str) (params : dict) : M value :=
  resp <- requests_post
            (url ++ lit "/webservice/rest/server.php")
            (api_form token function params) ;;
  raise_for_status resp ;;;
  data <- response_json resp ;;
  if is_dict data
     && match data with VDict d => dict_contains d (lit "exception") | _ => false end
  then
    detail <- lift (py_get data (lit "message") data) ;;
    raise (RuntimeError (MoodleApiError function detail))
  else ret data.

(** ** First-time Moodle setup via docker exec *)

(** [re.match(r"^[0-9a-f]{32}$", token)]; [$] also matches before a final
    newline. *)
Definition is_token (token : str) : bool :=
  forallb is_lower_hex (firstn 32 token)
  && (length (firstn 32 token) =? 32)%nat
  && match skipn 32 token with
     | [] => true
     | [c] => (c =? 10)%N
     | _ => false
     end.

(** [lines[-1]] *)
Definition last_item (lines : list str) : res str :=
  match rev lines with
  | l :: _ => Val l
  | [] => Err IndexError
  end.

Definition setup_moodle_webservices (container : str) : M str :=
  print PSetupStart ;;;
  let script_path := lit "/tmp/mtat_setup.php" in
  try_except_when
    (subprocess_run
       [ lit "docker"; lit "exec"; container; lit "bash"; lit "-c";
         lit "cat > " ++ script_path ++ lit " << 'PHPEOF'" ++ [LF]
           ++ MOODLE_CLI_SCRIPT ++ [LF] ++ lit "PHPEOF" ] ;;;
     stdout <- subprocess_run_text
                 [ lit "docker"; lit "exec"; container; lit "php"; script_path ] ;;
     token <- lift (last_item (splitlines (strip stdout))) ;;
     if negb (is_token token)
     then raise (RuntimeError (UnexpectedPhpOutput stdout))
     else print (PSetupDone token) ;;; ret token)
    (fun e => match e with
              | CalledProcessError stderr =>
                  Some (raise (RuntimeError (DockerExecFailed stderr)))
              | _ => None
              end).

(** The [try] block of [wait_for_moodle]: did the login page answer 200?
    A [requests.RequestException] is swallowed. *)
Definition login_page_ready (url : str) : M bool :=
  try_except_when
    (r <- requests_get (url ++ lit "/login/index.php") ;;
     ret (status_code r =? 200)%Z)
    (fun e => if is_RequestException e then Some (ret false) else None).

(** The [while time.time() < deadline] loop of [wait_for_moodle].  Every
    pass that does not return sleeps five seconds, so [fuel] passes are
    enough once [5 * fuel] seconds cover the timeout. *)
Fixpoint wait_loop (fuel : nat) (url : str) (deadline : Z) : M unit :=
  now <- time_time ;;
  if (now <? deadline)%Z then
    match fuel with
    | O => raise TimeoutError
    | S fuel' =>
        ready <- login_page_ready url ;;
        if ready then print PReady
        else print PDot ;;; time_sleep 5 ;;; wait_loop fuel' url deadline
    end
  else raise TimeoutError.

(** [wait_for_moodle(url, timeout)]: poll until the login page responds. *)
Definition wait_for_moodle (url : str) (timeout : Z) : M unit :=
  print (PWaiting url) ;;;
  now <- time_time ;;
  wait_loop (S (Z.to_nat (timeout / 5))) url (now + 1000 * timeout).

(** ** Course + page creation helpers *)

(** [ensure_course]: return the Moodle internal course id, creating the
    course if it does not exist. *)
Definition ensure_course (url token course_id course_title : str) : M value :=
  existing <- api url token (lit "core_course_get_courses_by_field")
                [ (lit "field", VStr (lit "idnumber"));
                  (lit "value", VStr course_id) ] ;;
  courses <- lift (py_get existing (lit "courses") (VList [])) ;;
  if truthy courses then
    c0 <- lift (subscript_0 courses) ;;
    moodle_id <- lift (subscript_str c0 (lit "id")) ;;
    print (PCourseExists moodle_id course_title) ;;;
    ret moodle_id
  else
    created <- api url token (lit "core_course_create_courses")
                 [ (lit "courses[0][fullname]", VStr course_title);
                   (lit "courses[0][shortname]", VStr (slice_to course_id 100));
                   (lit "courses[0][idnumber]", VStr course_id);
                   (lit "courses[0][categoryid]", VInt CATEGORY_ID);
                   (lit "courses[0][summary]",
                    VStr (lit "Auto-generated by MTAT upload script."));
                   (lit "courses[0][summaryformat]", VInt 1);
                   (lit "courses[0][format]", VStr (lit "topics"));
                   (lit "courses[0][visible]", VInt 1) ] ;;
    c0 <- lift (subscript_0 created) ;;
    moodle_id <- lift (subscript_str c0 (lit "id")) ;;
    print (PCourseCreated moodle_id course_title) ;;;
    ret moodle_id.

(** [md_to_html]: Markdown (with fenced code blocks) to HTML. *)
Definition md_to_html (md_text : str) : str :=
  markdown_markdown md_text
    [ lit "fenced_code"; lit "tables"; lit "nl2br"; lit "sane_lists" ].

(** The literal text in front of group 1 in the two scraping patterns,
    [name="logintoken" value="([^"]+)"] and ["sesskey":"([^"]+)"]. *)
Definition LOGINTOKEN_PATTERN : str :=
  lit "name=" ++ [DQUOTE] ++ lit "logintoken" ++ [DQUOTE]
    ++ lit " value=" ++ [DQUOTE].
Definition SESSKEY_PATTERN : str :=
  [DQUOTE] ++ lit "sesskey" ++ [DQUOTE] ++ lit ":" ++ [DQUOTE].

(** The form data and query parameters of [_create_page_resource]. *)
Definition login_form (username password logintoken : str) : dict :=
  [ (lit "username", VStr username);
    (lit "password", VStr password);
    (lit "logintoken", VStr logintoken) ].

Definition add_page_params (course_id : value) : dict :=
  [ (lit "add", VStr (lit "page"));
    (lit "type", VStr []);
    (lit "course", course_id);
    (lit "section", VInt 0) ].

Definition page_form (sesskey : str) (course_id : value) (title html_content : str)
  : dict :=
  [ (lit "sesskey", VStr sesskey);
    (lit "add", VStr (lit "page"));
    (lit "course", course_id);
    (lit "section", VInt 0);
    (lit "name", VStr title);
    (lit "intro", VStr []);
    (lit "introformat", VInt 1);
    (lit "page[text]", VStr html_content);
    (lit "page[format]", VInt 1);
    (lit "submitbutton2", VStr (lit "Save and return to course"));
    (lit "mform_isexpanded_id_generalhdr", VInt 1) ].

(** [match.group(1) if match else ""] *)
Definition scraped (pattern page : str) : str :=
  match search_quoted pattern page with
  | Some g => g
  | None => []
  end.

(** [_create_page_resource]: create a Moodle Page resource via a
    session-authenticated form POST. *)
Definition _create_page_resource
    (url : str) (course_id : value) (title html_content username password : str)
  : M unit :=
  session <- requests_Session ;;
  (* Log in to get a session cookie *)
  login_page <- session_get session (url ++ lit "/login/index.php") [] ;;
  let logintoken := scraped LOGINTOKEN_PATTERN (text login_page) in
  session_post session (url ++ lit "/login/index.php")
    (login_form username password logintoken) ;;;
  (* Get the "Add Page" form to extract sesskey *)
  add_page <- session_get session (url ++ lit "/course/modedit.php")
                (add_page_params course_id) ;;
  let sesskey := scraped SESSKEY_PATTERN (text add_page) in
  (* Submit the Page creation form *)
  session_post session (url ++ lit "/course/modedit.php")
    (page_form sesskey course_id title html_content) ;;;
  ret tt.

(** [manifest_dir / v] for a value [v] taken from the ledger. *)
Definition path_under (dir : Path) (v : value) : res Path :=
  match v with
  | VStr s => Val (joinpath dir (Path_of s))
  | _ => Err TypeError
  end.

(** One pass of the loop of [upload_variants_to_book]. *)
Definition upload_variant
    (url : str) (course_moodle_id module_title : value) (manifest_dir : Path)
    (variant : value) : M unit :=
  output_file <- lift (subscript_str variant (lit "output_file")) ;;
  variant_path <- lift (path_under manifest_dir output_file) ;;
  found <- path_exists variant_path ;;
  if negb found then
    print (PVariantMissing variant_path)       (* continue *)
  else
    raw_md <- read_text variant_path ;;
    let body_md := strip_front_matter raw_md in
    let html := md_to_html body_md in
    audience <- lift (py_get variant (lit "audience") (VStr (lit "unknown"))) ;;
    locale <- lift (py_get variant (lit "locale") (VStr (lit "en-US"))) ;;
    let page_title :=
      fmt module_title ++ lit " [" ++ fmt audience ++ lit " / "
        ++ fmt locale ++ lit "]" in
    user <- (fun w => (Ok (DEFAULT_USER w), w)) ;;
    pass <- (fun w => (Ok (DEFAULT_PASS w), w)) ;;
    _create_page_resource url course_moodle_id page_title html user pass ;;;
    print (PUploaded page_title).

(** [upload_variants_to_book]: for a given module, upload one Page resource
    per audience variant into the course. *)
Definition upload_variants_to_book
    (url token : str) (course_moodle_id module_title : value)
    (variants : list value) (manifest_dir : Path) : M unit :=
  print (PModule module_title (length variants)) ;;;
  for_each variants
    (upload_variant url course_moodle_id module_title manifest_dir) ;;;
  print (PModuleDone url course_moodle_id).

(** ** Main *)

Definition load_manifest (manifest_path : Path) : M (list value) :=
  found <- path_exists manifest_path ;;
  if negb found then
    print (PNoManifest manifest_path) ;;;
    print PGenerateFirst ;;;
    sys_exit 1
  else
    t <- read_text manifest_path ;;
    data <- yaml_load t ;;
    ret (match data with VList l => l | _ => [] end).

(** The value of [group_by_course]: per course a title and the modules, each
    with its ledger entries; both levels in insertion order, as a Python
    [dict] keeps them. *)
Record course : Type := mkCourse {
  title : str;
  modules : list (value * list value)
}.

(** [course_id in courses] *)
Fixpoint courses_contains (courses : list (str * course)) (cid : str) : bool :=
  match courses with
  | [] => false
  | (k, _) :: rest => str_eqb k cid || courses_contains rest cid
  end.

(** [modules.setdefault(mod_id, []).append(entry)] *)
Fixpoint modules_append (mods : list (value * list value))
    (mod_id entry : value) : list (value * list value) :=
  match mods with
  | [] => [(mod_id, [entry])]
  | (k, es) :: rest =>
      if key_eqb k mod_id then (k, es ++ [entry]) :: rest
      else (k, es) :: modules_append rest mod_id entry
  end.

(** [courses[cid]["modules"].setdefault(mod_id, []).append(entry)] *)
Fixpoint courses_append (courses : list (str * course))
    (cid : str) (mod_id entry : value) : list (str * course) :=
  match courses with
  | [] => []
  | (k, c) :: rest =>
      if str_eqb k cid
      then (k, mkCourse (title c) (modules_append (modules c) mod_id entry)) :: rest
      else (k, c) :: courses_append rest cid mod_id entry
  end.

(** The body of the loop of [group_by_course]. *)
Definition group_entry (courses : list (str * course)) (entry : value)
  : res (list (str * course)) :=
  res_bind (py_get entry (lit "course_id") (VStr (lit "mtat-preview")))
    (fun course_id =>
  if negb (hashable course_id) then Err TypeError else
  match course_id with
  | VStr cid =>
      let courses1 :=
        if negb (courses_contains courses cid)
        then courses ++
             [(cid, mkCourse (str_title (replace_char 45%N (lit " ") cid)) [])]
        else courses in
      res_bind (py_get entry (lit "module_path") (VStr (lit "unknown")))
        (fun fallback =>
      res_bind (py_get entry (lit "module_id") fallback)
        (fun mod_id =>
      if negb (hashable mod_id) then Err TypeError
      else Val (courses_append courses1 cid mod_id entry)))
  | _ => Err AttributeError       (* no key of [courses] equals it, and it
                                     has no [replace] *)
  end).

Fixpoint group_loop (courses : list (str * course)) (entries : list value)
  : res (list (str * course)) :=
  match entries with
  | [] => Val courses
  | entry :: rest =>
      res_bind (group_entry courses entry) (fun cs => group_loop cs rest)
  end.

(** [group_by_course]:
    [{ course_id: { title, modules: { module_id: [variant, ...] } } }]. *)
Definition group_by_course (entries : list value) : res (list (str * course)) :=
  group_loop [] entries.

(** The parsed command line. *)
Record args : Type := mkArgs {
  args_url : str;
  args_token : option str;
  args_user : str;
  args_password : str;
  args_course_id : option str;
  args_manifest : str;
  args_setup_moodle : bool;
  args_get_token : bool
}.

(** [bool(x)] for [x] a string or [None]. *)
Definition opt_truthy (x : option str) : bool :=
  match x with Some (_ :: _) => true | _ => false end.

(** [main], "Token resolution" block. *)
Definition main_token_resolution (a : args) : M str :=
  token <- (if negb (opt_truthy (args_token a)) then
              cached <- path_exists TOKEN_CACHE_FILE ;;
              if cached then
                t <- read_text TOKEN_CACHE_FILE ;;
                ret (Some (strip t))
              else ret (args_token a)
            else ret (args_token a)) ;;
  if negb (opt_truthy token) || args_setup_moodle a then
    wait_for_moodle (args_url a) 180 ;;;
    t <- setup_moodle_webservices (lit "mtat-moodle") ;;
    write_text TOKEN_CACHE_FILE t ;;;
    print PTokenCached ;;;
    ret t
  else ret (match token with Some t => t | None => [] end).



(** [main], "Verify token works" block. *)
Definition main_verify_token (a : args) (token : str) : M unit :=
  try_except
    (site <- api (args_url a) token (lit "core_webservice_get_site_info") [] ;;
     sitename <- lift (py_get site (lit "sitename") VNone) ;;
     release <- lift (py_get site (lit "release") (VStr (lit "?"))) ;;
     print (PConnected sitename release))
    (fun e =>
       print (PValidationFailed e) ;;;
       print PTryRegenerate ;;;
       sys_exit 1).

(** [[e for e in entries if e.get("course_id") == course_id]] *)
Fixpoint filter_course (entries : list value) (cid : str) : res (list value) :=
  match entries with
  | [] => Val []
  | e :: rest =>
      res_bind (py_get e (lit "course_id") VNone) (fun v =>
      res_bind (filter_course rest cid) (fun kept =>
      Val (if eq_str v cid then e :: kept else kept)))
  end.

(** [main], body of the loop over a course's modules. *)
Definition main_module (a : args) (token : str) (manifest_dir : Path)
    (moodle_course_id : value) (m : value * list value) : M unit :=
  let (module_id, variants) := m in
  module_title <-
    match variants with
    | [] => ret module_id
    | v0 :: _ =>
        mp <- lift (py_get v0 (lit "module_path") (VStr [])) ;;
        meta_dir <- lift (path_under manifest_dir mp) ;;
        let meta_file := joinpath meta_dir (Path_of (lit "metadata.yaml")) in
        found <- path_exists meta_file ;;
        if found then
          t <- read_text meta_file ;;
          meta <- yaml_load t ;;
          lift (py_get meta (lit "title") module_id)
        else ret module_id
    end ;;
  upload_variants_to_book (args_url a) token moodle_course_id module_title
    variants manifest_dir.

(** [main], body of the loop over the courses. *)
Definition main_course (a : args) (token : str) (manifest_dir : Path)
    (c : str * course) : M unit :=
  let (course_id, course_data) := c in
  print (PCourse (title course_data) course_id) ;;;
  moodle_course_id <- ensure_course (args_url a) token course_id
                        (title course_data) ;;
  for_each (modules course_data)
    (main_module a token manifest_dir moodle_course_id).

Definition main (a : args) : M unit :=
  (* Patch module-level defaults so helper functions pick up CLI values *)
  (fun w => (Ok tt, mkWorld (fs w) (remote w) (clock w) (next_session w)
                            (args_user a) (args_password a) (trace w))) ;;;
  let manifest_path := Path_of (args_manifest a) in
  let manifest_dir := parent (parent manifest_path) in
  token <- main_token_resolution a ;;
  if args_get_token a then
    print (PToken (Some token))
  else
    main_verify_token a token ;;;
    entries <- load_manifest manifest_path ;;
    match entries with
    | [] => print PManifestEmpty ;;; sys_exit 0
    | _ :: _ =>
        entries <- (if opt_truthy (args_course_id a) then
                      let cid := match args_course_id a with
                                 | Some c => c | None => [] end in
                      kept <- lift (filter_course entries cid) ;;
                      match kept with
                      | [] => print (PNoVariantsFor cid) ;;; sys_exit 1
                      | _ :: _ => ret kept
                      end
                    else ret entries) ;;
        courses <- lift (group_by_course entries) ;;
        print (PUploading (length entries) (length courses)) ;;;
        for_each courses (main_course a token manifest_dir) ;;;
        print PAllDone ;;;
        print (POpenMoodle (args_url a))
    end.

(** The exit status of the process: [0] when [main] returns, the argument of
    [sys.exit], and [1] for an exception nobody caught. *)
Definition exit_code {A} (r : outcome A) : Z :=
  match r with
  | Ok _ => 0
  | Exit c => c
  | Raise _ => 1
  end.

End Moodle.


(* ------------------------------------------------------------------ *)
(** * Vocabulary of the statements *)
(* ------------------------------------------------------------------ *)

Section Vocabulary.

Context {P : Platform}.

(** The events of [w'] that [w] had not seen yet. *)
Definition events_since (w w' : world) : list event :=
  skipn (length (trace w)) (trace w').

(** A status [raise_for_status] lets through. *)
Definition http_ok (resp : response) : Prop :=
  (status_code resp < 400 \/ 600 <= status_code resp)%Z.

(** The decoded response is a mapping containing an [exception] key. *)
Definition has_exception_key (data : value) : Prop :=
  exists d, data = VDict d /\ dict_contains d (lit "exception") = true.

(** The REST exchange [api] makes for [function]. *)
Definition rest_request (url token function : str) (params : dict) : request :=
  mkRequest POST (url ++ lit "/webservice/rest/server.php") []
            (api_form token function params).

(** The REST calls of [function] among the events. *)
Definition is_rest_call (function : str) (e : event) : bool :=
  match e with
  | EvHttp None rq =>
      match dict_get (req_data rq) (lit "wsfunction") with
      | Some v => eq_str v function
      | None => false
      end
  | _ => false
  end.

Definition rest_calls (function : str) (evs : list event) : nat :=
  length (filter (is_rest_call function) evs).

(** The two REST exchanges of [ensure_course]. *)
Definition lookup_request (url token course_id : str) : request :=
  rest_request url token (lit "core_course_get_courses_by_field")
    [ (lit "field", VStr (lit "idnumber")); (lit "value", VStr course_id) ].

Definition create_params (course_id course_title : str) : dict :=
  [ (lit "courses[0][fullname]", VStr course_title);
    (lit "courses[0][shortname]", VStr (slice_to course_id 100));
    (lit "courses[0][idnumber]", VStr course_id);
    (lit "courses[0][categoryid]", VInt CATEGORY_ID);
    (lit "courses[0][summary]",
     VStr (lit "Auto-generated by MTAT upload script."));
    (lit "courses[0][summaryformat]", VInt 1);
    (lit "courses[0][format]", VStr (lit "topics"));
    (lit "courses[0][visible]", VInt 1) ].

Definition create_request (url token course_id course_title : str) : request :=
  rest_request url token (lit "core_course_create_courses")
    (create_params course_id course_title).

(** The lookup answered with the mapping [d], free of [exception]. *)
Definition lookup_answer (url token course_id : str) (w : world)
    (r1 : Remote) (d : dict) : Prop :=
  exists resp,
    http_send (remote w) None (lookup_request url token course_id)
      = (r1, Replied resp)
    /\ http_ok resp
    /\ json resp = Some (VDict d)
    /\ dict_contains d (lit "exception") = false.

(** The sentinel course key and the label derived from a course key. *)
Definition FALLBACK_COURSE : str := lit "mtat-preview".

Definition default_label (course_key : str) : str :=
  str_title (replace_char 45%N (lit " ") course_key).

(** The module key [group_by_course] reads off an entry. *)
Definition module_key (d : dict) : value :=
  match dict_get d (lit "module_id") with
  | Some m => m
  | None => match dict_get d (lit "module_path") with
            | Some p => p
            | None => VStr (lit "unknown")
            end
  end.

(** A ledger entry [group_by_course] accepts: a mapping whose course
    identifier, if any, is a string, and whose module key is hashable. *)
Definition groupable (e : value) : Prop :=
  exists d,
    e = VDict d
    /\ (dict_get d (lit "course_id") = None
        \/ exists cid, dict_get d (lit "course_id") = Some (VStr cid))
    /\ hashable (module_key d) = true.

(** Entry [e] sits in some module of the course filed under [key]. *)
Definition filed_under (courses : list (str * course)) (key : str) (e : value)
  : Prop :=
  exists c m vs, In (key, c) courses /\ In (m, vs) (modules c) /\ In e vs.

Definition labels_derived (courses : list (str * course)) : Prop :=
  forall key c, In (key, c) courses -> title c = default_label key.

(** The course key [group_by_course] files an entry under. *)
Definition course_key (d : dict) : str :=
  match dict_get d (lit "course_id") with
  | Some (VStr cid) => cid
  | _ => FALLBACK_COURSE
  end.


Definition is_exec (e : event) : bool :=
  match e with EvExec _ => true | _ => false end.

Definition is_http (e : event) : bool :=
  match e with EvHttp _ _ => true | _ => false end.

(** Running [m] only adds events that satisfy [ok]. *)
Definition emits {A} (ok : event -> bool) (m : M A) : Prop :=
  forall w, exists evs,
    trace (snd (m w)) = trace w ++ evs /\ forallb ok evs = true.


(** The world once [main] has patched the module-level defaults. *)
Definition patch_defaults (a : args) (w : world) : world :=
  mkWorld (fs w) (remote w) (clock w) (next_session w)
          (args_user a) (args_password a) (trace w).

(** ** Publishing a module *)

(** Every exchange gets an answer (no connection failure, no timeout). *)
Definition transport_ok : Prop :=
  forall (r : Remote) (session : option nat) (rq : request),
    exists r' resp, http_send r session rq = (r', Replied resp).

(** A ledger entry a module can publish: a mapping whose [output_file] is a
    string; if that file is on disk, it can be read. *)
Definition publishable (f : FS) (dir : Path) (v : value) : Prop :=
  exists d file,
    v = VDict d
    /\ dict_get d (lit "output_file") = Some (VStr file)
    /\ (fs_exists f (joinpath dir (Path_of file)) = true ->
        exists raw, fs_read_text f (joinpath dir (Path_of file)) = Some raw).

(** The path of the variant file of an entry. *)
Definition variant_file (dir : Path) (v : value) : option Path :=
  match v with
  | VDict d => match dict_get d (lit "output_file") with
               | Some (VStr file) => Some (joinpath dir (Path_of file))
               | _ => None
               end
  | _ => None
  end.

(** The display title of the page of an entry. *)
Definition page_title_of (module_title v : value) : str :=
  match v with
  | VDict d =>
      fmt module_title ++ lit " ["
        ++ fmt (match dict_get d (lit "audience") with
                | Some x => x | None => VStr (lit "unknown") end)
        ++ lit " / "
        ++ fmt (match dict_get d (lit "locale") with
                | Some x => x | None => VStr (lit "en-US") end)
        ++ lit "]"
  | _ => []
  end.

(** The page (title, markup) an entry whose file is on disk turns into. *)
Definition page_of (f : FS) (dir : Path) (module_title v : value)
  : list (str * str) :=
  match variant_file dir v with
  | Some p =>
      if fs_exists f p then
        match fs_read_text f p with
        | Some raw => [(page_title_of module_title v,
                        md_to_html (strip_front_matter raw))]
        | None => []
        end
      else []
  | None => []
  end.

(** The path an entry is skipped for, when its file is not on disk. *)
Definition missing_of (f : FS) (dir : Path) (v : value) : list Path :=
  match variant_file dir v with
  | Some p => if fs_exists f p then [] else [p]
  | None => []
  end.

(** The page-creation submissions among the events: title and markup. *)
Definition posted_page (url : str) (e : event) : list (str * str) :=
  match e with
  | EvHttp (Some _) (mkRequest POST u _ data) =>
      if str_eqb u (url ++ lit "/course/modedit.php") then
        match dict_get data (lit "name"), dict_get data (lit "page[text]") with
        | Some (VStr n), Some (VStr h) => [(n, h)]
        | _, _ => []
        end
      else []
  | _ => []
  end.

Definition pages_posted (url : str) (evs : list event) : list (str * str) :=
  flat_map (posted_page url) evs.

(** The skip warnings among the events. *)
Definition skip_warning (e : event) : list Path :=
  match e with EvPrint (PVariantMissing p) => [p] | _ => [] end.

Definition skip_warnings (evs : list event) : list Path :=
  flat_map skip_warning evs.

(** The steps of the web-form dialogue, each with the session it runs in. *)
Inductive step : Type :=
| OpenSession (id : nat)
| FetchLoginPage (id : nat)
| SubmitLogin (id : nat)
| FetchAddPageForm (id : nat)
| SubmitPage (id : nat).

Definition form_step (url : str) (e : event) : list step :=
  match e with
  | EvSession id => [OpenSession id]
  | EvHttp (Some id) (mkRequest m u _ _) =>
      if str_eqb u (url ++ lit "/login/index.php") then
        match m with GET => [FetchLoginPage id] | POST => [SubmitLogin id] end
      else if str_eqb u (url ++ lit "/course/modedit.php") then
        match m with GET => [FetchAddPageForm id] | POST => [SubmitPage id] end
      else []
  | _ => []
  end.

Definition form_steps (url : str) (evs : list event) : list step :=
  flat_map (form_step url) evs.

(** The dialogue of one page creation in session [id]. *)
Definition page_dialogue (id : nat) : list step :=
  [ OpenSession id; FetchLoginPage id; SubmitLogin id;
    FetchAddPageForm id; SubmitPage id ].

Definition count_steps (sel : step -> bool) (l : list step) : nat :=
  length (filter sel l).
Definition is_open_session (s : step) : bool :=
  match s with OpenSession _ => true | _ => false end.
Definition is_submit_login (s : step) : bool :=
  match s with SubmitLogin _ => true | _ => false end.
Definition is_submit_page (s : step) : bool :=
  match s with SubmitPage _ => true | _ => false end.

(** What one page creation adds to the trace. *)
Definition page_events (url : str) (id : nat) (course_id : value)
    (title html username password logintoken sesskey : str) : list event :=
  [ EvSession id;
    EvHttp (Some id) (mkRequest GET (url ++ lit "/login/index.php") [] []);
    EvHttp (Some id) (mkRequest POST (url ++ lit "/login/index.php") []
                        (login_form username password logintoken));
    EvHttp (Some id) (mkRequest GET (url ++ lit "/course/modedit.php")
                        (add_page_params course_id) []);
    EvHttp (Some id) (mkRequest POST (url ++ lit "/course/modedit.php") []
                        (page_form sesskey course_id title html)) ].

(** [w'] differs from [w] only in the remote, the clock, the session
    counter and the trace. *)
Definition same_local (w w' : world) : Prop :=
  fs w' = fs w
  /\ DEFAULT_USER w' = DEFAULT_USER w
  /\ DEFAULT_PASS w' = DEFAULT_PASS w.

(** Going from [w] to [w'] published [variants]: one page per entry whose
    file is on disk, in the order of the entries, each through its own
    dialogue in a fresh session; one warning per entry whose file is not. *)
Definition published (url : str) (dir : Path) (module_title : value)
    (variants : list value) (w w' : world) : Prop :=
  let pages := flat_map (page_of (fs w) dir module_title) variants in
  same_local w w'
  /\ next_session w' = (next_session w + length pages)%nat
  /\ exists evs,
      trace w' = trace w ++ evs
      /\ pages_posted url evs = pages
      /\ skip_warnings evs = flat_map (missing_of (fs w) dir) variants
      /\ form_steps url evs
         = flat_map page_dialogue (seq (next_session w) (length pages)).

(** ** A whole run *)

(** Shapes of the answers [ensure_course] can work with. *)
Definition lookup_shape (data : value) : Prop :=
  exists d,
    data = VDict d
    /\ dict_contains d (lit "exception") = false
    /\ (dict_get d (lit "courses") = None
        \/ dict_get d (lit "courses") = Some (VList [])
        \/ exists c rest id,
             dict_get d (lit "courses") = Some (VList (VDict c :: rest))
             /\ dict_get c (lit "id") = Some id).

Definition create_shape (data : value) : Prop :=
  exists c rest id,
    data = VList (VDict c :: rest) /\ dict_get c (lit "id") = Some id.

(** Whatever its state, the remote answers [rq] with HTTP success and JSON
    of the given shape. *)
Definition answers (shape : value -> Prop) (rq : request) : Prop :=
  forall r : Remote, exists r' resp data,
    http_send r None rq = (r', Replied resp)
    /\ http_ok resp /\ json resp = Some data /\ shape data.

(** The course lookup and the course creation are in working order. *)
Definition courses_service (url token : str) : Prop :=
  (forall cid, answers lookup_shape (lookup_request url token cid))
  /\ (forall cid ttl, answers create_shape (create_request url token cid ttl)).

(** The module metadata an entry points to, when present, is readable YAML
    holding a mapping. *)
Definition metadata_ok (f : FS) (dir : Path) (e : value) : Prop :=
  exists d s,
    e = VDict d
    /\ match dict_get d (lit "module_path") with
       | Some x => x | None => VStr [] end = VStr s
    /\ let meta_file :=
         joinpath (joinpath dir (Path_of s)) (Path_of (lit "metadata.yaml")) in
       (fs_exists f meta_file = true ->
        exists t md, fs_read_text f meta_file = Some t
                     /\ yaml_safe_load t = Some (VDict md)).

Definition ledger_entry_ok (f : FS) (dir : Path) (e : value) : Prop :=
  groupable e /\ publishable f dir e /\ metadata_ok f dir e.

(** Every entry filed in [courses] satisfies [Q]. *)
Definition courses_all (Q : value -> Prop) (courses : list (str * course)) : Prop :=
  forall key c m vs, In (key, c) courses -> In (m, vs) (modules c) -> Forall Q vs.

(** Running [m] leaves the files as they were. *)
Definition keeps_files {A} (m : M A) : Prop :=
  forall w, fs (snd (m w)) = fs w.

End Vocabulary.


(* ------------------------------------------------------------------ *)
(** * A small concrete platform *)
(* ------------------------------------------------------------------ *)

(** A platform to run the program on: relative POSIX paths, files in an
    association list, and a Moodle that keeps its courses by [idnumber]. *)
Module Demo.

Definition SLASH : char := 47%N.

(** Path components of [s]; empty components and ["."] are dropped. *)
Fixpoint split_path_aux (s cur : str) : list str :=
  let flush := match cur with
               | [] => []
               | _ => if str_eqb (rev cur) (lit ".") then [] else [rev cur]
               end in
  match s with
  | [] => flush
  | c :: s' =>
      if (c =? SLASH)%N then flush ++ split_path_aux s' []
      else split_path_aux s' (c :: cur)
  end.

Definition path := list str.
Definition path_of (s : str) : path := split_path_aux s [].

Fixpoint path_eqb (p q : path) : bool :=
  match p, q with
  | [], [] => true
  | a :: p', b :: q' => str_eqb a b && path_eqb p' q'
  | _, _ => false
  end.

Definition files := list (path * str).

Fixpoint file_lookup (f : files) (p : path) : option str :=
  match f with
  | [] => None
  | (q, t) :: rest => if path_eqb q p then Some t else file_lookup rest p
  end.

Definition file_store (f : files) (p : path) (t : str) : files :=
  (p, t) :: f.

(** The Moodle site: courses as [(idnumber, id)], and the next free id. *)
Record moodle : Type := mkMoodle {
  site_courses : list (str * Z);
  next_id : Z
}.

Definition VALID_TOKEN : str := lit "0123456789abcdef0123456789abcdef".

Fixpoint find_course (cs : list (str * Z)) (idnumber : str) : option Z :=
  match cs with
  | [] => None
  | (k, id) :: rest => if str_eqb k idnumber then Some id else find_course rest idnumber
  end.

Definition json_reply (v : value) : reply :=
  Replied (mkResponse 200 [] (Some v) 20).

Definition api_exception (code message : string) : value :=
  VDict [ (lit "exception", VStr (lit "moodle_exception"));
          (lit "errorcode", VStr (lit code));
          (lit "message", VStr (lit message)) ].

Definition FORM_HTML : str :=
  lit "<input type=" ++ [DQUOTE] ++ lit "hidden" ++ [DQUOTE] ++ lit " "
    ++ LOGINTOKEN_PATTERN ++ lit "LT42" ++ [DQUOTE] ++ lit "><script>M.cfg = {"
    ++ SESSKEY_PATTERN ++ lit "SK7" ++ [DQUOTE] ++ lit "};</script>".

Definition str_field (d : dict) (k : string) : str :=
  match dict_get d (lit k) with Some (VStr s) => s | _ => [] end.

Definition serve (m : moodle) (session : option nat) (rq : request)
  : moodle * reply :=
  match dict_get (req_data rq) (lit "wsfunction") with
  | None => (m, Replied (mkResponse 200 FORM_HTML None 50))
  | Some fn =>
      if negb (str_eqb (str_field (req_data rq) "wstoken") VALID_TOKEN) then
        (m, json_reply (api_exception "invalidtoken" "Invalid token - token not found"))
      else if eq_str fn (lit "core_webservice_get_site_info") then
        (m, json_reply (VDict [ (lit "sitename", VStr (lit "Demo site"));
                                (lit "release", VStr (lit "4.3")) ]))
      else if eq_str fn (lit "core_course_get_courses_by_field") then
        let idn := str_field (req_data rq) "value" in
        (m, json_reply
              (VDict [ (lit "courses",
                        VList match find_course (site_courses m) idn with
                              | Some id => [ VDict [ (lit "id", VInt id);
                                                     (lit "idnumber", VStr idn) ] ]
                              | None => []
                              end) ]))
      else if eq_str fn (lit "core_course_create_courses") then
        let idn := str_field (req_data rq) "courses[0][idnumber]" in
        (mkMoodle (site_courses m ++ [(idn, next_id m)]) (next_id m + 1),
         json_reply
           (VList [ VDict [ (lit "id", VInt (next_id m));
                            (lit "shortname",
                             VStr (str_field (req_data rq) "courses[0][shortname]")) ] ]))
      else
        (m, json_reply (api_exception "invalidfunction" "Function not available"))
  end.

Definition exec (m : moodle) (argv : list str) : moodle * proc_reply :=
  (m, Completed (VALID_TOKEN ++ [LF])).

(** ASCII [str.title()]. *)
Definition is_upper (c : char) : bool := ((65 <=? c) && (c <=? 90))%N.
Definition is_lower (c : char) : bool := ((97 <=? c) && (c <=? 122))%N.

Fixpoint title_aux (s : str) (previous_is_cased : bool) : str :=
  match s with
  | [] => []
  | c :: s' =>
      (if previous_is_cased
       then (if is_upper c then c + 32 else c)%N
       else (if is_lower c then c - 32 else c)%N)
        :: title_aux s' (is_upper c || is_lower c)
  end.

Definition title_ascii (s : str) : str := title_aux s false.

(** The ledger documents the demo YAML reader knows, by their text. *)
Definition entry (module_id audience file : string) : value :=
  VDict [ (lit "module_id", VStr (lit module_id));
          (lit "module_path", VStr (lit "example-course/01-concept"));
          (lit "audience", VStr (lit audience));
          (lit "locale", VStr (lit "en-US"));
          (lit "output_file", VStr (lit file)) ].

Definition ledger3 : list value :=
  [ entry "m1" "developer" "variants/m1/developer-en-US.md";
    entry "m1" "executive" "variants/m1/executive-en-US.md";
    entry "m1" "champion" "variants/m1/champion-en-US.md" ].

Definition yaml (t : str) : option value :=
  match t with
  | [] => Some VNone
  | _ =>
      if str_eqb t (lit "ledger3") then Some (VList ledger3)
      else if str_eqb t (lit "[]") then Some (VList [])
      else if str_eqb t (lit "title: Concepts") then
             Some (VDict [ (lit "title", VStr (lit "Concepts")) ])
      else None
  end.

#[export] Instance platform : Platform := {|
  Path := path;
  Path_of := path_of;
  joinpath := fun p q => p ++ q;
  parent := fun p => removelast p;
  FS := files;
  fs_exists := fun f p => match file_lookup f p with Some _ => true | None => false end;
  fs_read_text := file_lookup;
  fs_read_error := fun _ _ => NotReadable;
  fs_write_text := fun f p t => Some (file_store f p t);
  Remote := moodle;
  http_send := serve;
  docker_exec := exec;
  yaml_safe_load := yaml;
  markdown_markdown := fun t _ => lit "<p>" ++ t ++ lit "</p>";
  str_title := title_ascii;
  str_of := fun _ => lit "?";
  MOODLE_CLI_SCRIPT := lit "<?php /* enable web services, mint a token */"
|}.

(** Two of the three variants of the ledger are on disk. *)
Definition disk : files :=
  [ (path_of (lit "variants/manifest.yaml"), lit "ledger3");
    (path_of (lit "variants/m1/developer-en-US.md"),
     join_lines ["---"; "id: m1"; "---"; EmptyString; "For developers"]);
    (path_of (lit "variants/m1/champion-en-US.md"),
     join_lines ["---"; "id: m1"; "---"; EmptyString; "For champions"]);
    (path_of (lit "example-course/01-concept/metadata.yaml"),
     lit "title: Concepts") ].

Definition site0 : moodle := mkMoodle [(lit "intro-course", 5%Z)] 6.

Definition world0 (f : files) : world :=
  mkWorld f site0 0 0 (lit "admin") [] [].

Definition cli (token : option str) (setup : bool) : args :=
  mkArgs (lit "http://localhost:8080") token (lit "admin") (lit "secret") None
         (lit "variants/manifest.yaml") setup false.

End Demo.


(* ------------------------------------------------------------------ *)
(** * Vocabulary of the further properties *)
(* ------------------------------------------------------------------ *)

(** [s] holds, right after [pre], the literal [prefix], then the non-empty
    quote-free text [g], then a double quote. *)
Definition quoted_at (prefix s pre g post : str) : Prop :=
  s = pre ++ prefix ++ g ++ DQUOTE :: post
  /\ g <> []
  /\ forallb (fun c => negb (c =? DQUOTE)%N) g = true.


(** A second concrete platform, for the failure scenarios: files, paths and
    libraries as in [Demo], but the remote side plays back a script -- one
    reply per HTTP exchange, one outcome per process run; when the script is
    over, exchanges fail and processes do not start. *)
Module Scripted.

Record script : Type := mkScript {
  replies : list reply;
  runs : list proc_reply
}.

Definition play_http (s : script) (session : option nat) (rq : request)
  : script * reply :=
  match replies s with
  | [] => (s, Failed 0)
  | r :: rest => (mkScript rest (runs s), r)
  end.

Definition play_exec (s : script) (argv : list str) : script * proc_reply :=
  match runs s with
  | [] => (s, NotLaunched)
  | r :: rest => (mkScript (replies s) rest, r)
  end.

#[export] Instance platform : Platform := {|
  Path := Demo.path;
  Path_of := Demo.path_of;
  joinpath := fun p q => p ++ q;
  parent := fun p => removelast p;
  FS := Demo.files;
  fs_exists := fun f p =>
    match Demo.file_lookup f p with Some _ => true | None => false end;
  fs_read_text := Demo.file_lookup;
  fs_read_error := fun _ _ => NotReadable;
  fs_write_text := fun f p t => Some (Demo.file_store f p t);
  Remote := script;
  http_send := play_http;
  docker_exec := play_exec;
  yaml_safe_load := Demo.yaml;
  markdown_markdown := fun t _ => lit "<p>" ++ t ++ lit "</p>";
  str_title := Demo.title_ascii;
  str_of := fun _ => lit "?";
  MOODLE_CLI_SCRIPT := lit "<?php /* enable web services, mint a token */"
|}.

Definition page (status : Z) (body : str) : reply :=
  Replied (mkResponse status body None 50).

Definition json_page (status : Z) (v : value) : reply :=
  Replied (mkResponse status [] (Some v) 20).

Definition start (f : Demo.files) (http : list reply) (procs : list proc_reply)
  : world :=
  mkWorld f (mkScript http procs) 0 0 (lit "admin") [] [].

End Scripted.


(** [e.get("course_id") == cid] for a mapping [e]. *)
Definition carries_course_id (cid : str) (e : value) : bool :=
  match e with
  | VDict d => match dict_get d (lit "course_id") with
               | Some v => eq_str v cid
               | None => false
               end
  | _ => false
  end.

(** A ledger entry as the generator writes it: a mapping without a
    [course_id] key. *)
Definition without_course_id (e : value) : Prop :=
  exists d, e = VDict d /\ dict_get d (lit "course_id") = None.


(** [modules[m]] and [courses[key]], by the first key that matches, as a
    Python [dict] looks keys up. *)
Fixpoint modules_get (mods : list (value * list value)) (m : value) : list value :=
  match mods with
  | [] => []
  | (k, vs) :: rest => if key_eqb k m then vs else modules_get rest m
  end.

Fixpoint courses_get (courses : list (str * course)) (key : str) : option course :=
  match courses with
  | [] => None
  | (k, c) :: rest => if str_eqb k key then Some c else courses_get rest key
  end.

(** The entries grouped under course [key] and module [m]. *)
Definition bucket (courses : list (str * course)) (key : str) (m : value)
  : list value :=
  match courses_get courses key with
  | Some c => modules_get (modules c) m
  | None => []
  end.

(** Does entry [e] belong to course [key] and module [m]? *)
Definition in_bucket (key : str) (m : value) (e : value) : bool :=
  match e with
  | VDict d => str_eqb (course_key d) key && key_eqb (module_key d) m
  | _ => false
  end.

Definition entry_course_key (e : value) : str :=
  match e with VDict d => course_key d | _ => FALLBACK_COURSE end.

Definition entry_module_key (e : value) : value :=
  match e with VDict d => module_key d | _ => VNone end.

(** The elements of [l] in the order they first occur, later repeats
    (up to [eqb]) dropped. *)
Fixpoint first_seen {A} (eqb : A -> A -> bool) (l : list A) : list A :=
  match l with
  | [] => []
  | x :: rest => x :: filter (fun y => negb (eqb x y)) (first_seen eqb rest)
  end.


(** The module keys of course [key], in the order the result lists them. *)
Definition module_keys (courses : list (str * course)) (key : str) : list value :=
  match courses_get courses key with
  | Some c => map fst (modules c)
  | None => []
  end.


(** One more module key: a key already seen (up to [==]) changes nothing,
    a new one goes last. *)
Definition module_step (seen : list value) (x : value) : list value :=
  if existsb (fun k => key_eqb k x) seen then seen else seen ++ [x].


(** [l1] is an initial part of [l2]. *)
Definition prefix_of {A} (l1 l2 : list A) : Prop := exists rest, l2 = l1 ++ rest.


(** What a stretch of the trace wrote, and where. *)
Definition writes {P : Platform} (evs : list event) : list (Path * str) :=
  flat_map (fun e => match e with EvWrite p t => [(p, t)] | _ => [] end) evs.

Definition is_write {P : Platform} (e : event) : bool :=
  match e with EvWrite _ _ => true | _ => false end.

(** Events that neither write a file nor run a process. *)
Definition no_write_no_exec {P : Platform} (e : event) : bool :=
  negb (is_write e || is_exec e).

(** Events that do not write a file. *)
Definition no_write {P : Platform} (e : event) : bool := negb (is_write e).

(** Running [m] leaves the files as they were and only adds events that
    satisfy [ok]. *)
Definition quiet {P : Platform} {A} (ok : event -> bool) (m : M A) : Prop :=
  forall w,
    fs (snd (m w)) = fs w
    /\ exists evs, trace (snd (m w)) = trace w ++ evs /\ forallb ok evs = true.


(* ------------------------------------------------------------------ *)
(** * generate-variant.py: the text of a variant *)
(* ------------------------------------------------------------------ *)

Section Generator.

(** [yaml.dump(v, default_flow_style=False, allow_unicode=True)] *)
Variable yaml_dump : value -> str.

(** [datetime.now(timezone.utc).strftime("%Y-%m-%dT%H:%M:%SZ")] *)
Variable generated_at : str.

(** The mapping [variant_meta] of [build_output_front_matter]. *)
Definition variant_meta (metadata : value) (audience locale : str) : res dict :=
  res_bind (py_get metadata (lit "id") (VStr (lit "unknown"))) (fun id =>
  res_bind (py_get metadata (lit "title") (VStr [])) (fun ttl =>
  res_bind (py_get metadata (lit "module_type") (VStr [])) (fun module_type =>
  res_bind (py_get metadata (lit "course_id") (VStr [])) (fun course_id =>
  res_bind (py_get metadata (lit "version") (VStr (lit "1.0"))) (fun version =>
  res_bind (py_get metadata (lit "learning_objectives") (VList [])) (fun objectives =>
  res_bind (py_get metadata (lit "tags") (VList [])) (fun tags =>
  Val [ (lit "id", id);
        (lit "title", ttl);
        (lit "module_type", module_type);
        (lit "course_id", course_id);
        (lit "version", version);
        (lit "audience", VStr audience);
        (lit "locale", VStr locale);
        (lit "learning_objectives", objectives);
        (lit "tags", tags);
        (lit "generated_from", VStr (lit "base"));
        (lit "generated_at", VStr generated_at) ]))))))).

(** [build_output_front_matter]: YAML front matter for the generated
    variant. *)
Definition build_output_front_matter (metadata : value) (audience locale : str)
  : res str :=
  res_bind (variant_meta metadata audience locale) (fun vm =>
  Val (lit "---" ++ [LF] ++ yaml_dump (VDict vm) ++ lit "---" ++ [LF; LF])).

(** [full_output] of [generate_variant]: the front matter, then the
    adapted content. *)
Definition full_output (metadata : value) (audience locale adapted_content : str)
  : res str :=
  res_bind (build_output_front_matter metadata audience locale) (fun front_matter =>
  Val (front_matter ++ adapted_content)).

End Generator.


Section GeneratorLedger.

Context {P : Platform}.

(** [yaml.dump(v, f, default_flow_style=False, allow_unicode=True)] *)
Variable yaml_dump : value -> str.

(** [existing.append(entry)] *)
Definition list_append (existing entry : value) : res value :=
  match existing with
  | VList l => Val (VList (l ++ [entry]))
  | _ => Err AttributeError
  end.

(** [update_manifest]: append a variant entry to the
    [variants/manifest.yaml] tracking file. *)
Definition update_manifest (manifest_path : Path) (entry : value) : M unit :=
  found <- path_exists manifest_path ;;
  existing <- (if found then
                 t <- read_text manifest_path ;;
                 data <- yaml_load t ;;
                 ret (if truthy data then data else VList [])
               else ret (VList [])) ;;
  existing <- lift (list_append existing entry) ;;
  write_text manifest_path (yaml_dump existing).

End GeneratorLedger.

(** Two documents hold the same data when they differ at most in the order
    of the keys of their mappings. *)
Inductive opt_rel {A} (R : A -> A -> Prop) : option A -> option A -> Prop :=
| opt_rel_none : opt_rel R None None
| opt_rel_some (a b : A) : R a b -> opt_rel R (Some a) (Some b).

Inductive same_data : value -> value -> Prop :=
| same_none : same_data VNone VNone
| same_bool (b : bool) : same_data (VBool b) (VBool b)
| same_int (z : Z) : same_data (VInt z) (VInt z)
| same_str (s : str) : same_data (VStr s) (VStr s)
| same_list (l l' : list value) :
    Forall2 same_data l l' -> same_data (VList l) (VList l')
| same_dict (d d' : dict) :
    (forall k, opt_rel same_data (dict_get d k) (dict_get d' k)) ->
    same_data (VDict d) (VDict d').

(** A platform with a dumper and a loader for ledgers whose entries are
    mappings of strings, in block style: an entry is a line [- key: value]
    followed by lines [  key: value], the keys sorted as [yaml.dump] sorts
    them. *)
Module Appended.

Fixpoint str_ltb (a b : str) : bool :=
  match a, b with
  | _, [] => false
  | [], _ :: _ => true
  | x :: a', y :: b' => (x <? y)%N || ((x =? y)%N && str_ltb a' b')
  end.

Fixpoint insert_sorted (kv : str * value) (d : dict) : dict :=
  match d with
  | [] => [kv]
  | kv' :: d' =>
      if str_ltb (fst kv) (fst kv') then kv :: d else kv' :: insert_sorted kv d'
  end.

Definition sort_keys (d : dict) : dict := fold_right insert_sorted [] d.

Definition sorted (e : value) : value :=
  match e with VDict d => VDict (sort_keys d) | _ => e end.

Definition scalar (v : value) : str :=
  match v with VStr s => s | _ => [] end.

Fixpoint dump_pairs (first : bool) (d : dict) : str :=
  match d with
  | [] => []
  | (k, v) :: d' =>
      (if first then lit "- " else lit "  ") ++ k ++ lit ": " ++ scalar v
        ++ [LF] ++ dump_pairs false d'
  end.

Definition dump_entry (e : value) : str :=
  match e with VDict d => dump_pairs true (sort_keys d) | _ => [] end.

Definition dump (v : value) : str :=
  match v with VList es => flat_map dump_entry es | _ => [] end.

(** [key: value], split at the first colon followed by a space. *)
Fixpoint split_kv (s acc : str) : option (str * value) :=
  match s with
  | [] => None
  | c :: s' =>
      match s' with
      | d :: rest =>
          if (c =? 58)%N && (d =? 32)%N then Some (rev acc, VStr rest)
          else split_kv s' (c :: acc)
      | [] => None
      end
  end.

Definition flush (cur : option dict) (done : list value) : list value :=
  match cur with Some d => VDict d :: done | None => done end.

Fixpoint load_lines (ls : list str) (cur : option dict) (done : list value)
  : option (list value) :=
  match ls with
  | [] => Some (rev (flush cur done))
  | l :: rest =>
      match l with
      | a :: b :: kv =>
          match split_kv kv [] with
          | Some p =>
              if (a =? 45)%N && (b =? 32)%N then
                load_lines rest (Some [p]) (flush cur done)
              else if (a =? 32)%N && (b =? 32)%N then
                match cur with
                | Some d => load_lines rest (Some (d ++ [p])) done
                | None => None
                end
              else None
          | None => None
          end
      | _ => None
      end
  end.

Definition yaml (t : str) : option value :=
  match t with
  | [] => Some VNone
  | _ => option_map VList (load_lines (splitlines t) None [])
  end.

#[export] Instance platform : Platform := {|
  Path := Demo.path;
  Path_of := Demo.path_of;
  joinpath := fun p q => p ++ q;
  parent := fun p => removelast p;
  FS := Demo.files;
  fs_exists := fun f p =>
    match Demo.file_lookup f p with Some _ => true | None => false end;
  fs_read_text := Demo.file_lookup;
  fs_read_error := fun _ _ => NotReadable;
  fs_write_text := fun f p t => Some (Demo.file_store f p t);
  Remote := Scripted.script;
  http_send := Scripted.play_http;
  docker_exec := Scripted.play_exec;
  yaml_safe_load := yaml;
  markdown_markdown := fun t _ => lit "<p>" ++ t ++ lit "</p>";
  str_title := Demo.title_ascii;
  str_of := fun _ => lit "?";
  MOODLE_CLI_SCRIPT := lit "<?php /* enable web services, mint a token */"
|}.

(** Two entries, with their keys in the order the generator gives them. *)
Definition developer : value :=
  Demo.entry "m1" "developer" "variants/m1/developer-en-US.md".
Definition executive : value :=
  Demo.entry "m1" "executive" "variants/m1/executive-en-US.md".

Definition start (f : Demo.files) : world :=
  mkWorld f (Scripted.mkScript [] []) 0 0 (lit "admin") [] [].

End Appended.


(* ================================================================== *)
(** * Theorems *)
(* ================================================================== *)

(** ** Facts about the string primitives *)

Lemma startswith_iff (p s : str) :
  startswith s p = true <-> exists t, s = p ++ t.
Proof.
  revert s; induction p as [|c p IH]; intros s; simpl.
  - split; [intros _; now exists s | intros _; reflexivity].
  - destruct s as [|d s]; simpl.
    + split; [discriminate | intros [t Ht]; discriminate].
    + rewrite andb_true_iff, N.eqb_eq, IH. split.
      * intros [-> [t ->]]. now exists t.
      * intros [t Ht]. injection Ht as -> ->. split; [reflexivity | now exists t].
Qed.

Lemma startswith_false_iff (p s : str) :
  startswith s p = false <-> forall t, s <> p ++ t.
Proof.
  split.
  - intros H t ->.
    assert (startswith (p ++ t) p = true) by (apply startswith_iff; now exists t).
    congruence.
  - intros H. destruct (startswith s p) eqn:E; [|reflexivity].
    apply startswith_iff in E as [t ->]. now destruct (H t).
Qed.

Lemma find_from_absent (sub s : str) (i : Z) :
  (forall pre post, s <> pre ++ sub ++ post) -> find_from s sub i = (-1)%Z.
Proof.
  revert i; induction s as [|c s IH]; intros i H; simpl.
  - destruct (startswith [] sub) eqn:E; [|reflexivity].
    apply startswith_iff in E as [t Ht]. now destruct (H [] t).
  - destruct (startswith (c :: s) sub) eqn:E.
    + apply startswith_iff in E as [t Ht]. now destruct (H [] t).
    + apply IH. intros pre post ->. now apply (H (c :: pre) post).
Qed.

Lemma find_from_first (sub s pre post : str) (i : Z) :
  occurs_first s sub pre post ->
  find_from s sub i = (i + Z.of_nat (length pre))%Z.
Proof.
  revert s i; induction pre as [|c pre IH]; intros s i [Hs Hmin].
  - subst s. simpl app.
    assert (E : startswith (sub ++ post) sub = true)
      by (apply startswith_iff; now exists post).
    destruct (sub ++ post); simpl in *; rewrite E; lia.
  - subst s. simpl app. simpl find_from.
    destruct (startswith (c :: pre ++ sub ++ post) sub) eqn:E.
    + apply startswith_iff in E as [t Ht].
      specialize (Hmin [] t Ht). simpl in Hmin. lia.
    + rewrite (IH (pre ++ sub ++ post) (i + 1)%Z).
      * simpl length. lia.
      * split; [reflexivity|]. intros pre' post' H'.
        specialize (Hmin (c :: pre') post'). simpl in Hmin.
        rewrite H' in Hmin. specialize (Hmin eq_refl). lia.
Qed.

Lemma find_from_found (sub s : str) (i r : Z) :
  find_from s sub i = r -> (0 <= i)%Z -> r <> (-1)%Z ->
  exists pre post, occurs_first s sub pre post /\
                   r = (i + Z.of_nat (length pre))%Z.
Proof.
  revert i; induction s as [|c s IH]; intros i Hr Hi Hne; simpl in Hr.
  - destruct (startswith [] sub) eqn:E; [|congruence].
    apply startswith_iff in E as [t Ht]. exists [], t. repeat split.
    + exact Ht.
    + intros; simpl; lia.
    + simpl; lia.
  - destruct (startswith (c :: s) sub) eqn:E.
    + apply startswith_iff in E as [t Ht]. exists [], t. repeat split.
      * exact Ht.
      * intros; simpl; lia.
      * simpl; lia.
    + destruct (IH (i + 1)%Z Hr ltac:(lia) Hne) as (pre & post & [Hs Hmin] & Hrr).
      exists (c :: pre), post. repeat split.
      * simpl. now rewrite Hs.
      * intros [|d pre'] post' H'.
        -- simpl in H'. apply startswith_false_iff with (t := post') in E.
           now destruct E.
        -- simpl in H'. injection H' as -> H'.
           specialize (Hmin pre' post' H'). simpl. lia.
      * simpl length. lia.
Qed.

Lemma find_from_present (sub s pre post : str) (i : Z) :
  s = pre ++ sub ++ post ->
  (i <= find_from s sub i <= i + Z.of_nat (length pre))%Z.
Proof.
  revert s i; induction pre as [|c pre IH]; intros s i ->.
  - simpl app.
    assert (E : startswith (sub ++ post) sub = true)
      by (apply startswith_iff; now exists post).
    destruct (sub ++ post); simpl in *; rewrite E; lia.
  - simpl app. simpl find_from.
    destruct (startswith (c :: pre ++ sub ++ post) sub).
    + simpl length. lia.
    + specialize (IH _ (i + 1)%Z eq_refl). simpl length. lia.
Qed.

Lemma lstrip_length (s : str) : (length (lstrip s) <= length s)%nat.
Proof.
  induction s as [|c s IH]; simpl; [lia|].
  destruct (isspace c); simpl; lia.
Qed.

(** ** Front matter *)

Lemma fence_open_prefix (text : str) :
  startswith text fence_open = true <-> exists t, text = fence_open ++ t.
Proof. apply startswith_iff. Qed.

(** A closing fence cannot begin inside the opening fence. *)
Lemma fence_close_after_open (t pre post : str) :
  fence_open ++ t = pre ++ fence_close ++ post ->
  exists pre2, pre = fence_open ++ pre2 /\ t = pre2 ++ fence_close ++ post.
Proof.
  intros H. cbv [fence_open fence_close of_ascii LF] in *. simpl in *.
  destruct pre as [|a [|b [|c pre]]]; simpl in H; try discriminate H.
  injection H as <- <- <- H. now exists pre.
Qed.

Lemma find_fence_close (t : str) :
  find (fence_open ++ t) fence_close 3 = find_from t fence_close 3.
Proof. reflexivity. Qed.

Lemma strip_front_matter_closed (t pre2 post : str) :
  occurs_first t fence_close pre2 post ->
  strip_front_matter (fence_open ++ t) = lstrip post.
Proof.
  intros Hocc. unfold strip_front_matter.
  assert (E : startswith (fence_open ++ t) fence_open = true)
    by (apply startswith_iff; now exists t).
  rewrite E, find_fence_close, (find_from_first _ _ _ _ 3%Z Hocc).
  destruct Hocc as [-> _].
  replace (negb (3 + Z.of_nat (length pre2) =? -1)%Z) with true
    by (symmetry; apply negb_true_iff, Z.eqb_neq; lia).
  unfold slice_from.
  replace (Z.to_nat (3 + Z.of_nat (length pre2) + 4))
    with (3 + (length pre2 + 4))%nat by lia.
  change (skipn (3 + (length pre2 + 4)) (fence_open ++ pre2 ++ fence_close ++ post))
    with (skipn (length pre2 + 4) (pre2 ++ fence_close ++ post)).
  rewrite Nat.add_comm, <- skipn_skipn, skipn_app, skipn_all, Nat.sub_diag.
  reflexivity.
Qed.

Lemma strip_front_matter_open (t : str) :
  (forall pre post, t <> pre ++ fence_close ++ post) ->
  strip_front_matter (fence_open ++ t) = fence_open ++ t.
Proof.
  intros H. unfold strip_front_matter.
  assert (E : startswith (fence_open ++ t) fence_open = true)
    by (apply startswith_iff; now exists t).
  now rewrite E, find_fence_close, (find_from_absent _ _ 3%Z H).
Qed.

Lemma strip_front_matter_shrinks (y : str) :
  has_front_matter y ->
  (length (strip_front_matter y) < length y)%nat.
Proof.
  intros (pre & post & ->). unfold strip_front_matter.
  assert (E : startswith (fence_open ++ pre ++ fence_close ++ post) fence_open = true)
    by (apply startswith_iff; now eexists).
  rewrite E, find_fence_close.
  pose proof (find_from_present fence_close _ pre post 3%Z eq_refl) as Hr.
  set (r := find_from _ _ _) in *.
  replace (negb (r =? -1)%Z) with true
    by (symmetry; apply negb_true_iff, Z.eqb_neq; lia).
  pose proof (lstrip_length (slice_from (fence_open ++ pre ++ fence_close ++ post) (r + 4))) as Hl.
  unfold slice_from in *. rewrite length_skipn in Hl.
  rewrite !length_app in *. simpl length in *. lia.
Qed.

Lemma strip_front_matter_fixed (y : str) :
  strip_front_matter y = y <-> ~ has_front_matter y.
Proof.
  split.
  - intros Heq Hb. apply strip_front_matter_shrinks in Hb. rewrite Heq in Hb. lia.
  - intros Hno. destruct (startswith y fence_open) eqn:E.
    + apply startswith_iff in E as [t ->].
      apply strip_front_matter_open. intros pre post ->.
      apply Hno. now exists pre, post.
    + unfold strip_front_matter. now rewrite E.
Qed.

(** C7. When the text begins with the front-matter fence, [strip_front_matter]
    returns what follows the first closing fence, left-trimmed, whatever
    fences the body holds later; without a leading fence the text comes back
    unchanged; and the documented sample yields exactly "Body". *)
Theorem strip_front_matter_spec :
  (forall text pre post,
      startswith text fence_open = true ->
      occurs_first text fence_close pre post ->
      strip_front_matter text = lstrip post)
  /\ (forall text,
         startswith text fence_open = false -> strip_front_matter text = text)
  /\ strip_front_matter (join_lines ["---"; "id: x"; "---"; EmptyString; "Body"])
     = of_ascii "Body".
Proof.
  split; [|split].
  - intros text pre post E [Hs Hmin].
    apply startswith_iff in E as [t ->].
    destruct (fence_close_after_open _ _ _ Hs) as (pre2 & -> & ->).
    apply strip_front_matter_closed with (pre2 := pre2).
    split; [reflexivity|]. intros pre' post' H'.
    specialize (Hmin (fence_open ++ pre') post').
    rewrite <- !app_assoc, H' in Hmin. specialize (Hmin eq_refl).
    rewrite !length_app in Hmin. lia.
  - intros text E. unfold strip_front_matter. now rewrite E.
  - reflexivity.
Qed.

Lemma strip_front_matter_spec_witness :
  strip_front_matter
    (join_lines ["---"; "id: x"; "---"; EmptyString; "Body"; "---"; "more"])
  = join_lines ["Body"; "---"; "more"]
  /\ strip_front_matter (of_ascii "# Title") = of_ascii "# Title".
Proof.
  split.
  - apply (proj1 strip_front_matter_spec
             (join_lines ["---"; "id: x"; "---"; EmptyString; "Body"; "---"; "more"])
             (join_lines ["---"; "id: x"])
             (join_lines [EmptyString; EmptyString; "Body"; "---"; "more"])).
    + reflexivity.
    + split; [reflexivity|].
      intros pre' post' H.
      do 9 (destruct pre' as [|? pre']; [cbv in H; discriminate H|]).
      simpl. lia.
  - apply (proj1 (proj2 strip_front_matter_spec)). reflexivity.
Defined.

(** C10. A text that opens with the fence but has no closing fence at or
    after offset 3 is returned unchanged. *)
Theorem strip_front_matter_unterminated (text : str) :
  startswith text fence_open = true ->
  (forall pre post,
      (3 <= length pre)%nat -> text <> pre ++ fence_close ++ post) ->
  strip_front_matter text = text.
Proof.
  intros E H. apply startswith_iff in E as [t ->].
  apply strip_front_matter_open. intros pre post ->.
  apply (H (fence_open ++ pre) post).
  - rewrite length_app. simpl. lia.
  - now rewrite <- app_assoc.
Qed.

Lemma strip_front_matter_unterminated_witness :
  strip_front_matter (join_lines ["---"; "id: x"; "Body"])
  = join_lines ["---"; "id: x"; "Body"].
Proof.
  apply strip_front_matter_unterminated.
  - reflexivity.
  - intros pre post _ H.
    do 15 (destruct pre as [|? pre]; [cbv in H; discriminate H|]).
    cbv in H. discriminate H.
Defined.

(** C8, as the code has it.  Stripping twice equals stripping once exactly
    when the once-stripped text does not itself open with a complete
    front-matter block. *)
Theorem strip_front_matter_twice (x : str) :
  strip_front_matter (strip_front_matter x) = strip_front_matter x
  <-> ~ has_front_matter (strip_front_matter x).
Proof. apply strip_front_matter_fixed. Qed.

(** C8 fails as stated: a body that starts with a second block loses it on
    the second pass. *)
Lemma strip_front_matter_not_idempotent :
  ~ (forall x,
        strip_front_matter (strip_front_matter x) = strip_front_matter x).
Proof.
  intros H.
  specialize (H (join_lines ["---"; "a"; "---"; "---"; "b"; "---"; "c"])).
  vm_compute in H. discriminate H.
Qed.

(** ** Running the monad *)

Section MonadFacts.

Context {P : Platform}.

Lemma bind_ok {A B} (m : M A) (k : A -> M B) (w w' : world) (a : A) :
  m w = (Ok a, w') -> bind m k w = k a w'.
Proof. intros H. unfold bind. now rewrite H. Qed.

Lemma bind_raise {A B} (m : M A) (k : A -> M B) (w w' : world) (e : exn) :
  m w = (Raise e, w') -> bind m k w = (Raise e, w').
Proof. intros H. unfold bind. now rewrite H. Qed.

Lemma bind_exit {A B} (m : M A) (k : A -> M B) (w w' : world) (c : Z) :
  m w = (Exit c, w') -> bind m k w = (Exit c, w').
Proof. intros H. unfold bind. now rewrite H. Qed.

Lemma lift_val {A} (a : A) (w : world) : lift (Val a) w = (Ok a, w).
Proof. reflexivity. Qed.

Lemma lift_err {A} (e : exn) (w : world) : @lift P A (Err e) w = (Raise e, w).
Proof. reflexivity. Qed.

Lemma events_since_app (w w' : world) (evs : list event) :
  trace w' = trace w ++ evs -> events_since w w' = evs.
Proof.
  intros H. unfold events_since. rewrite H, skipn_app, skipn_all, Nat.sub_diag.
  reflexivity.
Qed.

Lemma events_since_mk (w : world) f r c n u p (evs : list event) :
  events_since w (mkWorld f r c n u p (trace w ++ evs)) = evs.
Proof. now apply events_since_app. Qed.

End MonadFacts.

(** ** The REST helper *)

Section ApiFacts.

Context {P : Platform}.

Lemma api_run (url token function : str) (params : dict)
    (w : world) (r' : Remote) (resp : response) (data : value) :
  http_send (remote w) None (rest_request url token function params)
    = (r', Replied resp) ->
  http_ok resp ->
  json resp = Some data ->
  let w' := mkWorld (fs w) r' (clock w + Z.of_N (elapsed resp)) (next_session w)
                    (DEFAULT_USER w) (DEFAULT_PASS w)
                    (trace w ++ [EvHttp None (rest_request url token function params)]) in
  api url token function params w =
    match data with
    | VDict d =>
        if dict_contains d (lit "exception")
        then (Raise (RuntimeError (MoodleApiError function
                (match dict_get d (lit "message") with
                 | Some m => m | None => data end))), w')
        else (Ok data, w')
    | _ => (Ok data, w')
    end.
Proof.
  intros Hsend Hok Hjson w'.
  unfold api, requests_post, send, bind. fold (rest_request url token function params).
  rewrite Hsend. fold w'.
  unfold raise_for_status.
  replace ((400 <=? status_code resp)%Z && (status_code resp <? 600)%Z) with false
    by (symmetry; apply andb_false_iff; unfold http_ok in Hok; lia).
  unfold ret, response_json. rewrite Hjson. unfold ret.
  destruct data as [| | | | |d]; try reflexivity.
  simpl. destruct (dict_contains d (lit "exception")); reflexivity.
Qed.

End ApiFacts.

Section ApiClaims.

Context {P : Platform}.

(** Whatever the remote answers, [api] makes exactly one exchange and leaves
    the files alone. *)
Lemma api_trace (url token function : str) (params : dict) (w : world) :
  trace (snd (api url token function params w))
  = trace w ++ [EvHttp None (rest_request url token function params)]
  /\ fs (snd (api url token function params w)) = fs w.
Proof.
  unfold api, requests_post, send, bind.
  fold (rest_request url token function params).
  destruct (http_send _ _ _) as [r2 [resp|el]]; simpl; [|now split].
  unfold raise_for_status.
  destruct ((400 <=? status_code resp)%Z && (status_code resp <? 600)%Z);
    simpl; [now split|].
  unfold response_json. destruct (json resp) as [data|]; simpl; [|now split].
  destruct data; simpl; try (now split).
  destruct (dict_contains _ _); simpl; now split.
Qed.

(** C6. After HTTP success, [api] raises exactly when the decoded response
    is a mapping with an [exception] key; the error then names the called
    function and carries the server's [message]; any other decoded response
    is handed back as it is. *)
Theorem api_raises_iff_exception_key
    (url token function : str) (params : dict)
    (w : world) (r' : Remote) (resp : response) (data : value) :
  http_send (remote w) None (rest_request url token function params)
    = (r', Replied resp) ->
  http_ok resp ->
  json resp = Some data ->
  let out := fst (api url token function params w) in
  (has_exception_key data ->
     exists detail,
       out = Raise (RuntimeError (MoodleApiError function detail))
       /\ forall d m, data = VDict d -> dict_get d (lit "message") = Some m ->
                      detail = m)
  /\ (~ has_exception_key data -> out = Ok data)
  /\ ((exists e, out = Raise e) <-> has_exception_key data).
Proof.
  intros Hsend Hok Hjson out. subst out.
  rewrite (api_run url token function params w r' resp data Hsend Hok Hjson).
  destruct data as [| b | z | s | l | d];
    try (split; [intros (d0 & Hd & _); discriminate Hd
                | split; [reflexivity
                         | split; [intros [e He]; discriminate He
                                  | intros (d0 & Hd & _); discriminate Hd]]]).
  destruct (dict_contains d (lit "exception")) eqn:E; simpl.
  - split; [|split].
    + intros _. eexists. split; [reflexivity|].
      intros d0 m Hd Hm. injection Hd as <-. now rewrite Hm.
    + intros Hn. destruct Hn. now exists d.
    + split; [intros _; now exists d | intros _; eexists; reflexivity].
  - split; [|split].
    + intros (d0 & Hd & Hc). injection Hd as <-. congruence.
    + reflexivity.
    + split; [intros [e He]; discriminate He
             | intros (d0 & Hd & Hc); injection Hd as <-; congruence].
Qed.

End ApiClaims.

Lemma api_raises_iff_exception_key_witness :
  (exists e,
      fst (@api Demo.platform (lit "http://localhost:8080") (lit "stale")
             (lit "core_webservice_get_site_info") [] (Demo.world0 [])) = Raise e)
  <-> has_exception_key
        (Demo.api_exception "invalidtoken" "Invalid token - token not found").
Proof.
  apply (@api_raises_iff_exception_key Demo.platform
           (lit "http://localhost:8080") (lit "stale")
           (lit "core_webservice_get_site_info") [] (Demo.world0 [])
           Demo.site0
           (mkResponse 200 []
              (Some (Demo.api_exception "invalidtoken"
                       "Invalid token - token not found")) 20)).
  - reflexivity.
  - left. simpl. lia.
  - reflexivity.
Defined.

(** ** The course reconciler *)

Section EnsureCourse.

Context {P : Platform}.

Lemma rest_calls_app (function : str) (a b : list event) :
  rest_calls function (a ++ b) = (rest_calls function a + rest_calls function b)%nat.
Proof. unfold rest_calls. now rewrite filter_app, length_app. Qed.

Lemma events_since_app2 (w w' : world) (a b : list event) :
  trace w' = (trace w ++ a) ++ b -> events_since w w' = a ++ b.
Proof. intros H. apply events_since_app. now rewrite H, app_assoc. Qed.

Lemma lookup_run (url token course_id : str) (w : world) (r1 : Remote) (d : dict) :
  lookup_answer url token course_id w r1 d ->
  exists w1,
    api url token (lit "core_course_get_courses_by_field")
        [ (lit "field", VStr (lit "idnumber")); (lit "value", VStr course_id) ] w
    = (Ok (VDict d), w1)
    /\ remote w1 = r1
    /\ trace w1 = trace w ++ [EvHttp None (lookup_request url token course_id)].
Proof.
  intros (resp & Hsend & Hok & Hjson & Hexc).
  eexists. rewrite (api_run _ _ _ _ _ _ _ _ Hsend Hok Hjson), Hexc.
  split; [reflexivity|]. split; reflexivity.
Qed.

(** The lookup found the course: its id comes back after one exchange. *)
Lemma ensure_course_present
    (url token course_id course_title : str)
    (w : world) (r1 : Remote) (d c : dict) (rest : list value) (id : value) :
  lookup_answer url token course_id w r1 d ->
  dict_get d (lit "courses") = Some (VList (VDict c :: rest)) ->
  dict_get c (lit "id") = Some id ->
  exists w',
    ensure_course url token course_id course_title w = (Ok id, w')
    /\ remote w' = r1
    /\ trace w' = trace w ++ [ EvHttp None (lookup_request url token course_id);
                               EvPrint (PCourseExists id course_title) ].
Proof.
  intros Hl Hc Hid.
  destruct (lookup_run _ _ _ _ _ _ Hl) as (w1 & Hapi & Hr1 & Ht1).
  unfold ensure_course. rewrite (bind_ok _ _ _ _ _ Hapi).
  assert (Hg : py_get (VDict d) (lit "courses") (VList [])
               = Val (VList (VDict c :: rest)))
    by (unfold py_get; now rewrite Hc).
  rewrite Hg, (bind_ok _ _ _ _ _ (lift_val _ _)).
  change (truthy (VList (VDict c :: rest))) with true. cbv iota.
  change (subscript_0 (VList (VDict c :: rest))) with (Val (VDict c)).
  rewrite (bind_ok _ _ _ _ _ (lift_val _ _)).
  assert (Hs : subscript_str (VDict c) (lit "id") = Val id)
    by (unfold subscript_str; now rewrite Hid).
  rewrite Hs, (bind_ok _ _ _ _ _ (lift_val _ _)).
  unfold bind, print, emit, ret. eexists. split; [reflexivity|].
  simpl. split; [exact Hr1|]. now rewrite Ht1, <- app_assoc.
Qed.

(** The lookup found nothing: a single creation call follows it. *)
Lemma ensure_course_absent
    (url token course_id course_title : str)
    (w : world) (r1 : Remote) (d : dict) :
  lookup_answer url token course_id w r1 d ->
  dict_get d (lit "courses") = None
  \/ dict_get d (lit "courses") = Some (VList []) ->
  exists w1,
    remote w1 = r1
    /\ trace w1 = trace w ++ [EvHttp None (lookup_request url token course_id)]
    /\ ensure_course url token course_id course_title w
       = bind (api url token (lit "core_course_create_courses")
                  (create_params course_id course_title))
              (fun created =>
                 c0 <- lift (subscript_0 created) ;;
                 moodle_id <- lift (subscript_str c0 (lit "id")) ;;
                 print (PCourseCreated moodle_id course_title) ;;;
                 ret moodle_id) w1.
Proof.
  intros Hl Hnone.
  destruct (lookup_run _ _ _ _ _ _ Hl) as (w1 & Hapi & Hr1 & Ht1).
  exists w1. split; [exact Hr1|]. split; [exact Ht1|].
  unfold ensure_course. rewrite (bind_ok _ _ _ _ _ Hapi).
  assert (Hc : py_get (VDict d) (lit "courses") (VList []) = Val (VList []))
    by (unfold py_get; destruct Hnone as [-> | ->]; reflexivity).
  rewrite Hc, (bind_ok _ _ _ _ _ (lift_val _ _)).
  reflexivity.
Qed.

End EnsureCourse.

Section EnsureCourseClaim.

Context {P : Platform}.

(** After an empty lookup the run adds the creation call and, when it
    succeeds, the line that reports it; nothing else. *)
Lemma creation_tail (url token course_id course_title : str) (w1 : world) :
  let run :=
    bind (api url token (lit "core_course_create_courses")
              (create_params course_id course_title))
         (fun created =>
            c0 <- lift (subscript_0 created) ;;
            moodle_id <- lift (subscript_str c0 (lit "id")) ;;
            print (PCourseCreated moodle_id course_title) ;;;
            ret moodle_id) w1 in
  exists tail,
    trace (snd run)
    = (trace w1 ++ [EvHttp None (create_request url token course_id course_title)])
      ++ tail
    /\ rest_calls (lit "core_course_create_courses") tail = 0%nat.
Proof.
  intros run. subst run.
  destruct (api_trace url token (lit "core_course_create_courses")
              (create_params course_id course_title) w1) as [Ht _].
  fold (create_request url token course_id course_title) in Ht.
  unfold bind at 1.
  destruct (api url token (lit "core_course_create_courses")
              (create_params course_id course_title) w1)
    as [[created | e | code] w2]; simpl in Ht; simpl snd.
  - unfold bind, lift, print, emit, ret.
    destruct (subscript_0 created) as [c0|e0]; simpl.
    + destruct (subscript_str c0 (lit "id")) as [mid|e1]; simpl.
      * eexists [_]. rewrite Ht. split; reflexivity.
      * exists []. rewrite Ht, app_nil_r. split; reflexivity.
    + exists []. rewrite Ht, app_nil_r. split; reflexivity.
  - exists []. rewrite Ht, app_nil_r. split; reflexivity.
  - exists []. rewrite Ht, app_nil_r. split; reflexivity.
Qed.

Lemma create_request_is_creation (url token course_id course_title : str) :
  is_rest_call (lit "core_course_create_courses")
    (EvHttp None (create_request url token course_id course_title)) = true.
Proof. reflexivity. Qed.

Lemma lookup_request_is_no_creation (url token course_id : str) :
  is_rest_call (lit "core_course_create_courses")
    (EvHttp None (lookup_request url token course_id)) = false.
Proof. reflexivity. Qed.

(** C1. [ensure_course] is idempotent on the [idnumber] key.  When the
    lookup by [idnumber] finds the course, no creation call is issued, the
    remote is left as the lookup left it, and the id found is returned; when
    the lookup finds nothing, exactly one creation call is issued, and the id
    that call echoes is returned. *)
Theorem ensure_course_idempotent
    (url token course_id course_title : str)
    (w : world) (r1 : Remote) (d : dict) :
  lookup_answer url token course_id w r1 d ->
  let out := fst (ensure_course url token course_id course_title w) in
  let w' := snd (ensure_course url token course_id course_title w) in
  let creations :=
    rest_calls (lit "core_course_create_courses") (events_since w w') in
  (forall c rest id,
      dict_get d (lit "courses") = Some (VList (VDict c :: rest)) ->
      dict_get c (lit "id") = Some id ->
      out = Ok id /\ creations = 0%nat /\ remote w' = r1)
  /\ (dict_get d (lit "courses") = None
      \/ dict_get d (lit "courses") = Some (VList []) ->
      creations = 1%nat
      /\ In (EvHttp None (create_request url token course_id course_title))
            (events_since w w')
      /\ forall r2 resp c rest id,
          http_send r1 None (create_request url token course_id course_title)
            = (r2, Replied resp) ->
          http_ok resp ->
          json resp = Some (VList (VDict c :: rest)) ->
          dict_get c (lit "id") = Some id ->
          out = Ok id).
Proof.
  intros Hl out w' creations. subst out w' creations. split.
  - intros c rest id Hc Hid.
    destruct (ensure_course_present url token course_id course_title
                w r1 d c rest id Hl Hc Hid) as (w2 & Hrun & Hr & Ht).
    rewrite Hrun. simpl fst. simpl snd.
    rewrite (events_since_app _ _ _ Ht).
    split; [reflexivity|]. split; [reflexivity | exact Hr].
  - intros Hnone.
    destruct (ensure_course_absent url token course_id course_title
                w r1 d Hl Hnone) as (w1 & Hr1 & Ht1 & Hrun).
    rewrite Hrun.
    destruct (creation_tail url token course_id course_title w1)
      as (tail & Htr & Htail).
    rewrite Ht1, <- !app_assoc in Htr.
    rewrite (events_since_app _ _ _ Htr).
    split; [|split].
    + rewrite !rest_calls_app, Htail. reflexivity.
    + right. left. reflexivity.
    + intros r2 resp c rest id Hsend Hok Hjson Hid.
      rewrite <- Hr1 in Hsend. unfold bind at 1.
      unfold create_request in Hsend.
      rewrite (api_run _ _ _ _ _ _ _ _ Hsend Hok Hjson).
      change (subscript_0 (VList (VDict c :: rest))) with (Val (VDict c)).
      rewrite (bind_ok _ _ _ _ _ (lift_val _ _)).
      assert (Hs : subscript_str (VDict c) (lit "id") = Val id)
        by (unfold subscript_str; now rewrite Hid).
      rewrite Hs, (bind_ok _ _ _ _ _ (lift_val _ _)).
      reflexivity.
Qed.

End EnsureCourseClaim.

Lemma ensure_course_idempotent_witness :
  let url := lit "http://localhost:8080" in
  let run cid :=
    @ensure_course Demo.platform url Demo.VALID_TOKEN (lit cid) (lit "Course")
      (Demo.world0 []) in
  let creations cid :=
    rest_calls (lit "core_course_create_courses")
      (events_since (Demo.world0 []) (snd (run cid))) in
  (fst (run "intro-course") = Ok (VInt 5)
   /\ creations "intro-course" = 0%nat
   /\ remote (snd (run "intro-course")) = Demo.site0)
  /\ (creations "mtat-preview" = 1%nat
      /\ fst (run "mtat-preview") = Ok (VInt 6)).
Proof.
  intros url run creations. split.
  - apply (proj1 (@ensure_course_idempotent Demo.platform url Demo.VALID_TOKEN
                    (lit "intro-course") (lit "Course") (Demo.world0 [])
                    Demo.site0
                    [ (lit "courses",
                       VList [ VDict [ (lit "id", VInt 5);
                                       (lit "idnumber", VStr (lit "intro-course")) ] ]) ]
                    ltac:(eexists; split; [reflexivity|]; split;
                          [left; simpl; lia | split; reflexivity]))
             [ (lit "id", VInt 5); (lit "idnumber", VStr (lit "intro-course")) ]
             [] (VInt 5)); reflexivity.
  - pose proof (proj2 (@ensure_course_idempotent Demo.platform url Demo.VALID_TOKEN
                    (lit "mtat-preview") (lit "Course") (Demo.world0 [])
                    Demo.site0
                    [ (lit "courses", VList []) ]
                    ltac:(eexists; split; [reflexivity|]; split;
                          [left; simpl; lia | split; reflexivity]))
                  (or_intror eq_refl)) as (Hn & _ & Hid).
    split; [exact Hn|].
    apply (Hid (Demo.mkMoodle [(lit "intro-course", 5%Z); (lit "mtat-preview", 6%Z)] 7)
               (mkResponse 200 []
                  (Some (VList [ VDict [ (lit "id", VInt 6);
                                         (lit "shortname", VStr (lit "mtat-preview")) ] ]))
                  20)
               [ (lit "id", VInt 6); (lit "shortname", VStr (lit "mtat-preview")) ]
               [] (VInt 6)).
    + reflexivity.
    + left. simpl. lia.
    + reflexivity.
    + reflexivity.
Defined.

(** ** Grouping the ledger *)

Lemma str_eqb_eq (a b : str) : str_eqb a b = true <-> a = b.
Proof.
  revert b; induction a as [|x a IH]; intros [|y b]; simpl;
    try (split; [discriminate | discriminate]); [tauto|].
  rewrite andb_true_iff, N.eqb_eq, IH. split.
  - intros [-> ->]. reflexivity.
  - intros H. injection H as -> ->. now split.
Qed.

Lemma str_eqb_refl (a : str) : str_eqb a a = true.
Proof. now apply str_eqb_eq. Qed.

Section Grouping.

Context {P : Platform}.

Lemma modules_append_new (mods : list (value * list value)) (k e : value) :
  exists m vs, In (m, vs) (modules_append mods k e) /\ In e vs.
Proof.
  induction mods as [|[k0 es] mods IH]; simpl.
  - exists k, [e]. split; left; reflexivity.
  - destruct (key_eqb k0 k).
    + exists k0, (es ++ [e]). split; [left; reflexivity|].
      apply in_or_app. right. left. reflexivity.
    + destruct IH as (m & vs & Hin & He). exists m, vs. split; [right|]; assumption.
Qed.

Lemma modules_append_keeps (mods : list (value * list value)) (k e : value)
    (m : value) (vs : list value) (e0 : value) :
  In (m, vs) mods -> In e0 vs ->
  exists vs', In (m, vs') (modules_append mods k e) /\ In e0 vs'.
Proof.
  induction mods as [|[k0 es] mods IH]; simpl; [tauto|].
  intros [Heq | Hin] He0.
  - injection Heq as -> ->. destruct (key_eqb m k).
    + exists (vs ++ [e]). split; [left; reflexivity|]. apply in_or_app. now left.
    + exists vs. split; [left; reflexivity | assumption].
  - destruct (IH Hin He0) as (vs' & H1 & H2).
    destruct (key_eqb k0 k).
    + exists vs. split; [right|]; assumption.
    + exists vs'. split; [right|]; assumption.
Qed.

Lemma courses_append_keeps (courses : list (str * course)) (cid : str)
    (k e : value) (key : str) (e0 : value) :
  filed_under courses key e0 -> filed_under (courses_append courses cid k e) key e0.
Proof.
  intros (c & m & vs & Hc & Hm & He).
  induction courses as [|[k0 c0] courses IH]; simpl in *; [tauto|].
  destruct Hc as [Heq | Hin].
  - injection Heq as -> ->. destruct (str_eqb key cid).
    + destruct (modules_append_keeps (modules c) k e m vs e0 Hm He) as (vs' & H1 & H2).
      eexists _, m, vs'. split; [left; reflexivity|]. split; assumption.
    + exists c, m, vs. split; [left; reflexivity|]. split; assumption.
  - destruct (str_eqb k0 cid).
    + exists c, m, vs. split; [right|split]; assumption.
    + destruct (IH Hin) as (c' & m' & vs' & H1 & H2 & H3).
      exists c', m', vs'. split; [right|split]; assumption.
Qed.

Lemma courses_append_files (courses : list (str * course)) (cid : str) (k e : value) :
  courses_contains courses cid = true ->
  filed_under (courses_append courses cid k e) cid e.
Proof.
  induction courses as [|[k0 c0] courses IH]; simpl; [discriminate|].
  destruct (str_eqb k0 cid) eqn:E; simpl.
  - intros _. apply str_eqb_eq in E as ->.
    destruct (modules_append_new (modules c0) k e) as (m & vs & H1 & H2).
    eexists _, m, vs. split; [left; reflexivity|]. split; assumption.
  - intros H. destruct (IH H) as (c & m & vs & H1 & H2 & H3).
    exists c, m, vs. split; [right|split]; assumption.
Qed.

Lemma courses_append_labels (courses : list (str * course)) (cid : str) (k e : value) :
  labels_derived courses -> labels_derived (courses_append courses cid k e).
Proof.
  unfold labels_derived. induction courses as [|[k0 c0] courses IH]; simpl; [tauto|].
  intros H key c. destruct (str_eqb k0 cid); simpl.
  - intros [Heq | Hin]; [|apply H; now right].
    injection Heq as <- <-. simpl. apply H. now left.
  - intros [Heq | Hin]; [apply H; now left|].
    apply IH; [|assumption]. intros key' c' H'. apply H. now right.
Qed.

Lemma courses_contains_app (courses : list (str * course)) (cid : str) (c : course) :
  courses_contains (courses ++ [(cid, c)]) cid = true.
Proof.
  induction courses as [|[k0 c0] courses IH]; simpl.
  - now rewrite str_eqb_refl.
  - rewrite IH. apply orb_true_r.
Qed.

End Grouping.

Section GroupingClaim.

Context {P : Platform}.

Lemma group_entry_files (courses : list (str * course)) (d : dict) :
  groupable (VDict d) ->
  labels_derived courses ->
  exists courses',
    group_entry courses (VDict d) = Val courses'
    /\ labels_derived courses'
    /\ (forall key e0, filed_under courses key e0 -> filed_under courses' key e0)
    /\ filed_under courses' (course_key d) (VDict d).
Proof.
  intros (d0 & Hd & Hcid & Hmod) Hlab. injection Hd as <-.
  set (cid := course_key d).
  set (courses1 := if negb (courses_contains courses cid)
                   then courses ++ [(cid, mkCourse (default_label cid) [])]
                   else courses).
  assert (Hrun : group_entry courses (VDict d)
                 = Val (courses_append courses1 cid (module_key d) (VDict d))).
  { unfold group_entry, py_get, res_bind, module_key in *. subst courses1 cid.
    unfold course_key, FALLBACK_COURSE, default_label.
    destruct Hcid as [-> | [c ->]]; simpl negb; cbv iota;
      destruct (dict_get d (lit "module_id")) as [m|];
      try destruct (dict_get d (lit "module_path")) as [p|];
      rewrite Hmod; reflexivity. }
  assert (Hc1 : courses_contains courses1 cid = true).
  { subst courses1. destruct (courses_contains courses cid) eqn:E; simpl.
    - exact E.
    - apply courses_contains_app. }
  assert (Hl1 : labels_derived courses1).
  { subst courses1. destruct (negb (courses_contains courses cid)); [|exact Hlab].
    intros key c Hin. apply in_app_or in Hin as [Hin | [Heq | []]].
    - now apply Hlab.
    - injection Heq as <- <-. reflexivity. }
  assert (Hk1 : forall key e0, filed_under courses key e0 -> filed_under courses1 key e0).
  { subst courses1. destruct (negb (courses_contains courses cid)); [|tauto].
    intros key e0 (c & m & vs & H1 & H2 & H3). exists c, m, vs.
    split; [apply in_or_app; now left | split; assumption]. }
  eexists. split; [exact Hrun|]. split; [|split].
  - now apply courses_append_labels.
  - intros key e0 H. apply courses_append_keeps. now apply Hk1.
  - now apply courses_append_files.
Qed.

Lemma group_loop_files (entries : list value) (courses0 : list (str * course)) :
  Forall groupable entries ->
  labels_derived courses0 ->
  exists courses,
    group_loop courses0 entries = Val courses
    /\ labels_derived courses
    /\ (forall key e0, filed_under courses0 key e0 -> filed_under courses key e0)
    /\ (forall d, In (VDict d) entries -> filed_under courses (course_key d) (VDict d)).
Proof.
  revert courses0. induction entries as [|e entries IH]; intros courses0 Hall Hlab.
  - exists courses0. simpl. repeat split; tauto.
  - inversion Hall as [|? ? He Hrest]; subst.
    pose proof He as (d & -> & _).
    destruct (group_entry_files courses0 d He Hlab) as (c1 & Hrun & Hl1 & Hk1 & Hf1).
    destruct (IH c1 Hrest Hl1) as (cs & Hloop & Hl & Hk & Hf).
    exists cs. simpl group_loop. rewrite Hrun. simpl res_bind.
    split; [exact Hloop|]. split; [exact Hl|]. split.
    + intros key e0 H. apply Hk, Hk1, H.
    + intros d' [Heq | Hin].
      * injection Heq as <-. apply Hk, Hf1.
      * now apply Hf.
Qed.

(** C9. [group_by_course] files every ledger entry that has no course
    identifier under the fixed sentinel key "mtat-preview", and the label of
    each course is its key with "-" replaced by spaces, title-cased (the
    ledger never supplies a title of its own). *)
Theorem group_by_course_fallback (entries : list value) :
  Forall groupable entries ->
  exists courses,
    group_by_course entries = Val courses
    /\ (forall d, In (VDict d) entries ->
                  dict_get d (lit "course_id") = None ->
                  filed_under courses (lit "mtat-preview") (VDict d))
    /\ (forall key c, In (key, c) courses ->
                      title c = str_title (replace_char 45%N (lit " ") key)).
Proof.
  intros Hall.
  destruct (group_loop_files entries [] Hall) as (cs & Hrun & Hl & _ & Hf).
  { intros key c []. }
  exists cs. split; [exact Hrun|]. split; [|exact Hl].
  intros d Hin Hnone. specialize (Hf d Hin).
  unfold course_key in Hf. now rewrite Hnone in Hf.
Qed.

End GroupingClaim.

Lemma group_by_course_fallback_witness :
  exists courses,
    @group_by_course Demo.platform Demo.ledger3 = Val courses
    /\ (forall d, In (VDict d) Demo.ledger3 ->
                  dict_get d (lit "course_id") = None ->
                  filed_under courses (lit "mtat-preview") (VDict d))
    /\ (forall key c, In (key, c) courses ->
                      title c = Demo.title_ascii (replace_char 45%N (lit " ") key)).
Proof.
  apply (@group_by_course_fallback Demo.platform Demo.ledger3).
  repeat constructor;
    (eexists; split; [reflexivity | split; [left; reflexivity | reflexivity]]).
Defined.

(** ** Which events a computation can add *)

Section Emits.

Context {P : Platform}.
Variable ok : event -> bool.



Lemma emits_sys_exit {A} (c : Z) : emits ok (@sys_exit P A c).
Proof. intros w. exists []. simpl. now rewrite app_nil_r. Qed.











End Emits.

(** ** Token resolution *)

Section TokenResolution.

Context {P : Platform}.





End TokenResolution.

(** ** Loading the ledger *)

Section Ledger.

Context {P : Platform}.

Lemma main_from_ledger (a : args) (w w1 w2 : world) (token : str) :
  args_get_token a = false ->
  main_token_resolution a (patch_defaults a w) = (Ok token, w1) ->
  main_verify_token a token w1 = (Ok tt, w2) ->
  main a w =
    bind (load_manifest (Path_of (args_manifest a)))
      (fun entries =>
         match entries with
         | [] => print PManifestEmpty ;;; sys_exit 0
         | _ :: _ =>
             entries <- (if opt_truthy (args_course_id a) then
                           let cid := match args_course_id a with
                                      | Some c => c | None => [] end in
                           kept <- lift (filter_course entries cid) ;;
                           match kept with
                           | [] => print (PNoVariantsFor cid) ;;; sys_exit 1
                           | _ :: _ => ret kept
                           end
                         else ret entries) ;;
             courses <- lift (group_by_course entries) ;;
             print (PUploading (length entries) (length courses)) ;;;
             for_each courses
               (main_course a token
                  (parent (parent (Path_of (args_manifest a))))) ;;;
             print PAllDone ;;;
             print (POpenMoodle (args_url a))
         end) w2.
Proof.
  intros Hget Htok Hver. unfold main.
  rewrite (bind_ok _ _ w (patch_defaults a w) tt eq_refl).
  rewrite (bind_ok _ _ _ _ _ Htok), Hget.
  rewrite (bind_ok _ _ _ _ _ Hver). reflexivity.
Qed.

(** C4. Once the token is resolved and validated, a missing ledger file
    ends the run with exit code 1 after printing the guidance, while a
    ledger file that parses to null or to an empty list loads as the empty
    sequence and ends the run with exit code 0; in both cases no HTTP
    exchange follows the token validation. *)
Theorem ledger_missing_or_empty (a : args) (w w1 w2 : world) (token : str) :
  args_get_token a = false ->
  main_token_resolution a (patch_defaults a w) = (Ok token, w1) ->
  main_verify_token a token w1 = (Ok tt, w2) ->
  let manifest_path := Path_of (args_manifest a) in
  let out := fst (main a w) in
  let after := events_since w2 (snd (main a w)) in
  (fs_exists (fs w2) manifest_path = false ->
     out = Exit 1 /\ exit_code out = 1%Z
     /\ after = [ EvStat manifest_path;
                  EvPrint (PNoManifest manifest_path);
                  EvPrint PGenerateFirst ]
     /\ filter is_http after = [])
  /\ (forall t data,
         fs_exists (fs w2) manifest_path = true ->
         fs_read_text (fs w2) manifest_path = Some t ->
         yaml_safe_load t = Some data ->
         data = VNone \/ data = VList [] ->
         fst (load_manifest manifest_path w2) = Ok []
         /\ out = Exit 0 /\ exit_code out = 0%Z
         /\ after = [ EvStat manifest_path; EvRead manifest_path;
                      EvPrint PManifestEmpty ]
         /\ filter is_http after = []).
Proof.
  intros Hget Htok Hver mp out after. subst out after.
  rewrite (main_from_ledger a w w1 w2 token Hget Htok Hver). fold mp.
  split.
  - intros Hex.
    assert (Hload : load_manifest mp w2
              = (Exit 1, mkWorld (fs w2) (remote w2) (clock w2) (next_session w2)
                           (DEFAULT_USER w2) (DEFAULT_PASS w2)
                           (trace w2 ++ [ EvStat mp; EvPrint (PNoManifest mp);
                                          EvPrint PGenerateFirst ]))).
    { unfold load_manifest, path_exists, bind, emit, print, emit, sys_exit.
      simpl. rewrite Hex. simpl. now rewrite <- !app_assoc. }
    rewrite (bind_exit _ _ _ _ _ Hload). simpl fst. simpl snd.
    rewrite events_since_mk.
    repeat split; reflexivity.
  - intros t data Hex Hread Hyaml Hdata.
    assert (Hload : load_manifest mp w2
              = (Ok [], mkWorld (fs w2) (remote w2) (clock w2) (next_session w2)
                          (DEFAULT_USER w2) (DEFAULT_PASS w2)
                          (trace w2 ++ [ EvStat mp; EvRead mp ]))).
    { unfold load_manifest, path_exists, read_text, yaml_load, bind, emit, ret.
      simpl. rewrite Hex. simpl. rewrite Hread. simpl. rewrite Hyaml.
      rewrite <- !app_assoc. destruct Hdata as [-> | ->]; reflexivity. }
    rewrite Hload, (bind_ok _ _ _ _ _ Hload). simpl fst at 1.
    unfold bind, print, emit, sys_exit. simpl fst. simpl snd.
    rewrite <- app_assoc, events_since_mk.
    repeat split; reflexivity.
Qed.

End Ledger.

Lemma ledger_missing_or_empty_witness :
  let a := Demo.cli (Some Demo.VALID_TOKEN) false in
  let empty_ledger := [(Demo.path_of (lit "variants/manifest.yaml"), [])] in
  fst (@main Demo.platform a (Demo.world0 [])) = Exit 1
  /\ fst (@main Demo.platform a (Demo.world0 empty_ledger)) = Exit 0.
Proof.
  intros a empty_ledger. split.
  - pose (w := Demo.world0 []).
    pose (w1 := snd (@main_token_resolution Demo.platform a (patch_defaults a w))).
    pose (w2 := snd (@main_verify_token Demo.platform a Demo.VALID_TOKEN w1)).
    apply (proj1 (@ledger_missing_or_empty Demo.platform a w w1 w2 Demo.VALID_TOKEN
                    eq_refl eq_refl eq_refl)).
    reflexivity.
  - pose (w := Demo.world0 empty_ledger).
    pose (w1 := snd (@main_token_resolution Demo.platform a (patch_defaults a w))).
    pose (w2 := snd (@main_verify_token Demo.platform a Demo.VALID_TOKEN w1)).
    apply (proj2 (@ledger_missing_or_empty Demo.platform a w w1 w2 Demo.VALID_TOKEN
                    eq_refl eq_refl eq_refl) [] VNone); try reflexivity.
    now left.
Defined.

(** ** Page creation *)

Section Pages.

Context {P : Platform}.

Lemma same_local_refl (w : world) : same_local w w.
Proof. now repeat split. Qed.

Lemma same_local_trans (w1 w2 w3 : world) :
  same_local w1 w2 -> same_local w2 w3 -> same_local w1 w3.
Proof.
  intros (A1 & B1 & C1) (A2 & B2 & C2).
  repeat split; congruence.
Qed.

Lemma send_ok (w : world) (session : option nat) (rq : request) :
  transport_ok ->
  exists resp w',
    send session rq w = (Ok resp, w')
    /\ same_local w w'
    /\ next_session w' = next_session w
    /\ trace w' = trace w ++ [EvHttp session rq].
Proof.
  intros Ht. destruct (Ht (remote w) session rq) as (r' & resp & E).
  unfold send. rewrite E. eexists _, _. split; [reflexivity|].
  now repeat split.
Qed.

Lemma create_page_run
    (url : str) (course_id : value) (title html username password : str)
    (w : world) :
  transport_ok ->
  exists w' logintoken sesskey,
    _create_page_resource url course_id title html username password w
    = (Ok tt, w')
    /\ same_local w w'
    /\ next_session w' = S (next_session w)
    /\ trace w' = trace w ++ page_events url (next_session w) course_id title
                               html username password logintoken sesskey.
Proof.
  intros Ht. unfold _create_page_resource.
  rewrite (bind_ok requests_Session _ w _ _ eq_refl).
  set (sid := next_session w).
  set (w0 := mkWorld _ _ _ _ _ _ _).
  unfold session_get, session_post.
  destruct (send_ok w0 (Some sid)
              (mkRequest GET (url ++ lit "/login/index.php") [] []) Ht)
    as (p1 & w1 & E1 & L1 & N1 & T1).
  rewrite (bind_ok _ _ _ _ _ E1).
  destruct (send_ok w1 (Some sid)
              (mkRequest POST (url ++ lit "/login/index.php") []
                 (login_form username password
                    (scraped LOGINTOKEN_PATTERN (text p1)))) Ht)
    as (p2 & w2 & E2 & L2 & N2 & T2).
  rewrite (bind_ok _ _ _ _ _ E2).
  destruct (send_ok w2 (Some sid)
              (mkRequest GET (url ++ lit "/course/modedit.php")
                 (add_page_params course_id) []) Ht)
    as (p3 & w3 & E3 & L3 & N3 & T3).
  rewrite (bind_ok _ _ _ _ _ E3).
  destruct (send_ok w3 (Some sid)
              (mkRequest POST (url ++ lit "/course/modedit.php") []
                 (page_form (scraped SESSKEY_PATTERN (text p3)) course_id
                    title html)) Ht)
    as (p4 & w4 & E4 & L4 & N4 & T4).
  rewrite (bind_ok _ _ _ _ _ E4).
  exists w4, (scraped LOGINTOKEN_PATTERN (text p1)),
         (scraped SESSKEY_PATTERN (text p3)).
  split; [reflexivity|]. split; [|split].
  - apply (same_local_trans w w0); [now repeat split|].
    apply (same_local_trans w0 w1 w4 L1).
    apply (same_local_trans w1 w2 w4 L2).
    apply (same_local_trans w2 w3 w4 L3 L4).
  - rewrite N4, N3, N2, N1. reflexivity.
  - rewrite T4, T3, T2, T1. unfold page_events. subst w0. simpl trace.
    now rewrite <- !app_assoc.
Qed.

End Pages.

Lemma str_eqb_app_l (u a b : str) : str_eqb (u ++ a) (u ++ b) = str_eqb a b.
Proof.
  induction u as [|c u IH]; simpl; [reflexivity|].
  now rewrite N.eqb_refl, IH.
Qed.

Section PageEvents.

Context {P : Platform}.

Lemma page_form_name (sk : str) (cid : value) (t h : str) :
  dict_get (page_form sk cid t h) (lit "name") = Some (VStr t).
Proof. reflexivity. Qed.

Lemma page_form_text (sk : str) (cid : value) (t h : str) :
  dict_get (page_form sk cid t h) (lit "page[text]") = Some (VStr h).
Proof. reflexivity. Qed.

Lemma login_is_not_modedit (url : str) :
  str_eqb (url ++ lit "/login/index.php") (url ++ lit "/course/modedit.php") = false.
Proof. rewrite str_eqb_app_l. reflexivity. Qed.

Lemma modedit_is_not_login (url : str) :
  str_eqb (url ++ lit "/course/modedit.php") (url ++ lit "/login/index.php") = false.
Proof. rewrite str_eqb_app_l. reflexivity. Qed.

Lemma pages_posted_page_events (url : str) (id : nat) (cid : value)
    (t h u p lt sk : str) :
  pages_posted url (page_events url id cid t h u p lt sk) = [(t, h)].
Proof.
  unfold pages_posted, page_events, flat_map, posted_page.
  rewrite login_is_not_modedit, str_eqb_refl, page_form_name, page_form_text.
  reflexivity.
Qed.

Lemma form_steps_page_events (url : str) (id : nat) (cid : value)
    (t h u p lt sk : str) :
  form_steps url (page_events url id cid t h u p lt sk) = page_dialogue id.
Proof.
  unfold form_steps, page_events, flat_map, form_step.
  rewrite modedit_is_not_login, !str_eqb_refl. reflexivity.
Qed.

Lemma skip_warnings_page_events (url : str) (id : nat) (cid : value)
    (t h u p lt sk : str) :
  skip_warnings (page_events url id cid t h u p lt sk) = [].
Proof. reflexivity. Qed.

End PageEvents.

(** ** Publishing the variants of a module *)

Section Upload.

Context {P : Platform}.

Lemma upload_variant_run
    (url : str) (course_moodle_id module_title : value) (dir : Path)
    (v : value) (w : world) :
  transport_ok ->
  publishable (fs w) dir v ->
  exists w',
    upload_variant url course_moodle_id module_title dir v w = (Ok tt, w')
    /\ published url dir module_title [v] w w'.
Proof.
  intros Ht (d & file & -> & Hfile & Hread).
  set (p := joinpath dir (Path_of file)) in *.
  unfold upload_variant.
  assert (H1 : subscript_str (VDict d) (lit "output_file") = Val (VStr file))
    by (unfold subscript_str; now rewrite Hfile).
  rewrite H1, (bind_ok _ _ _ _ _ (lift_val _ _)).
  change (path_under dir (VStr file)) with (Val p).
  rewrite (bind_ok _ _ _ _ _ (lift_val _ _)).
  rewrite (bind_ok (path_exists p) _ w
             (mkWorld (fs w) (remote w) (clock w) (next_session w)
                      (DEFAULT_USER w) (DEFAULT_PASS w) (trace w ++ [EvStat p]))
             (fs_exists (fs w) p) eq_refl).
  assert (Hpo : page_of (fs w) dir module_title (VDict d)
                = if fs_exists (fs w) p then
                    match fs_read_text (fs w) p with
                    | Some raw => [(page_title_of module_title (VDict d),
                                    md_to_html (strip_front_matter raw))]
                    | None => []
                    end
                  else [])
    by (unfold page_of, variant_file; now rewrite Hfile).
  assert (Hmo : missing_of (fs w) dir (VDict d)
                = if fs_exists (fs w) p then [] else [p])
    by (unfold missing_of, variant_file; now rewrite Hfile).
  unfold published. simpl flat_map. rewrite !app_nil_r, Hpo, Hmo.
  clear Hpo Hmo.
  destruct (fs_exists (fs w) p) eqn:Hex; cbn [negb].
  - destruct (Hread eq_refl) as (raw & Hraw). rewrite Hraw.
    set (w0 := mkWorld _ _ _ _ _ _ _).
    rewrite (bind_ok (read_text p) _ w0
               (mkWorld (fs w) (remote w) (clock w) (next_session w)
                        (DEFAULT_USER w) (DEFAULT_PASS w)
                        ((trace w ++ [EvStat p]) ++ [EvRead p]))
               raw).
    2:{ unfold read_text, bind, emit. subst w0. simpl. now rewrite Hraw. }
    unfold py_get. rewrite !(bind_ok _ _ _ _ _ (lift_val _ _)).
    set (w1 := mkWorld _ _ _ _ _ _ _).
    rewrite (bind_ok (fun w0 : world => (Ok (DEFAULT_USER w0), w0)) _ w1 w1 _ eq_refl).
    rewrite (bind_ok (fun w0 : world => (Ok (DEFAULT_PASS w0), w0)) _ w1 w1 _ eq_refl).
    set (ttl := fmt module_title ++ _).
    destruct (create_page_run url course_moodle_id ttl
                (md_to_html (strip_front_matter raw))
                (DEFAULT_USER w1) (DEFAULT_PASS w1) w1 Ht)
      as (w2 & lt & sk & E2 & L2 & N2 & T2).
    rewrite (bind_ok _ _ _ _ _ E2).
    eexists. split; [reflexivity|].
    destruct L2 as (A & B & C).
    split; [now repeat split|]. split; [simpl; rewrite N2; subst w1; simpl; lia|].
    eexists ([EvStat p; EvRead p]
               ++ page_events url (next_session w) course_moodle_id ttl
                    (md_to_html (strip_front_matter raw))
                    (DEFAULT_USER w1) (DEFAULT_PASS w1) lt sk
               ++ [EvPrint (PUploaded ttl)]).
    split; [|split; [|split]].
    + simpl trace. rewrite T2. subst w1. simpl trace. simpl next_session.
      now rewrite <- !app_assoc.
    + unfold pages_posted. rewrite !flat_map_app.
      fold (pages_posted url (page_events url (next_session w) course_moodle_id ttl
              (md_to_html (strip_front_matter raw))
              (DEFAULT_USER w1) (DEFAULT_PASS w1) lt sk)).
      rewrite pages_posted_page_events. reflexivity.
    + unfold skip_warnings. rewrite !flat_map_app. reflexivity.
    + unfold form_steps. rewrite !flat_map_app.
      fold (form_steps url (page_events url (next_session w) course_moodle_id ttl
              (md_to_html (strip_front_matter raw))
              (DEFAULT_USER w1) (DEFAULT_PASS w1) lt sk)).
      rewrite form_steps_page_events. simpl. rewrite ?app_nil_r. reflexivity.
  - eexists. split; [reflexivity|].
    split; [now repeat split|]. split; [simpl; lia|].
    exists [EvStat p; EvPrint (PVariantMissing p)].
    split; [simpl; now rewrite <- app_assoc|]. now repeat split.
Qed.

End Upload.

Section UploadLoop.

Context {P : Platform}.

Lemma published_nil (url : str) (dir : Path) (mt : value) (w : world) :
  published url dir mt [] w w.
Proof.
  unfold published. simpl. split; [apply same_local_refl|].
  split; [lia|]. exists []. rewrite app_nil_r. now repeat split.
Qed.

Lemma published_app (url : str) (dir : Path) (mt : value)
    (vs1 vs2 : list value) (w w1 w2 : world) :
  published url dir mt vs1 w w1 ->
  published url dir mt vs2 w1 w2 ->
  published url dir mt (vs1 ++ vs2) w w2.
Proof.
  unfold published.
  intros (L1 & N1 & e1 & T1 & Pg1 & Sk1 & St1) (L2 & N2 & e2 & T2 & Pg2 & Sk2 & St2).
  pose proof L1 as (Hfs & _). rewrite Hfs in *.
  rewrite !flat_map_app, length_app.
  split; [apply (same_local_trans w w1 w2 L1 L2)|].
  split; [lia|].
  exists (e1 ++ e2). split; [now rewrite T2, T1, app_assoc|].
  unfold pages_posted, skip_warnings, form_steps in *.
  rewrite !flat_map_app, Pg1, Pg2, Sk1, Sk2, St1, St2, seq_app, flat_map_app, N1.
  now repeat split.
Qed.

Lemma upload_loop_run
    (url : str) (course_moodle_id module_title : value) (dir : Path)
    (variants : list value) (w : world) :
  transport_ok ->
  Forall (publishable (fs w) dir) variants ->
  exists w',
    for_each variants (upload_variant url course_moodle_id module_title dir) w
    = (Ok tt, w')
    /\ published url dir module_title variants w w'.
Proof.
  intros Ht. revert w. induction variants as [|v rest IH]; intros w Hall.
  - exists w. split; [reflexivity | apply published_nil].
  - inversion Hall as [|? ? Hv Hrest]; subst.
    destruct (upload_variant_run url course_moodle_id module_title dir v w Ht Hv)
      as (w1 & E1 & P1).
    pose proof P1 as ((Hfs & _) & _).
    rewrite <- Hfs in Hrest.
    destruct (IH w1 Hrest) as (w2 & E2 & P2).
    exists w2. simpl for_each. rewrite (bind_ok _ _ _ _ _ E1).
    split; [exact E2|].
    apply (published_app url dir module_title [v] rest w w1 w2 P1 P2).
Qed.

(** A line that is not a skip warning leaves the summaries alone. *)
Lemma published_print_before (url : str) (dir : Path) (mt : value)
    (vs : list value) (w w' : world) (l : line) :
  skip_warning (EvPrint l) = [] ->
  published url dir mt vs
    (mkWorld (fs w) (remote w) (clock w) (next_session w)
             (DEFAULT_USER w) (DEFAULT_PASS w) (trace w ++ [EvPrint l])) w' ->
  published url dir mt vs w w'.
Proof.
  unfold published. simpl. intros Hl (L & N & evs & T & Pg & Sk & St).
  split; [exact L|]. split; [exact N|].
  exists (EvPrint l :: evs). split; [now rewrite T, <- app_assoc|].
  unfold pages_posted, skip_warnings, form_steps in *. simpl.
  rewrite Hl, Pg, Sk, St. now repeat split.
Qed.

Lemma published_print_after (url : str) (dir : Path) (mt : value)
    (vs : list value) (w w' : world) (l : line) :
  skip_warning (EvPrint l) = [] ->
  published url dir mt vs w w' ->
  published url dir mt vs w
    (mkWorld (fs w') (remote w') (clock w') (next_session w')
             (DEFAULT_USER w') (DEFAULT_PASS w') (trace w' ++ [EvPrint l])).
Proof.
  unfold published. simpl. intros Hl (L & N & evs & T & Pg & Sk & St).
  split; [exact L|]. split; [exact N|].
  exists (evs ++ [EvPrint l]). split; [now rewrite T, <- app_assoc|].
  unfold pages_posted, skip_warnings, form_steps in *.
  rewrite !flat_map_app. simpl. rewrite Hl, Pg, Sk, St, !app_nil_r.
  now repeat split.
Qed.

Lemma upload_variants_to_book_run
    (url token : str) (course_moodle_id module_title : value)
    (variants : list value) (dir : Path) (w : world) :
  transport_ok ->
  Forall (publishable (fs w) dir) variants ->
  exists w',
    upload_variants_to_book url token course_moodle_id module_title variants dir w
    = (Ok tt, w')
    /\ published url dir module_title variants w w'.
Proof.
  intros Ht Hall. unfold upload_variants_to_book.
  set (w0 := mkWorld (fs w) (remote w) (clock w) (next_session w)
                     (DEFAULT_USER w) (DEFAULT_PASS w)
                     (trace w ++ [EvPrint (PModule module_title (length variants))])).
  rewrite (bind_ok (print _) _ w w0 tt eq_refl).
  destruct (upload_loop_run url course_moodle_id module_title dir variants w0 Ht Hall)
    as (w1 & E1 & P1).
  rewrite (bind_ok _ _ _ _ _ E1).
  eexists. split; [reflexivity|].
  apply published_print_after; [reflexivity|].
  apply published_print_before with (l := PModule module_title (length variants));
    [reflexivity | exact P1].
Qed.

End UploadLoop.

Section SessionClaim.

Context {P : Platform}.

Lemma count_dialogues (s n : nat) :
  count_steps is_open_session (flat_map page_dialogue (seq s n)) = n
  /\ count_steps is_submit_login (flat_map page_dialogue (seq s n)) = n
  /\ count_steps is_submit_page (flat_map page_dialogue (seq s n)) = n.
Proof.
  revert s. induction n as [|n IH]; intros s; [now repeat split|].
  destruct (IH (S s)) as (A & B & C).
  unfold count_steps in *. simpl. rewrite A, B, C. now repeat split.
Qed.

(** C2, as the code has it.  Publishing a module opens one fresh session
    per page it creates and runs the whole login sequence in it before that
    page's submission: with [n] variant files on disk the web-form dialogue
    is [n] times "open session, fetch login page, submit login, fetch the
    add-page form, submit the page", in sessions numbered consecutively; so
    [n] sessions and [n] logins for [n] pages. *)
Theorem one_login_per_page
    (url token : str) (course_moodle_id module_title : value)
    (variants : list value) (dir : Path) (w : world) :
  transport_ok ->
  Forall (publishable (fs w) dir) variants ->
  let w' := snd (upload_variants_to_book url token course_moodle_id
                   module_title variants dir w) in
  let steps := form_steps url (events_since w w') in
  let n := length (flat_map (page_of (fs w) dir module_title) variants) in
  steps = flat_map page_dialogue (seq (next_session w) n)
  /\ count_steps is_open_session steps = n
  /\ count_steps is_submit_login steps = n
  /\ count_steps is_submit_page steps = n.
Proof.
  intros Ht Hall w' steps n. subst w' steps n.
  destruct (upload_variants_to_book_run url token course_moodle_id module_title
              variants dir w Ht Hall)
    as (w1 & E & _ & _ & evs & T & _ & _ & St).
  rewrite E. simpl snd. rewrite (events_since_app _ _ _ T), St.
  split; [reflexivity | apply count_dialogues].
Qed.

End SessionClaim.

Lemma demo_transport_ok : @transport_ok Demo.platform.
Proof.
  intros r session rq. simpl. unfold Demo.serve.
  destruct (dict_get (req_data rq) (lit "wsfunction")) as [fn|];
    [|eexists _, _; reflexivity].
  destruct (negb _); [eexists _, _; reflexivity|].
  repeat (destruct (eq_str fn _); [eexists _, _; reflexivity|]).
  eexists _, _; reflexivity.
Qed.

Lemma demo_ledger_publishable :
  Forall (@publishable Demo.platform Demo.disk []) Demo.ledger3.
Proof.
  repeat constructor;
    (eexists _, _; split; [reflexivity|]; split; [reflexivity|];
     intros H; first [discriminate H | eexists; reflexivity]).
Qed.

Lemma one_login_per_page_witness :
  let url := lit "http://localhost:8080" in
  let w := Demo.world0 Demo.disk in
  let w' := snd (@upload_variants_to_book Demo.platform url Demo.VALID_TOKEN
                   (VInt 5) (VStr (lit "Concepts")) Demo.ledger3 [] w) in
  count_steps is_open_session (form_steps url (events_since w w')) = 2%nat
  /\ count_steps is_submit_login (form_steps url (events_since w w')) = 2%nat
  /\ count_steps is_submit_page (form_steps url (events_since w w')) = 2%nat.
Proof.
  intros url w w'.
  apply (@one_login_per_page Demo.platform url Demo.VALID_TOKEN (VInt 5)
           (VStr (lit "Concepts")) Demo.ledger3 [] w
           demo_transport_ok demo_ledger_publishable).
Defined.

(** C2 fails as stated: a run that publishes two pages opens two sessions
    and logs in twice. *)
Lemma publish_run_logs_in_per_page :
  ~ (forall (a : args) (w : @world Demo.platform),
        let steps := form_steps (args_url a) (trace (snd (main a w))) in
        (count_steps is_open_session steps <= 1)%nat
        /\ (count_steps is_submit_login steps <= 1)%nat).
Proof.
  intros H.
  specialize (H (Demo.cli (Some Demo.VALID_TOKEN) false) (Demo.world0 Demo.disk)).
  vm_compute in H. destruct H as [H _]. lia.
Qed.

(** ** The run as a whole *)

Section GroupingKeeps.

Context {P : Platform}.
Variable Q : value -> Prop.

Lemma modules_append_all (mods : list (value * list value)) (k e : value) :
  (forall m vs, In (m, vs) mods -> Forall Q vs) -> Q e ->
  forall m vs, In (m, vs) (modules_append mods k e) -> Forall Q vs.
Proof.
  induction mods as [|[k0 es] mods IH]; simpl; intros Hall He m vs.
  - intros [Heq | []]. injection Heq as <- <-. now constructor.
  - destruct (key_eqb k0 k); simpl.
    + intros [Heq | Hin].
      * injection Heq as <- <-. apply Forall_app. split.
        -- apply (Hall k0 es). now left.
        -- now constructor.
      * apply (Hall m vs). now right.
    + intros [Heq | Hin].
      * injection Heq as <- <-. apply (Hall k0 es). now left.
      * apply (IH (fun m' vs' H' => Hall m' vs' (or_intror H')) He m vs Hin).
Qed.

Lemma courses_append_all (courses : list (str * course)) (cid : str) (k e : value) :
  courses_all Q courses -> Q e ->
  courses_all Q (courses_append courses cid k e).
Proof.
  unfold courses_all.
  induction courses as [|[k0 c0] courses IH]; simpl; intros Hall He key c m vs;
    [tauto|].
  destruct (str_eqb k0 cid); simpl.
  - intros [Heq | Hin] Hm.
    + injection Heq as <- <-. simpl in Hm.
      apply (modules_append_all (modules c0) k e
               (fun m' vs' H' => Hall k0 c0 m' vs' (or_introl eq_refl) H') He m vs Hm).
    + apply (Hall key c m vs (or_intror Hin) Hm).
  - intros [Heq | Hin] Hm.
    + injection Heq as <- <-. apply (Hall k0 c0 m vs (or_introl eq_refl) Hm).
    + apply (IH (fun key' c' m' vs' H' => Hall key' c' m' vs' (or_intror H')) He
               key c m vs Hin Hm).
Qed.

Lemma courses_all_new (courses : list (str * course)) (cid ttl : str) :
  courses_all Q courses -> courses_all Q (courses ++ [(cid, mkCourse ttl [])]).
Proof.
  intros Hall key c m vs Hin Hm. apply in_app_or in Hin as [Hin | [Heq | []]].
  - apply (Hall key c m vs Hin Hm).
  - injection Heq as <- <-. destruct Hm.
Qed.

Lemma group_entry_all (courses courses' : list (str * course)) (e : value) :
  group_entry courses e = Val courses' ->
  courses_all Q courses -> Q e -> courses_all Q courses'.
Proof.
  unfold group_entry. intros Hrun Hall He.
  destruct (py_get e (lit "course_id") (VStr (lit "mtat-preview"))) as [cv|];
    simpl in Hrun; [|discriminate].
  destruct (hashable cv); simpl in Hrun; [|discriminate].
  destruct cv as [| | |cid| |]; try discriminate.
  destruct (py_get e (lit "module_path") (VStr (lit "unknown"))) as [fb|];
    simpl in Hrun; [|discriminate].
  destruct (py_get e (lit "module_id") fb) as [mid|]; simpl in Hrun; [|discriminate].
  destruct (hashable mid); simpl in Hrun; [|discriminate].
  injection Hrun as <-. apply courses_append_all; [|exact He].
  destruct (negb (courses_contains courses cid)); [|exact Hall].
  now apply courses_all_new.
Qed.

Lemma group_loop_all (entries : list value) (courses courses' : list (str * course)) :
  group_loop courses entries = Val courses' ->
  courses_all Q courses -> Forall Q entries -> courses_all Q courses'.
Proof.
  revert courses. induction entries as [|e entries IH]; simpl; intros courses Hrun Hall HQ.
  - now injection Hrun as <-.
  - inversion HQ as [|? ? He Hrest]; subst.
    destruct (group_entry courses e) as [c1|] eqn:E; simpl in Hrun; [|discriminate].
    apply (IH c1 Hrun); [|exact Hrest].
    apply (group_entry_all courses c1 e E Hall He).
Qed.

Lemma group_by_course_all (entries : list value) (courses : list (str * course)) :
  group_by_course entries = Val courses -> Forall Q entries -> courses_all Q courses.
Proof.
  intros Hrun HQ. apply (group_loop_all entries [] courses Hrun); [|exact HQ].
  intros key c m vs [].
Qed.

End GroupingKeeps.

Section KeepsFiles.

Context {P : Platform}.

Lemma keeps_files_ret {A} (a : A) : keeps_files (ret a).
Proof. intros w. reflexivity. Qed.

Lemma keeps_files_raise {A} (e : exn) : keeps_files (@raise P A e).
Proof. intros w. reflexivity. Qed.

Lemma keeps_files_lift {A} (r : res A) : keeps_files (lift r).
Proof. destruct r; intros w; reflexivity. Qed.

Lemma keeps_files_print (l : line) : keeps_files (print l).
Proof. intros w. reflexivity. Qed.

Lemma keeps_files_bind {A B} (m : M A) (k : A -> M B) :
  keeps_files m -> (forall a, keeps_files (k a)) -> keeps_files (bind m k).
Proof.
  intros Hm Hk w. specialize (Hm w). unfold bind.
  destruct (m w) as [[a | e | c] w1]; simpl in *; [|exact Hm|exact Hm].
  now rewrite (Hk a w1).
Qed.

Lemma keeps_files_api (url token function : str) (params : dict) :
  keeps_files (api url token function params).
Proof. intros w. apply api_trace. Qed.

Lemma keeps_files_ensure_course (url token cid ttl : str) :
  keeps_files (ensure_course url token cid ttl).
Proof.
  unfold ensure_course.
  apply keeps_files_bind; [apply keeps_files_api|]. intros existing.
  apply keeps_files_bind; [apply keeps_files_lift|]. intros courses.
  destruct (truthy courses).
  - apply keeps_files_bind; [apply keeps_files_lift|]. intros c0.
    apply keeps_files_bind; [apply keeps_files_lift|]. intros mid.
    apply keeps_files_bind; [apply keeps_files_print|]. intros _.
    apply keeps_files_ret.
  - apply keeps_files_bind; [apply keeps_files_api|]. intros created.
    apply keeps_files_bind; [apply keeps_files_lift|]. intros c0.
    apply keeps_files_bind; [apply keeps_files_lift|]. intros mid.
    apply keeps_files_bind; [apply keeps_files_print|]. intros _.
    apply keeps_files_ret.
Qed.

(** With the course service in working order [ensure_course] returns. *)
Lemma ensure_course_returns (url token cid ttl : str) (w : world) :
  courses_service url token ->
  exists id w',
    ensure_course url token cid ttl w = (Ok id, w') /\ fs w' = fs w.
Proof.
  intros [Hlook Hcreate].
  destruct (Hlook cid (remote w))
    as (r1 & resp & data & Hsend & Hok & Hjson & d & -> & Hexc & Hshape).
  assert (Hl : lookup_answer url token cid w r1 d)
    by (exists resp; now repeat split).
  pose proof (keeps_files_ensure_course url token cid ttl w) as Hfs.
  destruct Hshape as [Hnone | [Hnil | (c & rest & id & Hc & Hid)]].
  - destruct (ensure_course_absent url token cid ttl w r1 d Hl (or_introl Hnone))
      as (w1 & Hr1 & _ & Hrun).
    destruct (Hcreate cid ttl (remote w1))
      as (r2 & resp2 & data2 & Hsend2 & Hok2 & Hjson2 & c & rest & id & -> & Hid).
    rewrite Hrun in *. unfold bind at 1 in Hfs. unfold bind at 1.
    unfold create_request in Hsend2.
    rewrite (api_run _ _ _ _ _ _ _ _ Hsend2 Hok2 Hjson2) in *.
    change (subscript_0 (VList (VDict c :: rest))) with (Val (VDict c)) in *.
    rewrite (bind_ok _ _ _ _ _ (lift_val _ _)) in *.
    assert (Hs : subscript_str (VDict c) (lit "id") = Val id)
      by (unfold subscript_str; now rewrite Hid).
    rewrite Hs, (bind_ok _ _ _ _ _ (lift_val _ _)) in *.
    eexists _, _. split; [reflexivity | exact Hfs].
  - destruct (ensure_course_absent url token cid ttl w r1 d Hl (or_intror Hnil))
      as (w1 & Hr1 & _ & Hrun).
    destruct (Hcreate cid ttl (remote w1))
      as (r2 & resp2 & data2 & Hsend2 & Hok2 & Hjson2 & c & rest & id & -> & Hid).
    rewrite Hrun in *. unfold bind at 1 in Hfs. unfold bind at 1.
    unfold create_request in Hsend2.
    rewrite (api_run _ _ _ _ _ _ _ _ Hsend2 Hok2 Hjson2) in *.
    change (subscript_0 (VList (VDict c :: rest))) with (Val (VDict c)) in *.
    rewrite (bind_ok _ _ _ _ _ (lift_val _ _)) in *.
    assert (Hs : subscript_str (VDict c) (lit "id") = Val id)
      by (unfold subscript_str; now rewrite Hid).
    rewrite Hs, (bind_ok _ _ _ _ _ (lift_val _ _)) in *.
    eexists _, _. split; [reflexivity | exact Hfs].
  - destruct (ensure_course_present url token cid ttl w r1 d c rest id Hl Hc Hid)
      as (w' & Hrun & _ & _).
    rewrite Hrun in Hfs. exists id, w'. split; [exact Hrun | exact Hfs].
Qed.

Lemma for_each_returns {A} (l : list A) (body : A -> M unit) (f0 : FS) :
  (forall x w, In x l -> fs w = f0 ->
               exists w', body x w = (Ok tt, w') /\ fs w' = f0) ->
  forall w, fs w = f0 ->
            exists w', for_each l body w = (Ok tt, w') /\ fs w' = f0.
Proof.
  induction l as [|x l IH]; intros Hbody w Hw.
  - exists w. now split.
  - destruct (Hbody x w (or_introl eq_refl) Hw) as (w1 & E1 & F1).
    destruct (IH (fun y w0 Hy => Hbody y w0 (or_intror Hy)) w1 F1) as (w2 & E2 & F2).
    exists w2. simpl. rewrite (bind_ok _ _ _ _ _ E1). now split.
Qed.

End KeepsFiles.

Section WholeRun.

Context {P : Platform}.

Lemma ledger_entries_publishable (f : FS) (dir : Path) (vs : list value) :
  Forall (ledger_entry_ok f dir) vs -> Forall (publishable f dir) vs.
Proof. apply Forall_impl. intros e (_ & H & _). exact H. Qed.

Lemma main_module_returns (a : args) (token : str) (dir : Path)
    (moodle_course_id : value) (m : value * list value) (w : world) :
  transport_ok ->
  Forall (ledger_entry_ok (fs w) dir) (snd m) ->
  exists w', main_module a token dir moodle_course_id m w = (Ok tt, w')
             /\ fs w' = fs w.
Proof.
  intros Ht Hall. destruct m as [module_id variants]. simpl in Hall.
  unfold main_module.
  assert (Htitle : exists ttl w0,
             match variants with
             | [] => ret module_id
             | v0 :: _ =>
                 mp <- lift (py_get v0 (lit "module_path") (VStr [])) ;;
                 meta_dir <- lift (path_under dir mp) ;;
                 let meta_file := joinpath meta_dir (Path_of (lit "metadata.yaml")) in
                 found <- path_exists meta_file ;;
                 if found then
                   t <- read_text meta_file ;;
                   meta <- yaml_load t ;;
                   lift (py_get meta (lit "title") module_id)
                 else ret module_id
             end w = (Ok ttl, w0) /\ fs w0 = fs w).
  { destruct variants as [|v0 rest]; [exists module_id, w; now split|].
    inversion Hall as [|? ? (_ & _ & d & s & -> & Hmp & Hmeta) _]; subst.
    unfold py_get. rewrite Hmp, (bind_ok _ _ _ _ _ (lift_val _ _)).
    change (path_under dir (VStr s)) with (Val (joinpath dir (Path_of s))).
    rewrite (bind_ok _ _ _ _ _ (lift_val _ _)). cbv zeta.
    set (mf := joinpath (joinpath dir (Path_of s)) (Path_of (lit "metadata.yaml"))) in *.
    rewrite (bind_ok (path_exists mf) _ w
               (mkWorld (fs w) (remote w) (clock w) (next_session w)
                        (DEFAULT_USER w) (DEFAULT_PASS w) (trace w ++ [EvStat mf]))
               (fs_exists (fs w) mf) eq_refl).
    destruct (fs_exists (fs w) mf) eqn:Hex.
    - destruct (Hmeta Hex) as (t & md & Hread & Hyaml).
      set (w0 := mkWorld _ _ _ _ _ _ _).
      rewrite (bind_ok (read_text mf) _ w0
                 (mkWorld (fs w) (remote w) (clock w) (next_session w)
                          (DEFAULT_USER w) (DEFAULT_PASS w)
                          ((trace w ++ [EvStat mf]) ++ [EvRead mf]))
                 t).
      2:{ unfold read_text, bind, emit. subst w0. simpl. now rewrite Hread. }
      unfold yaml_load. rewrite Hyaml.
      rewrite (bind_ok _ _ _ _ _ (eq_refl : ret (VDict md) _ = (Ok (VDict md), _))).
      eexists _, _. split; reflexivity.
    - eexists _, _. split; reflexivity. }
  destruct Htitle as (ttl & w0 & E0 & F0).
  rewrite (bind_ok _ _ _ _ _ E0).
  rewrite <- F0 in Hall.
  destruct (upload_variants_to_book_run (args_url a) token moodle_course_id ttl
              variants dir w0 Ht (ledger_entries_publishable _ _ _ Hall))
    as (w1 & E1 & (F1 & _) & _).
  exists w1. split; [exact E1 | congruence].
Qed.

Lemma main_course_returns (a : args) (token : str) (dir : Path)
    (c : str * course) (w : world) :
  transport_ok ->
  courses_service (args_url a) token ->
  (forall m vs, In (m, vs) (modules (snd c)) ->
                Forall (ledger_entry_ok (fs w) dir) vs) ->
  exists w', main_course a token dir c w = (Ok tt, w') /\ fs w' = fs w.
Proof.
  intros Ht Hsvc Hall. destruct c as [course_id course_data]. simpl in Hall.
  unfold main_course.
  set (w0 := mkWorld (fs w) (remote w) (clock w) (next_session w)
                     (DEFAULT_USER w) (DEFAULT_PASS w)
                     (trace w ++ [EvPrint (PCourse (title course_data) course_id)])).
  rewrite (bind_ok (print _) _ w w0 tt eq_refl).
  destruct (ensure_course_returns (args_url a) token course_id (title course_data)
              w0 Hsvc) as (id & w1 & E1 & F1).
  rewrite (bind_ok _ _ _ _ _ E1).
  apply for_each_returns; [|exact F1].
  intros [m vs] w2 Hin F2.
  rewrite <- F2 in Hall. rewrite <- F2.
  exact (main_module_returns a token dir id (m, vs) w2 Ht (Hall m vs Hin)).
Qed.

(** A run whose token checks out, whose ledger loads, and whose entries are
    well formed returns, whichever variant files are missing. *)
Lemma main_returns (a : args) (w w1 w2 : world) (token t : str)
    (entries : list value) :
  args_get_token a = false ->
  opt_truthy (args_course_id a) = false ->
  main_token_resolution a (patch_defaults a w) = (Ok token, w1) ->
  main_verify_token a token w1 = (Ok tt, w2) ->
  transport_ok ->
  courses_service (args_url a) token ->
  let manifest_path := Path_of (args_manifest a) in
  fs_exists (fs w2) manifest_path = true ->
  fs_read_text (fs w2) manifest_path = Some t ->
  yaml_safe_load t = Some (VList entries) ->
  Forall (ledger_entry_ok (fs w2) (parent (parent manifest_path))) entries ->
  exit_code (fst (main a w)) = 0%Z.
Proof.
  intros Hget Hcid Htok Hver Ht Hsvc mp Hex Hread Hyaml Hall.
  rewrite (main_from_ledger a w w1 w2 token Hget Htok Hver). fold mp.
  set (w3 := mkWorld (fs w2) (remote w2) (clock w2) (next_session w2)
                     (DEFAULT_USER w2) (DEFAULT_PASS w2)
                     (trace w2 ++ [ EvStat mp; EvRead mp ])).
  assert (Hload : load_manifest mp w2 = (Ok entries, w3)).
  { unfold load_manifest, path_exists, read_text, yaml_load, bind, emit, ret.
    simpl. rewrite Hex. simpl. rewrite Hread. simpl. rewrite Hyaml.
    subst w3. now rewrite <- !app_assoc. }
  rewrite (bind_ok _ _ _ _ _ Hload).
  destruct entries as [|e0 rest].
  - reflexivity.
  - rewrite Hcid.
    rewrite (bind_ok _ _ _ _ _ (eq_refl : ret (e0 :: rest) w3 = (Ok (e0 :: rest), w3))).
    destruct (group_loop_files (e0 :: rest) []) as (courses & Hgroup & _).
    { revert Hall. apply Forall_impl. intros e (H & _). exact H. }
    { intros key c []. }
    change (group_loop [] (e0 :: rest)) with (group_by_course (e0 :: rest)) in Hgroup.
    rewrite Hgroup, (bind_ok _ _ _ _ _ (lift_val _ _)).
    pose proof (group_by_course_all _ (e0 :: rest) courses Hgroup Hall) as Hcs.
    set (w4 := mkWorld (fs w3) (remote w3) (clock w3) (next_session w3)
                       (DEFAULT_USER w3) (DEFAULT_PASS w3)
                       (trace w3 ++ [EvPrint (PUploading (length (e0 :: rest))
                                                (length courses))])).
    rewrite (bind_ok (print _) _ w3 w4 tt eq_refl).
    destruct (for_each_returns courses
                (main_course a token (parent (parent mp))) (fs w2)) with (w := w4)
      as (w5 & E5 & _).
    + intros c w0 Hin F0. rewrite <- F0.
      apply main_course_returns; [exact Ht | exact Hsvc|].
      intros m vs Hm. rewrite F0. destruct c as [key cd].
      exact (Hcs key cd m vs Hin Hm).
    + reflexivity.
    + rewrite (bind_ok _ _ _ _ _ E5). reflexivity.
Qed.

End WholeRun.

Section MissingVariant.

Context {P : Platform}.

(** C5. A missing variant file is not fatal.  [upload_variants_to_book]
    returns normally; the pages it submits are those of the entries whose
    file is on disk, in ledger order; every entry whose file is missing gets
    a warning and no page.  And a run whose token checks out and whose
    ledger is well formed ends with exit code 0 whichever variant files are
    missing. *)
Theorem missing_variant_is_not_fatal :
  (forall (url token : str) (course_moodle_id module_title : value)
          (variants : list value) (dir : Path) (w : world),
      transport_ok ->
      Forall (publishable (fs w) dir) variants ->
      let r := upload_variants_to_book url token course_moodle_id module_title
                 variants dir w in
      let evs := events_since w (snd r) in
      fst r = Ok tt
      /\ pages_posted url evs
         = flat_map (page_of (fs w) dir module_title) variants
      /\ skip_warnings evs = flat_map (missing_of (fs w) dir) variants
      /\ (forall v p,
             In v variants -> variant_file dir v = Some p ->
             fs_exists (fs w) p = false ->
             In p (skip_warnings evs)
             /\ page_of (fs w) dir module_title v = []))
  /\ (forall (a : args) (w w1 w2 : world) (token t : str) (entries : list value),
         args_get_token a = false ->
         opt_truthy (args_course_id a) = false ->
         main_token_resolution a (patch_defaults a w) = (Ok token, w1) ->
         main_verify_token a token w1 = (Ok tt, w2) ->
         transport_ok ->
         courses_service (args_url a) token ->
         let manifest_path := Path_of (args_manifest a) in
         fs_exists (fs w2) manifest_path = true ->
         fs_read_text (fs w2) manifest_path = Some t ->
         yaml_safe_load t = Some (VList entries) ->
         Forall (ledger_entry_ok (fs w2) (parent (parent manifest_path))) entries ->
         exit_code (fst (main a w)) = 0%Z).
Proof.
  split.
  - intros url token cid mt variants dir w Ht Hall r evs. subst r evs.
    destruct (upload_variants_to_book_run url token cid mt variants dir w Ht Hall)
      as (w1 & E & _ & _ & evs & T & Pg & Sk & _).
    rewrite E. simpl fst. simpl snd. rewrite (events_since_app _ _ _ T).
    split; [reflexivity|]. split; [exact Pg|]. split; [exact Sk|].
    intros v p Hin Hp Hex. split.
    + rewrite Sk. apply in_flat_map. exists v. split; [exact Hin|].
      unfold missing_of. rewrite Hp, Hex. now left.
    + unfold page_of. now rewrite Hp, Hex.
  - intros a w w1 w2 token t entries. apply main_returns.
Qed.

End MissingVariant.

Lemma demo_courses_service :
  @courses_service Demo.platform (lit "http://localhost:8080") Demo.VALID_TOKEN.
Proof.
  split.
  - intros cid r. simpl.
    destruct (Demo.find_course (Demo.site_courses r) cid) as [id|] eqn:E.
    + eexists r, _, _. split.
      * unfold Demo.serve. cbn. rewrite E. reflexivity.
      * split; [left; simpl; lia|]. split; [reflexivity|].
        eexists. split; [reflexivity|]. split; [reflexivity|].
        right. right. eexists _, _, _. split; reflexivity.
    + eexists r, _, _. split.
      * unfold Demo.serve. cbn. rewrite E. reflexivity.
      * split; [left; simpl; lia|]. split; [reflexivity|].
        eexists. split; [reflexivity|]. split; [reflexivity|].
        right. left. reflexivity.
  - intros cid ttl r. simpl. eexists _, _, _. split.
    + unfold Demo.serve. cbn. reflexivity.
    + split; [left; simpl; lia|]. split; [reflexivity|].
      eexists _, _, _. split; reflexivity.
Qed.

Lemma demo_ledger_ok :
  Forall (@ledger_entry_ok Demo.platform Demo.disk []) Demo.ledger3.
Proof.
  repeat constructor;
    try (eexists; split; [reflexivity | split; [left; reflexivity | reflexivity]]);
    try (eexists _, _; split; [reflexivity|]; split; [reflexivity|];
         intros H; first [discriminate H | eexists; reflexivity]);
    try (eexists _, _; split; [reflexivity|]; split; [reflexivity|];
         intros H; eexists _, _; split; reflexivity).
Qed.

Lemma missing_variant_is_not_fatal_witness :
  let url := lit "http://localhost:8080" in
  let w := Demo.world0 Demo.disk in
  let r := @upload_variants_to_book Demo.platform url Demo.VALID_TOKEN (VInt 5)
             (VStr (lit "Concepts")) Demo.ledger3 [] w in
  (fst r = Ok tt
   /\ map fst (pages_posted url (events_since w (snd r)))
      = [ lit "Concepts [developer / en-US]"; lit "Concepts [champion / en-US]" ]
   /\ skip_warnings (events_since w (snd r))
      = [ Demo.path_of (lit "variants/m1/executive-en-US.md") ])
  /\ exit_code (fst (@main Demo.platform (Demo.cli (Some Demo.VALID_TOKEN) false) w))
     = 0%Z.
Proof.
  intros url w r. split.
  - destruct (proj1 (@missing_variant_is_not_fatal Demo.platform)
                url Demo.VALID_TOKEN (VInt 5) (VStr (lit "Concepts"))
                Demo.ledger3 [] w demo_transport_ok demo_ledger_publishable)
      as (A & B & C & _).
    fold r in A, B, C. rewrite A, B, C. repeat split.
  - pose (a := Demo.cli (Some Demo.VALID_TOKEN) false).
    pose (w1 := snd (@main_token_resolution Demo.platform a (patch_defaults a w))).
    pose (w2 := snd (@main_verify_token Demo.platform a Demo.VALID_TOKEN w1)).
    apply (proj2 (@missing_variant_is_not_fatal Demo.platform)
             a w w1 w2 Demo.VALID_TOKEN (lit "ledger3") Demo.ledger3);
      try reflexivity.
    + exact demo_transport_ok.
    + exact demo_courses_service.
    + exact demo_ledger_ok.
Defined.

(** ** The readiness poll has fuel enough *)

Section Poll.

Context {P : Platform}.

Lemma login_page_ready_clock (url : str) (w : world) :
  (clock w <= clock (snd (login_page_ready url w)))%Z
  /\ exists ready, fst (login_page_ready url w) = Ok ready.
Proof.
  unfold login_page_ready, try_except_when, bind, requests_get, send, ret.
  destruct (http_send _ _ _) as [r' [resp|el]]; simpl.
  - split; [lia | eexists; reflexivity].
  - split; [lia | eexists; reflexivity].
Qed.

Lemma wait_loop_S (fuel : nat) (url : str) (deadline : Z) (w : world) :
  wait_loop (S fuel) url deadline w
  = if (clock w <? deadline)%Z then
      bind (login_page_ready url)
           (fun ready : bool =>
              if ready then print PReady
              else print PDot ;;; time_sleep 5 ;;; wait_loop fuel url deadline) w
    else (Raise TimeoutError, w).
Proof.
  simpl wait_loop. unfold bind at 1, time_time.
  destruct (clock w <? deadline)%Z; reflexivity.
Qed.

(** Once five seconds per remaining pass cover what is left until the
    deadline, more fuel changes nothing: the loop ends by returning or by
    its own [TimeoutError]. *)
Lemma wait_loop_fuel (fuel : nat) (url : str) (deadline : Z) (w : world) :
  (deadline - clock w <= 5000 * Z.of_nat fuel)%Z ->
  wait_loop (S fuel) url deadline w = wait_loop fuel url deadline w.
Proof.
  revert w. induction fuel as [|fuel IH]; intros w H.
  - rewrite wait_loop_S. simpl wait_loop. unfold bind, time_time.
    destruct (clock w <? deadline)%Z eqn:E; [|reflexivity].
    apply Z.ltb_lt in E. lia.
  - rewrite (wait_loop_S (S fuel)), (wait_loop_S fuel).
    destruct (clock w <? deadline)%Z; [|reflexivity].
    destruct (login_page_ready_clock url w) as (Hclock & ready & Hready).
    destruct (login_page_ready url w) as [o w1] eqn:Ep.
    simpl in Hclock, Hready. subst o.
    rewrite !(bind_ok _ _ _ _ _ Ep).
    destruct ready; [reflexivity|].
    unfold bind, print, emit, time_sleep. apply IH. cbn [clock]. lia.
Qed.

(** [wait_for_moodle] starts the loop with fuel enough. *)
Lemma wait_for_moodle_fuel (url : str) (timeout : Z) (w : world) (extra : nat) :
  (0 <= timeout)%Z ->
  let w0 := mkWorld (fs w) (remote w) (clock w) (next_session w)
                    (DEFAULT_USER w) (DEFAULT_PASS w)
                    (trace w ++ [EvPrint (PWaiting url)]) in
  wait_loop (extra + S (Z.to_nat (timeout / 5))) url (clock w + 1000 * timeout) w0
  = wait_for_moodle url timeout w.
Proof.
  intros Hpos w0. induction extra as [|extra IH]; [reflexivity|].
  rewrite <- IH. simpl Nat.add. apply wait_loop_fuel. subst w0. cbn [clock].
  pose proof (Z.mod_pos_bound timeout 5 ltac:(lia)).
  pose proof (Z.div_mod timeout 5 ltac:(lia)).
  assert (0 <= timeout / 5)%Z by (apply Z.div_pos; lia).
  lia.
Qed.

End Poll.

(* ================================================================== *)
(** * Further properties of the code *)
(* ================================================================== *)

(** ** Content transform: what stripping keeps *)

Lemma lstrip_suffix (s : str) :
  exists ws, s = ws ++ lstrip s /\ forallb isspace ws = true.
Proof.
  induction s as [|c s (ws & Hs & Hw)]; simpl.
  - exists []. now split.
  - destruct (isspace c) eqn:E.
    + exists (c :: ws). simpl. rewrite E, Hw. split; [now f_equal | reflexivity].
    + exists []. now split.
Qed.

Lemma lstrip_head (s : str) :
  match lstrip s with [] => True | c :: _ => isspace c = false end.
Proof.
  induction s as [|c s IH]; simpl; [exact I|].
  destruct (isspace c) eqn:E; [exact IH | exact E].
Qed.

(** X1. [strip_front_matter] only ever removes a prefix: the text it
    returns is a suffix of the text it was given, and when a front-matter
    block was there the result does not begin with white space. *)
Theorem strip_front_matter_keeps_body (text : str) :
  (exists removed, text = removed ++ strip_front_matter text)
  /\ (has_front_matter text ->
      match strip_front_matter text with
      | [] => True
      | c :: _ => isspace c = false
      end).
Proof.
  split.
  - unfold strip_front_matter.
    destruct (startswith text fence_open); [|exists []; reflexivity].
    destruct (negb (find text fence_close 3 =? -1)%Z); [|exists []; reflexivity].
    unfold slice_from.
    destruct (lstrip_suffix (skipn (Z.to_nat (find text fence_close 3 + 4)) text))
      as (ws & Hs & _).
    exists (firstn (Z.to_nat (find text fence_close 3 + 4)) text ++ ws).
    rewrite <- app_assoc, <- Hs. symmetry. apply firstn_skipn.
  - intros (pre & post & ->). unfold strip_front_matter.
    assert (E : startswith (fence_open ++ pre ++ fence_close ++ post) fence_open = true)
      by (apply startswith_iff; now eexists).
    rewrite E, find_fence_close.
    pose proof (find_from_present fence_close _ pre post 3%Z eq_refl) as Hr.
    replace (negb (find_from (pre ++ fence_close ++ post) fence_close 3 =? -1)%Z)
      with true by (symmetry; apply negb_true_iff, Z.eqb_neq; lia).
    apply lstrip_head.
Qed.

Lemma strip_front_matter_keeps_body_witness :
  match strip_front_matter
          (join_lines ["---"; "id: x"; "---"; EmptyString; "  Body"]) with
  | [] => True
  | c :: _ => isspace c = false
  end.
Proof.
  apply (proj2 (strip_front_matter_keeps_body
                  (join_lines ["---"; "id: x"; "---"; EmptyString; "  Body"]))).
  exists (LF :: of_ascii "id: x"), (LF :: LF :: of_ascii "  Body"). reflexivity.
Defined.

(** ** Scraping the anti-forgery values *)

Lemma span_noquote_spec (s : str) :
  s = fst (span_noquote s) ++ snd (span_noquote s)
  /\ forallb (fun c => negb (c =? DQUOTE)%N) (fst (span_noquote s)) = true
  /\ match snd (span_noquote s) with [] => True | c :: _ => c = DQUOTE end.
Proof.
  induction s as [|c s (Hs & Hg & Hr)]; simpl; [now repeat split|].
  destruct (c =? DQUOTE)%N eqn:E; simpl.
  - repeat split. now apply N.eqb_eq.
  - destruct (span_noquote s) as [g r]; simpl in *. rewrite E, Hg.
    repeat split; [now f_equal | exact Hr].
Qed.

Lemma span_noquote_unique (g post : str) :
  forallb (fun c => negb (c =? DQUOTE)%N) g = true ->
  span_noquote (g ++ DQUOTE :: post) = (g, DQUOTE :: post).
Proof.
  induction g as [|c g IH]; simpl; intros H.
  - reflexivity.
  - apply andb_true_iff in H as [Hc Hg]. apply negb_true_iff in Hc.
    now rewrite Hc, (IH Hg).
Qed.

Lemma match_quoted_here_iff (prefix s g : str) :
  match_quoted_here prefix s = Some g
  <-> exists post, quoted_at prefix s [] g post.
Proof.
  unfold match_quoted_here, quoted_at. split.
  - destruct (startswith s prefix) eqn:E; [|discriminate].
    apply startswith_iff in E as [t ->].
    rewrite skipn_app, skipn_all, Nat.sub_diag. cbn [skipn app].
    destruct (span_noquote_spec t) as (Ht & Hg & Hr).
    destruct (span_noquote t) as [[|c g0] [|q r]]; simpl in *; try discriminate.
    intros H. injection H as <-. subst q. exists r.
    split; [now rewrite Ht at 1 | split; [discriminate | exact Hg]].
  - intros (post & -> & Hne & Hg). simpl app.
    assert (E : startswith (prefix ++ g ++ DQUOTE :: post) prefix = true)
      by (apply startswith_iff; now eexists).
    rewrite E, skipn_app, skipn_all, Nat.sub_diag. cbn [skipn app].
    rewrite (span_noquote_unique g post Hg).
    destruct g; [congruence | reflexivity].
Qed.

Lemma search_quoted_found (prefix s g : str) :
  search_quoted prefix s = Some g ->
  exists pre post,
    quoted_at prefix s pre g post
    /\ forall pre' g' post',
        quoted_at prefix s pre' g' post' -> (length pre <= length pre')%nat.
Proof.
  induction s as [|c s IH]; simpl.
  - destruct (match_quoted_here prefix []) as [g0|] eqn:E; [|discriminate].
    intros H. injection H as ->. apply match_quoted_here_iff in E as [post Hq].
    exists [], post. split; [exact Hq | intros; simpl; lia].
  - destruct (match_quoted_here prefix (c :: s)) as [g0|] eqn:E.
    + intros H. injection H as ->. apply match_quoted_here_iff in E as [post Hq].
      exists [], post. split; [exact Hq | intros; simpl; lia].
    + intros H. destruct (IH H) as (pre & post & (Hs & Hne & Hg) & Hmin).
      exists (c :: pre), post. split.
      * split; [simpl; now rewrite Hs | now split].
      * intros [|c' pre'] g' post' (Hs' & Hne' & Hg').
        -- assert (Hm : match_quoted_here prefix (c :: s) = Some g')
             by (apply match_quoted_here_iff; exists post'; now split).
           congruence.
        -- simpl in Hs'. injection Hs' as <- Hs'.
           specialize (Hmin pre' g' post' (conj Hs' (conj Hne' Hg'))).
           simpl. lia.
Qed.

Lemma search_quoted_absent (prefix s : str) :
  search_quoted prefix s = None ->
  forall pre g post, ~ quoted_at prefix s pre g post.
Proof.
  induction s as [|c s IH]; simpl.
  - destruct (match_quoted_here prefix []) as [g0|] eqn:E; [discriminate|].
    intros _ pre g post (Hs & Hne & Hg).
    destruct pre; [|discriminate Hs].
    assert (Hm : match_quoted_here prefix [] = Some g)
      by (apply match_quoted_here_iff; exists post; now split).
    congruence.
  - destruct (match_quoted_here prefix (c :: s)) as [g0|] eqn:E; [discriminate|].
    intros H [|c' pre] g post (Hs & Hne & Hg).
    + assert (Hm : match_quoted_here prefix (c :: s) = Some g)
        by (apply match_quoted_here_iff; exists post; now split).
      congruence.
    + simpl in Hs. injection Hs as <- Hs.
      exact (IH H pre g post (conj Hs (conj Hne Hg))).
Qed.

Lemma quoted_at_same_start (prefix s pre g post g' post' : str) :
  quoted_at prefix s pre g post -> quoted_at prefix s pre g' post' -> g = g'.
Proof.
  intros (Hs & _ & Hg) (Hs' & _ & Hg'). rewrite Hs in Hs'.
  apply app_inv_head in Hs'. apply app_inv_head in Hs'.
  pose proof (span_noquote_unique g post Hg) as U.
  rewrite Hs', (span_noquote_unique g' post' Hg') in U. now injection U.
Qed.

Lemma app_same_length {A} (a b c d : list A) :
  a ++ b = c ++ d -> length a = length c -> a = c.
Proof.
  revert c. induction a as [|x a IH]; intros [|y c] H L; simpl in *;
    try discriminate; [reflexivity|].
  injection H as -> H. injection L as L. f_equal. now apply IH.
Qed.

(** X2. The value [_create_page_resource] scrapes from a page is the text
    between the quotes of the leftmost place where the pattern's literal
    part is followed by a non-empty quoted value; it never contains a double
    quote; and it is the empty string exactly when the page has no such
    place (the soft failure: the form is then submitted with an empty
    field). *)
Theorem scraped_value (pattern page : str) :
  (forall pre g post,
      quoted_at pattern page pre g post ->
      (forall pre' g' post',
          quoted_at pattern page pre' g' post' ->
          (length pre <= length pre')%nat) ->
      scraped pattern page = g)
  /\ (scraped pattern page = []
      <-> forall pre g post, ~ quoted_at pattern page pre g post)
  /\ forallb (fun c => negb (c =? DQUOTE)%N) (scraped pattern page) = true.
Proof.
  unfold scraped.
  destruct (search_quoted pattern page) as [g0|] eqn:E.
  - destruct (search_quoted_found pattern page g0 E)
      as (pre0 & post0 & Hq0 & Hmin0).
    split; [|split].
    + intros pre g post Hq Hmin.
      assert (L : length pre0 = length pre).
      { specialize (Hmin0 pre g post Hq). specialize (Hmin pre0 g0 post0 Hq0). lia. }
      pose proof Hq0 as (Hs0 & _). pose proof Hq as (Hs & _).
      rewrite Hs0 in Hs. apply (app_same_length _ _ _ _ Hs) in L. subst pre0.
      exact (quoted_at_same_start _ _ _ _ _ _ _ Hq0 Hq).
    + split.
      * intros ->. now destruct Hq0 as (_ & Hne & _).
      * intros H. destruct (H pre0 g0 post0 Hq0).
    + now destruct Hq0 as (_ & _ & Hg).
  - split; [|split].
    + intros pre g post Hq _.
      destruct (search_quoted_absent pattern page E pre g post Hq).
    + split; [intros _; now apply search_quoted_absent | reflexivity].
    + reflexivity.
Qed.

Lemma scraped_value_witness :
  scraped LOGINTOKEN_PATTERN
    (of_ascii "<form>" ++ LOGINTOKEN_PATTERN ++ of_ascii "LT42" ++ DQUOTE :: of_ascii "/>")
  = of_ascii "LT42".
Proof.
  apply (proj1 (scraped_value LOGINTOKEN_PATTERN
                  (of_ascii "<form>" ++ LOGINTOKEN_PATTERN ++ of_ascii "LT42"
                     ++ DQUOTE :: of_ascii "/>"))
           (of_ascii "<form>") (of_ascii "LT42") (of_ascii "/>")).
  - split; [reflexivity | split; [discriminate | reflexivity]].
  - intros pre' g' post' (Hs & _ & _).
    do 6 (destruct pre' as [|? pre']; [cbv in Hs; discriminate Hs|]).
    simpl. lia.
Defined.

(** ** The REST helper: failure modes *)

Section ApiFailures.

Context {P : Platform}.

(** X3. [api] makes exactly one exchange, whatever happens, and never
    retries.  A transport failure raises [RequestException]; an answer with
    a 4xx/5xx status raises [HTTPError] whatever its body says (an
    [exception] message in the body is not surfaced then); a body that is
    not JSON raises the decode error. *)
Theorem api_failure_modes (url token function : str) (params : dict) (w : world) :
  let rq := rest_request url token function params in
  let run := api url token function params w in
  events_since w (snd run) = [EvHttp None rq]
  /\ (forall r' el,
         http_send (remote w) None rq = (r', Failed el) ->
         fst run = Raise RequestException)
  /\ (forall r' resp,
         http_send (remote w) None rq = (r', Replied resp) ->
         (400 <= status_code resp < 600)%Z ->
         fst run = Raise (HTTPError (status_code resp)))
  /\ (forall r' resp,
         http_send (remote w) None rq = (r', Replied resp) ->
         http_ok resp -> json resp = None ->
         fst run = Raise JSONDecodeError).
Proof.
  intros rq run. subst rq run.
  split; [apply events_since_app, api_trace|].
  unfold api, requests_post, send, bind.
  fold (rest_request url token function params).
  split; [|split].
  - intros r' el ->. reflexivity.
  - intros r' resp -> Hst. simpl. unfold raise_for_status.
    replace ((400 <=? status_code resp)%Z && (status_code resp <? 600)%Z) with true
      by (symmetry; apply andb_true_iff; split; [apply Z.leb_le | apply Z.ltb_lt]; lia).
    reflexivity.
  - intros r' resp -> Hok Hjson. simpl. unfold raise_for_status.
    replace ((400 <=? status_code resp)%Z && (status_code resp <? 600)%Z) with false
      by (symmetry; apply andb_false_iff; unfold http_ok in Hok; lia).
    unfold ret, response_json. now rewrite Hjson.
Qed.

End ApiFailures.

Lemma api_failure_modes_witness :
  let maintenance :=
    Scripted.json_page 503
      (Demo.api_exception "maintenance" "Site is in maintenance") in
  fst (@api Scripted.platform (lit "http://localhost:8080") Demo.VALID_TOKEN
         (lit "core_webservice_get_site_info") []
         (Scripted.start [] [maintenance] []))
  = Raise (HTTPError 503).
Proof.
  intros maintenance.
  apply (proj1 (proj2 (proj2
           (@api_failure_modes Scripted.platform (lit "http://localhost:8080")
              Demo.VALID_TOKEN (lit "core_webservice_get_site_info") []
              (Scripted.start [] [maintenance] []))))
           (Scripted.mkScript [] [])
           (mkResponse 503 []
              (Some (Demo.api_exception "maintenance" "Site is in maintenance")) 20)).
  - reflexivity.
  - simpl. lia.
Defined.

(** ** The course reconciler: when the lookup goes wrong *)

Section EnsureCourseFailures.

Context {P : Platform}.

Lemma lookup_request_only (url token course_id : str) :
  rest_calls (lit "core_course_create_courses")
    [EvHttp None (lookup_request url token course_id)] = 0%nat.
Proof. reflexivity. Qed.

(** X4. [ensure_course] never creates a course on an inconclusive lookup.
    If the lookup exchange fails in any way (transport, HTTP status, bad
    JSON, [exception] answer) that failure is what [ensure_course] raises,
    and if the lookup answers with JSON that is not a mapping it raises
    [AttributeError]; in both cases the lookup is the only exchange made. *)
Theorem ensure_course_inconclusive_lookup
    (url token course_id course_title : str) (w : world) :
  let lookup :=
    api url token (lit "core_course_get_courses_by_field")
        [ (lit "field", VStr (lit "idnumber")); (lit "value", VStr course_id) ] w in
  let run := ensure_course url token course_id course_title w in
  (forall e, fst lookup = Raise e ->
             fst run = Raise e
             /\ events_since w (snd run)
                = [EvHttp None (lookup_request url token course_id)])
  /\ (forall v, fst lookup = Ok v -> is_dict v = false ->
                fst run = Raise AttributeError
                /\ events_since w (snd run)
                   = [EvHttp None (lookup_request url token course_id)]).
Proof.
  intros lookup run. subst lookup run.
  destruct (api_trace url token (lit "core_course_get_courses_by_field")
              [ (lit "field", VStr (lit "idnumber")); (lit "value", VStr course_id) ] w)
    as [Ht _].
  fold (lookup_request url token course_id) in Ht.
  unfold ensure_course.
  destruct (api url token (lit "core_course_get_courses_by_field") _ w)
    as [o w1] eqn:E.
  simpl in Ht. split.
  - intros e He. simpl in He. subst o.
    rewrite (bind_raise _ _ _ _ _ E). simpl.
    split; [reflexivity | now apply events_since_app].
  - intros v Hv Hd. simpl in Hv. subst o.
    rewrite (bind_ok _ _ _ _ _ E).
    assert (Hg : py_get v (lit "courses") (VList []) = Err AttributeError)
      by (destruct v; try reflexivity; discriminate Hd).
    rewrite Hg, (bind_raise _ _ _ _ _ (lift_err _ _)). simpl.
    split; [reflexivity | now apply events_since_app].
Qed.

End EnsureCourseFailures.

Lemma ensure_course_inconclusive_lookup_witness :
  let w := Scripted.start []
             [Scripted.json_page 200
                (Demo.api_exception "invalidtoken" "Invalid token - token not found")]
             [] in
  let run := @ensure_course Scripted.platform (lit "http://localhost:8080")
               (lit "stale") (lit "c1") (lit "C1") w in
  fst run
  = Raise (RuntimeError
             (MoodleApiError (lit "core_course_get_courses_by_field")
                (VStr (lit "Invalid token - token not found"))))
  /\ events_since w (snd run)
     = [EvHttp None (lookup_request (lit "http://localhost:8080") (lit "stale") (lit "c1"))].
Proof.
  intros w run.
  apply (proj1 (@ensure_course_inconclusive_lookup Scripted.platform
                  (lit "http://localhost:8080") (lit "stale") (lit "c1") (lit "C1") w)).
  reflexivity.
Defined.

(** ** Early exits of [main] *)

Section EarlyExits.

Context {P : Platform}.

Lemma api_never_exits (url token function : str) (params : dict) (w : world) (c : Z) :
  fst (api url token function params w) <> Exit c.
Proof.
  unfold api, requests_post, send, bind.
  destruct (http_send _ _ _) as [r2 [resp|el]]; simpl; [|discriminate].
  unfold raise_for_status.
  destruct ((400 <=? status_code resp)%Z && (status_code resp <? 600)%Z);
    simpl; [discriminate|].
  unfold response_json. destruct (json resp) as [data|]; simpl; [|discriminate].
  destruct data; simpl; try discriminate.
  destruct (dict_contains _ _); simpl; discriminate.
Qed.

Lemma main_verify_token_cases (a : args) (token : str) (w1 : world) :
  let rq := rest_request (args_url a) token (lit "core_webservice_get_site_info") [] in
  (fst (main_verify_token a token w1) = Ok tt
   /\ exists sitename release,
       events_since w1 (snd (main_verify_token a token w1))
       = [EvHttp None rq; EvPrint (PConnected sitename release)])
  \/ (fst (main_verify_token a token w1) = Exit 1
      /\ exists e,
          events_since w1 (snd (main_verify_token a token w1))
          = [EvHttp None rq; EvPrint (PValidationFailed e); EvPrint PTryRegenerate]).
Proof.
  intros rq. subst rq.
  destruct (api_trace (args_url a) token (lit "core_webservice_get_site_info") [] w1)
    as [Ht _].
  pose proof (api_never_exits (args_url a) token
                (lit "core_webservice_get_site_info") [] w1) as Hne.
  unfold main_verify_token, try_except.
  destruct (api (args_url a) token (lit "core_webservice_get_site_info") [] w1)
    as [[site | e | c] w2] eqn:E; simpl in Ht, Hne.
  - rewrite (bind_ok _ _ _ _ _ E).
    destruct (is_dict site) eqn:Hd.
    + destruct site as [| | | | |d]; try discriminate Hd.
      left. unfold py_get. rewrite !(bind_ok _ _ _ _ _ (lift_val _ _)).
      unfold print, emit. simpl. split; [reflexivity|]. eexists _, _.
      apply events_since_app. simpl. now rewrite Ht, <- !app_assoc.
    + assert (Hg : py_get site (lit "sitename") VNone = Err AttributeError)
        by (destruct site; try reflexivity; discriminate Hd).
      right. rewrite Hg, (bind_raise _ _ _ _ _ (lift_err _ _)).
      unfold bind, print, emit, sys_exit. simpl. split; [reflexivity|].
      exists AttributeError.
      apply events_since_app. simpl. now rewrite Ht, <- !app_assoc.
  - right. rewrite (bind_raise _ _ _ _ _ E).
    unfold bind, print, emit, sys_exit. simpl. split; [reflexivity|]. exists e.
    apply events_since_app. simpl. now rewrite Ht, <- !app_assoc.
  - destruct (Hne c eq_refl).
Qed.

(** X5. Token validation never lets an exception through.  Whatever the
    site-info call does -- fail in transport, answer an error status or an
    [exception], answer JSON that is not a mapping -- the check either
    passes or ends the run with exit code 1 after printing the failure and
    the hint; a failed check makes no second call and reads no file, so the
    ledger is never looked at. *)
Theorem token_validation_failure (a : args) (w w1 : world) (token : str) :
  args_get_token a = false ->
  main_token_resolution a (patch_defaults a w) = (Ok token, w1) ->
  let check := main_verify_token a token w1 in
  (fst check = Ok tt \/ fst check = Exit 1)
  /\ (fst check = Exit 1 ->
      main a w = (Exit 1, snd check)
      /\ exists e,
          events_since w1 (snd (main a w))
          = [ EvHttp None (rest_request (args_url a) token
                             (lit "core_webservice_get_site_info") []);
              EvPrint (PValidationFailed e);
              EvPrint PTryRegenerate ]).
Proof.
  intros Hget Htok check. subst check.
  destruct (main_verify_token_cases a token w1) as [(Hok & _) | (Hex & e & Hev)].
  - split; [now left|]. rewrite Hok. discriminate.
  - split; [now right|]. intros _.
    assert (Hmain : main a w = (Exit 1, snd (main_verify_token a token w1))).
    { unfold main.
      rewrite (bind_ok _ _ w (patch_defaults a w) tt eq_refl).
      rewrite (bind_ok _ _ _ _ _ Htok), Hget.
      destruct (main_verify_token a token w1) as [o w2] eqn:E. simpl in Hex. subst o.
      now rewrite (bind_exit _ _ _ _ _ E). }
    split; [exact Hmain|]. exists e. rewrite Hmain. exact Hev.
Qed.

(** X6. With [--get-token] the run prints the resolved token and returns
    (exit code 0) straight after token resolution: the token is not
    validated and the ledger is not looked at. *)
Theorem get_token_stops_after_resolution (a : args) (w w1 : world) (token : str) :
  args_get_token a = true ->
  main_token_resolution a (patch_defaults a w) = (Ok token, w1) ->
  fst (main a w) = Ok tt
  /\ exit_code (fst (main a w)) = 0%Z
  /\ events_since w1 (snd (main a w)) = [EvPrint (PToken (Some token))].
Proof.
  intros Hget Htok. unfold main.
  rewrite (bind_ok _ _ w (patch_defaults a w) tt eq_refl).
  rewrite (bind_ok _ _ _ _ _ Htok), Hget.
  unfold print, emit. simpl. repeat split. apply events_since_mk.
Qed.

End EarlyExits.

Lemma token_validation_failure_witness :
  let a := Demo.cli (Some (lit "stale")) false in
  fst (@main Demo.platform a (Demo.world0 Demo.disk)) = Exit 1.
Proof.
  intros a.
  pose (w := Demo.world0 Demo.disk).
  pose (w1 := snd (@main_token_resolution Demo.platform a (patch_defaults a w))).
  destruct (proj2 (@token_validation_failure Demo.platform a w w1 (lit "stale")
                     eq_refl eq_refl) eq_refl) as [H _].
  change (fst (@main Demo.platform a w) = Exit 1). now rewrite H.
Defined.

Lemma get_token_stops_after_resolution_witness :
  let a := mkArgs (lit "http://localhost:8080") (Some (lit "stale")) (lit "admin")
                  [] None (lit "no/such/manifest.yaml") false true in
  fst (@main Demo.platform a (Demo.world0 [])) = Ok tt.
Proof.
  intros a.
  apply (@get_token_stops_after_resolution Demo.platform a (Demo.world0 [])
           (patch_defaults a (Demo.world0 [])) (lit "stale") eq_refl eq_refl).
Defined.

(** ** The course filter *)

Lemma filter_course_dicts (entries : list value) (cid : str) :
  Forall (fun e => is_dict e = true) entries ->
  filter_course entries cid = Val (filter (carries_course_id cid) entries).
Proof.
  induction 1 as [|e rest He _ IH]; [reflexivity|].
  destruct e as [| | | | |d]; try discriminate He.
  simpl. rewrite IH. simpl.
  destruct (dict_get d (lit "course_id")) as [v|]; simpl.
  - destruct (eq_str v cid); reflexivity.
  - reflexivity.
Qed.

Lemma filter_course_non_dict (before after : list value) (e : value) (cid : str) :
  is_dict e = false ->
  filter_course (before ++ e :: after) cid = Err AttributeError.
Proof.
  intros He. induction before as [|b before IH]; simpl.
  - destruct e; try reflexivity. discriminate He.
  - destruct (py_get b (lit "course_id") VNone) as [v|err] eqn:E; simpl.
    + now rewrite IH.
    + destruct b; simpl in E; try (injection E as <-; reflexivity). discriminate E.
Qed.

(** X7. The [--course-id] filter keeps, in ledger order, exactly the
    entries whose [course_id] value equals the requested id -- an entry
    without that key is never kept, whatever the id -- and a ledger element
    that is not a mapping makes the filter raise [AttributeError]. *)
Theorem filter_course_selects (cid : str) :
  (forall entries,
      Forall (fun e => is_dict e = true) entries ->
      filter_course entries cid = Val (filter (carries_course_id cid) entries))
  /\ (forall entries kept e,
         filter_course entries cid = Val kept -> In e kept ->
         exists d v, e = VDict d /\ dict_get d (lit "course_id") = Some v
                     /\ eq_str v cid = true)
  /\ (forall before e after,
         is_dict e = false ->
         filter_course (before ++ e :: after) cid = Err AttributeError).
Proof.
  split; [exact (fun entries => filter_course_dicts entries cid)|].
  split; [|exact (fun before e after => filter_course_non_dict before after e cid)].
  intros entries. induction entries as [|x rest IH]; intros kept e Hrun Hin.
  - injection Hrun as <-. destruct Hin.
  - simpl in Hrun.
    destruct (py_get x (lit "course_id") VNone) as [v|] eqn:Ev; simpl in Hrun;
      [|discriminate].
    destruct (filter_course rest cid) as [k|]; simpl in Hrun; [|discriminate].
    injection Hrun as <-.
    destruct (eq_str v cid) eqn:Es.
    + destruct Hin as [<- | Hin]; [|exact (IH k e eq_refl Hin)].
      destruct x as [| | | | |d]; simpl in Ev; try discriminate Ev.
      destruct (dict_get d (lit "course_id")) as [v0|] eqn:Eg.
      * injection Ev as ->. now exists d, v.
      * injection Ev as <-. discriminate Es.
    + exact (IH k e eq_refl Hin).
Qed.

Lemma filter_course_selects_witness :
  @filter_course
    [ VDict [(lit "course_id", VStr (lit "c1")); (lit "module_id", VStr (lit "m1"))];
      VDict [(lit "module_id", VStr (lit "m2"))];
      VDict [(lit "course_id", VStr (lit "c2"))];
      VDict [(lit "course_id", VStr (lit "c1")); (lit "module_id", VStr (lit "m3"))] ]
    (lit "c1")
  = Val [ VDict [(lit "course_id", VStr (lit "c1")); (lit "module_id", VStr (lit "m1"))];
          VDict [(lit "course_id", VStr (lit "c1")); (lit "module_id", VStr (lit "m3"))] ].
Proof.
  apply (proj1 (filter_course_selects (lit "c1"))). repeat constructor.
Defined.

Section CourseFilterRun.

Context {P : Platform}.

Lemma filter_without_course_id (entries : list value) (cid : str) :
  Forall without_course_id entries ->
  filter_course entries cid = Val [].
Proof.
  intros H. rewrite filter_course_dicts.
  - f_equal. induction H as [|e rest (d & -> & Hd) _ IH]; [reflexivity|].
    simpl. now rewrite Hd.
  - revert H. apply Forall_impl. intros e (d & -> & _). reflexivity.
Qed.

(** X8. The course filter is applied before the fallback course key is
    assigned.  On a ledger whose entries carry no [course_id] (the shape the
    generator writes), a run with [--course-id] -- whatever the id, the
    fallback "mtat-preview" included -- publishes nothing: it prints that no
    variants were found and ends with exit code 1, without any course
    lookup. *)
Theorem course_filter_on_ledger_without_ids
    (a : args) (w w1 w2 : world) (token t cid : str) (entries : list value) :
  args_get_token a = false ->
  main_token_resolution a (patch_defaults a w) = (Ok token, w1) ->
  main_verify_token a token w1 = (Ok tt, w2) ->
  let manifest_path := Path_of (args_manifest a) in
  fs_exists (fs w2) manifest_path = true ->
  fs_read_text (fs w2) manifest_path = Some t ->
  yaml_safe_load t = Some (VList entries) ->
  entries <> [] ->
  Forall without_course_id entries ->
  args_course_id a = Some cid -> cid <> [] ->
  fst (main a w) = Exit 1
  /\ events_since w2 (snd (main a w))
     = [ EvStat manifest_path; EvRead manifest_path; EvPrint (PNoVariantsFor cid) ].
Proof.
  intros Hget Htok Hver mp Hex Hread Hyaml Hne Hall Hcid Hcne.
  rewrite (main_from_ledger a w w1 w2 token Hget Htok Hver). fold mp.
  set (w3 := mkWorld (fs w2) (remote w2) (clock w2) (next_session w2)
                     (DEFAULT_USER w2) (DEFAULT_PASS w2)
                     (trace w2 ++ [ EvStat mp; EvRead mp ])).
  assert (Hload : load_manifest mp w2 = (Ok entries, w3)).
  { unfold load_manifest, path_exists, read_text, yaml_load, bind, emit, ret.
    simpl. rewrite Hex. simpl. rewrite Hread. simpl. rewrite Hyaml.
    subst w3. now rewrite <- !app_assoc. }
  rewrite (bind_ok _ _ _ _ _ Hload).
  destruct entries as [|e0 rest]; [congruence|].
  rewrite Hcid. destruct cid as [|c0 cid']; [congruence|]. cbn [opt_truthy].
  cbv zeta iota.
  rewrite (filter_without_course_id (e0 :: rest) (c0 :: cid') Hall).
  unfold bind, lift, ret, print, emit, sys_exit. simpl fst. simpl snd.
  split; [reflexivity|]. subst w3. simpl trace.
  rewrite <- app_assoc. apply events_since_mk.
Qed.

End CourseFilterRun.

Lemma course_filter_on_ledger_without_ids_witness :
  let a := mkArgs (lit "http://localhost:8080") (Some Demo.VALID_TOKEN)
                  (lit "admin") [] (Some (lit "mtat-preview"))
                  (lit "variants/manifest.yaml") false false in
  fst (@main Demo.platform a (Demo.world0 Demo.disk)) = Exit 1.
Proof.
  intros a.
  pose (w := Demo.world0 Demo.disk).
  pose (w1 := snd (@main_token_resolution Demo.platform a (patch_defaults a w))).
  pose (w2 := snd (@main_verify_token Demo.platform a Demo.VALID_TOKEN w1)).
  apply (@course_filter_on_ledger_without_ids Demo.platform a w w1 w2
           Demo.VALID_TOKEN (lit "ledger3") (lit "mtat-preview") Demo.ledger3);
    try reflexivity; try discriminate.
  repeat constructor; (eexists; split; reflexivity).
Defined.

(** ** Grouping is a stable partition *)

Lemma key_eqb_sym (a b : value) : key_eqb a b = key_eqb b a.
Proof.
  destruct a as [|x|x|s| |], b as [|y|y|t| |]; simpl; try reflexivity.
  - destruct x, y; reflexivity.
  - apply Z.eqb_sym.
  - destruct (str_eqb s t) eqn:E.
    + apply str_eqb_eq in E as ->. now rewrite str_eqb_refl.
    + destruct (str_eqb t s) eqn:E'; [|reflexivity].
      apply str_eqb_eq in E' as ->. now rewrite str_eqb_refl in E.
Qed.

Lemma key_eqb_trans (a b c : value) :
  key_eqb a b = true -> key_eqb a c = key_eqb b c.
Proof.
  destruct a as [|x|x|s| |], b as [|y|y|t| |]; simpl; try discriminate;
    intros H.
  - reflexivity.
  - apply Bool.eqb_prop in H as ->. reflexivity.
  - apply Z.eqb_eq in H as <-. destruct c as [|z|z|u| |]; simpl; try reflexivity.
    destruct x, z; reflexivity.
  - apply Z.eqb_eq in H. subst x. destruct c as [|z|z|u| |]; simpl; try reflexivity.
    destruct y, z; reflexivity.
  - apply Z.eqb_eq in H as ->. reflexivity.
  - apply str_eqb_eq in H as ->. reflexivity.
Qed.

Section Buckets.

Context {P : Platform}.

Lemma modules_get_append (mods : list (value * list value)) (km e m : value) :
  modules_get (modules_append mods km e) m
  = modules_get mods m ++ (if key_eqb km m then [e] else []).
Proof.
  induction mods as [|[k0 es] mods IH]; simpl.
  - destruct (key_eqb km m); reflexivity.
  - destruct (key_eqb k0 km) eqn:E; simpl.
    + rewrite <- (key_eqb_trans k0 km m E).
      destruct (key_eqb k0 m); [reflexivity | now rewrite app_nil_r].
    + destruct (key_eqb k0 m) eqn:E'; [|exact IH].
      rewrite (key_eqb_sym km m), <- (key_eqb_trans k0 m km E'), E.
      now rewrite app_nil_r.
Qed.

Lemma bucket_append (courses : list (str * course)) (cid : str) (km e : value)
    (key : str) (m : value) :
  courses_contains courses cid = true ->
  bucket (courses_append courses cid km e) key m
  = bucket courses key m ++ (if str_eqb cid key && key_eqb km m then [e] else []).
Proof.
  unfold bucket. induction courses as [|[k0 c0] courses IH]; simpl; [discriminate|].
  destruct (str_eqb k0 cid) eqn:E; simpl.
  - intros _. apply str_eqb_eq in E as ->.
    destruct (str_eqb cid key); simpl; [apply modules_get_append|].
    now rewrite app_nil_r.
  - intros H. destruct (str_eqb k0 key) eqn:E'; [|exact (IH H)].
    apply str_eqb_eq in E' as ->.
    assert (Hk : str_eqb cid key = false).
    { destruct (str_eqb cid key) eqn:E2; [|reflexivity].
      apply str_eqb_eq in E2 as ->. now rewrite str_eqb_refl in E. }
    rewrite Hk. simpl. now rewrite app_nil_r.
Qed.

Lemma bucket_new_course (courses : list (str * course)) (cid ttl key : str) (m : value) :
  bucket (courses ++ [(cid, mkCourse ttl [])]) key m = bucket courses key m.
Proof.
  unfold bucket. induction courses as [|[k0 c0] courses IH]; simpl.
  - destruct (str_eqb cid key); reflexivity.
  - destruct (str_eqb k0 key); [reflexivity | exact IH].
Qed.

(** What [group_entry] does with an entry it accepts. *)
Lemma group_entry_accepts (courses : list (str * course)) (d : dict) :
  groupable (VDict d) ->
  group_entry courses (VDict d)
  = Val (courses_append
           (if negb (courses_contains courses (course_key d))
            then courses ++ [(course_key d, mkCourse (default_label (course_key d)) [])]
            else courses)
           (course_key d) (module_key d) (VDict d)).
Proof.
  intros (d0 & Hd & Hcid & Hmod). injection Hd as <-.
  unfold group_entry, py_get, res_bind, module_key, course_key, FALLBACK_COURSE,
    default_label in *.
  destruct Hcid as [-> | [c ->]]; simpl negb; cbv iota;
    destruct (dict_get d (lit "module_id")) as [m|];
    try destruct (dict_get d (lit "module_path")) as [p|];
    rewrite Hmod; reflexivity.
Qed.

Lemma group_loop_buckets (entries : list value) (courses0 : list (str * course)) :
  Forall groupable entries ->
  exists courses,
    group_loop courses0 entries = Val courses
    /\ forall key m,
        bucket courses key m
        = bucket courses0 key m ++ filter (in_bucket key m) entries.
Proof.
  revert courses0. induction entries as [|e entries IH]; intros courses0 Hall.
  - exists courses0. split; [reflexivity|]. intros. simpl. now rewrite app_nil_r.
  - inversion Hall as [|? ? He Hrest]; subst.
    pose proof He as (d & -> & _).
    set (c1 := courses_append
                 (if negb (courses_contains courses0 (course_key d))
                  then courses0 ++ [(course_key d,
                                     mkCourse (default_label (course_key d)) [])]
                  else courses0)
                 (course_key d) (module_key d) (VDict d)).
    destruct (IH c1 Hrest) as (cs & Hloop & Hb).
    exists cs. simpl group_loop. rewrite (group_entry_accepts courses0 d He).
    split; [exact Hloop|]. intros key m. rewrite Hb. subst c1.
    rewrite bucket_append.
    + destruct (courses_contains courses0 (course_key d)); simpl negb; cbv iota;
        rewrite ?bucket_new_course, <- app_assoc; f_equal; simpl;
        destruct (str_eqb (course_key d) key && key_eqb (module_key d) m);
        reflexivity.
    + destruct (courses_contains courses0 (course_key d)) eqn:E; simpl;
        [exact E | apply courses_contains_app].
Qed.

End Buckets.

Lemma filter_filter_and {A} (f g : A -> bool) (l : list A) :
  filter f (filter g l) = filter (fun y => f y && g y) l.
Proof.
  induction l as [|x l IH]; simpl; [reflexivity|].
  destruct (g x); simpl; rewrite ?andb_false_r, ?andb_true_r;
    [destruct (f x); now rewrite IH | exact IH].
Qed.

Lemma filter_true {A} (l : list A) : filter (fun _ => true) l = l.
Proof. induction l; simpl; congruence. Qed.

(** Keys met so far and keys still to come: appending each new key at its
    first occurrence lists the keys in first-seen order. *)
Lemma first_seen_accumulate {A} (eqb : A -> A -> bool) (step : list A -> A -> list A)
    (l : list A) :
  (forall a b, eqb a b = eqb b a) ->
  (forall a b c, eqb a b = true -> eqb a c = eqb b c) ->
  (forall seen x,
      step seen x = if existsb (fun k => eqb k x) seen then seen else seen ++ [x]) ->
  forall seen,
    fold_left step l seen
    = seen ++ filter (fun y => negb (existsb (fun k => eqb k y) seen))
                     (first_seen eqb l).
Proof.
  intros Hsym Htrans Hstep. induction l as [|x l IH]; intros seen; simpl.
  - now rewrite app_nil_r.
  - rewrite IH, Hstep, filter_filter_and.
    destruct (existsb (fun k => eqb k x) seen) eqn:E; simpl.
    + f_equal. apply filter_ext. intros y.
      destruct (existsb (fun k => eqb k y) seen) eqn:Ey; [reflexivity|]. simpl.
      destruct (eqb x y) eqn:Exy; [|reflexivity].
      apply existsb_exists in E as (k & Hk & Hkx).
      assert (existsb (fun k0 => eqb k0 y) seen = true).
      { apply existsb_exists. exists k. split; [exact Hk|].
        rewrite (Htrans k x y Hkx). exact Exy. }
      congruence.
    + rewrite <- app_assoc. simpl. f_equal. f_equal. apply filter_ext. intros y.
      rewrite existsb_app. simpl. rewrite orb_false_r, negb_orb. reflexivity.
Qed.

Section GroupOrder.

Context {P : Platform}.

Lemma courses_append_keys (courses : list (str * course)) (cid : str) (km e : value) :
  map fst (courses_append courses cid km e) = map fst courses.
Proof.
  induction courses as [|[k0 c0] courses IH]; simpl; [reflexivity|].
  destruct (str_eqb k0 cid); simpl; [reflexivity | now rewrite IH].
Qed.

Lemma courses_contains_keys (courses : list (str * course)) (cid : str) :
  courses_contains courses cid = existsb (fun k => str_eqb k cid) (map fst courses).
Proof.
  induction courses as [|[k0 c0] courses IH]; simpl; [reflexivity | now rewrite IH].
Qed.

Lemma str_eqb_sym (a b : str) : str_eqb a b = str_eqb b a.
Proof.
  destruct (str_eqb a b) eqn:E.
  - apply str_eqb_eq in E as ->. now rewrite str_eqb_refl.
  - destruct (str_eqb b a) eqn:E'; [|reflexivity].
    apply str_eqb_eq in E' as ->. now rewrite str_eqb_refl in E.
Qed.

Lemma group_loop_keys (entries : list value) (courses0 : list (str * course)) :
  Forall groupable entries ->
  exists courses,
    group_loop courses0 entries = Val courses
    /\ map fst courses
       = fold_left (fun seen x =>
                      if existsb (fun k => str_eqb k x) seen then seen else seen ++ [x])
                   (map entry_course_key entries) (map fst courses0).
Proof.
  revert courses0. induction entries as [|e entries IH]; intros courses0 Hall.
  - exists courses0. now split.
  - inversion Hall as [|? ? He Hrest]; subst.
    pose proof He as (d & -> & _).
    set (c1 := courses_append
                 (if negb (courses_contains courses0 (course_key d))
                  then courses0 ++ [(course_key d,
                                     mkCourse (default_label (course_key d)) [])]
                  else courses0)
                 (course_key d) (module_key d) (VDict d)).
    destruct (IH c1 Hrest) as (cs & Hloop & Hk).
    exists cs. simpl group_loop. rewrite (group_entry_accepts courses0 d He).
    split; [exact Hloop|]. rewrite Hk. simpl. f_equal. subst c1.
    rewrite courses_append_keys, courses_contains_keys.
    destruct (existsb _ (map fst courses0)); simpl; [reflexivity|].
    now rewrite map_app.
Qed.

(** X9. [group_by_course] is a stable partition of the ledger.  Looking up
    course [key] and module [m] in its result gives exactly the ledger
    entries with that course key and that module key, in ledger order (so no
    entry is lost, duplicated or filed twice), and the courses come in the
    order in which their keys first occur in the ledger. *)
Theorem group_by_course_stable_partition (entries : list value) :
  Forall groupable entries ->
  exists courses,
    group_by_course entries = Val courses
    /\ (forall key m,
           bucket courses key m = filter (in_bucket key m) entries)
    /\ map fst courses = first_seen str_eqb (map entry_course_key entries).
Proof.
  intros Hall.
  destruct (group_loop_buckets entries [] Hall) as (cs & Hrun & Hb).
  destruct (group_loop_keys entries [] Hall) as (cs' & Hrun' & Hk).
  rewrite Hrun in Hrun'. injection Hrun' as <-.
  exists cs. split; [exact Hrun|]. split; [exact Hb|].
  rewrite Hk. simpl map.
  rewrite (first_seen_accumulate str_eqb _ (map entry_course_key entries)
             str_eqb_sym).
  - simpl. apply filter_true.
  - intros a b c H. apply str_eqb_eq in H as ->. reflexivity.
  - reflexivity.
Qed.

End GroupOrder.

Lemma group_by_course_stable_partition_witness :
  let e c m := VDict [ (lit "course_id", VStr (lit c)); (lit "module_id", VInt m) ] in
  exists courses,
    @group_by_course Demo.platform [e "A" 1%Z; e "B" 1%Z; e "A" 2%Z] = Val courses
    /\ map fst courses = [lit "A"; lit "B"]
    /\ bucket courses (lit "A") (VInt 1) = [e "A" 1%Z].
Proof.
  intros e.
  destruct (@group_by_course_stable_partition Demo.platform
              [e "A" 1%Z; e "B" 1%Z; e "A" 2%Z])
    as (cs & Hrun & Hb & Hk).
  - repeat constructor;
      (eexists; split; [reflexivity|]; split;
       [right; eexists; reflexivity | reflexivity]).
  - exists cs. split; [exact Hrun|]. split; [rewrite Hk | rewrite Hb]; reflexivity.
Defined.

Section ModuleOrder.

Context {P : Platform}.

Lemma modules_append_keys (mods : list (value * list value)) (km e : value) :
  map fst (modules_append mods km e) = module_step (map fst mods) km.
Proof.
  unfold module_step. induction mods as [|[k0 es] mods IH]; simpl; [reflexivity|].
  destruct (key_eqb k0 km); simpl; [reflexivity|].
  rewrite IH. destruct (existsb _ (map fst mods)); reflexivity.
Qed.

Lemma module_keys_append (courses : list (str * course)) (cid : str) (km e : value)
    (key : str) :
  courses_contains courses cid = true ->
  module_keys (courses_append courses cid km e) key
  = if str_eqb cid key then module_step (module_keys courses key) km
    else module_keys courses key.
Proof.
  unfold module_keys. induction courses as [|[k0 c0] courses IH]; simpl; [discriminate|].
  destruct (str_eqb k0 cid) eqn:E; simpl.
  - intros _. apply str_eqb_eq in E as ->.
    destruct (str_eqb cid key); simpl; [apply modules_append_keys | reflexivity].
  - intros H. destruct (str_eqb k0 key) eqn:E'; [|exact (IH H)].
    apply str_eqb_eq in E' as ->.
    rewrite (str_eqb_sym cid key), E. reflexivity.
Qed.

Lemma module_keys_new_course (courses : list (str * course)) (cid ttl key : str) :
  module_keys (courses ++ [(cid, mkCourse ttl [])]) key = module_keys courses key.
Proof.
  unfold module_keys. induction courses as [|[k0 c0] courses IH]; simpl.
  - destruct (str_eqb cid key); reflexivity.
  - destruct (str_eqb k0 key); [reflexivity | exact IH].
Qed.

Lemma group_loop_module_keys (entries : list value) (courses0 : list (str * course)) :
  Forall groupable entries ->
  exists courses,
    group_loop courses0 entries = Val courses
    /\ forall key,
        module_keys courses key
        = fold_left module_step
            (map entry_module_key
               (filter (fun e => str_eqb (entry_course_key e) key) entries))
            (module_keys courses0 key).
Proof.
  revert courses0. induction entries as [|e entries IH]; intros courses0 Hall.
  - exists courses0. now split.
  - inversion Hall as [|? ? He Hrest]; subst.
    pose proof He as (d & -> & _).
    set (c1 := courses_append
                 (if negb (courses_contains courses0 (course_key d))
                  then courses0 ++ [(course_key d,
                                     mkCourse (default_label (course_key d)) [])]
                  else courses0)
                 (course_key d) (module_key d) (VDict d)).
    destruct (IH c1 Hrest) as (cs & Hloop & Hk).
    exists cs. simpl group_loop. rewrite (group_entry_accepts courses0 d He).
    split; [exact Hloop|]. intros key. rewrite Hk. subst c1.
    rewrite module_keys_append.
    + simpl filter.
      destruct (str_eqb (course_key d) key); simpl;
        destruct (courses_contains courses0 (course_key d)); simpl;
        rewrite ?module_keys_new_course; reflexivity.
    + destruct (courses_contains courses0 (course_key d)) eqn:E; simpl;
        [exact E | apply courses_contains_app].
Qed.

(** X10. Within each course of the result of [group_by_course] the modules
    come in the order in which their keys first occur among that course's
    ledger entries; keys that Python treats as the same dictionary key
    ([1] and [True], say) share one module, under the key seen first. *)
Theorem group_by_course_module_order (entries : list value) :
  Forall groupable entries ->
  exists courses,
    group_by_course entries = Val courses
    /\ forall key,
        module_keys courses key
        = first_seen key_eqb
            (map entry_module_key
               (filter (fun e => str_eqb (entry_course_key e) key) entries)).
Proof.
  intros Hall.
  destruct (group_loop_module_keys entries [] Hall) as (cs & Hrun & Hk).
  exists cs. split; [exact Hrun|]. intros key. rewrite Hk.
  rewrite (first_seen_accumulate key_eqb module_step _ key_eqb_sym key_eqb_trans).
  - simpl. apply filter_true.
  - reflexivity.
Qed.

End ModuleOrder.

Lemma group_by_course_module_order_witness :
  let e c m := VDict [ (lit "course_id", VStr (lit c)); (lit "module_id", m) ] in
  exists courses,
    @group_by_course Demo.platform
      [e "A" (VInt 2); e "B" (VInt 7); e "A" (VInt 1); e "A" (VBool true)]
    = Val courses
    /\ module_keys courses (lit "A") = [VInt 2; VInt 1].
Proof.
  intros e.
  destruct (@group_by_course_module_order Demo.platform
              [e "A" (VInt 2); e "B" (VInt 7); e "A" (VInt 1); e "A" (VBool true)])
    as (cs & Hrun & Hk).
  - repeat constructor;
      (eexists; split; [reflexivity|]; split;
       [right; eexists; reflexivity | reflexivity]).
  - exists cs. split; [exact Hrun|]. rewrite Hk. reflexivity.
Defined.

(** ** Grouping is all or nothing *)

Section GroupingFails.

Context {P : Platform}.

Lemma group_entry_module_part (d : dict) (cid : str) (courses1 : list (str * course)) :
  res_bind (py_get (VDict d) (lit "module_path") (VStr (lit "unknown")))
    (fun fallback =>
       res_bind (py_get (VDict d) (lit "module_id") fallback)
         (fun mod_id =>
            if negb (hashable mod_id) then Err TypeError
            else Val (courses_append courses1 cid mod_id (VDict d))))
  = if hashable (module_key d)
    then Val (courses_append courses1 cid (module_key d) (VDict d))
    else Err TypeError.
Proof.
  unfold py_get, res_bind, module_key.
  destruct (dict_get d (lit "module_id")) as [m|];
    [|destruct (dict_get d (lit "module_path")) as [p|]];
    match goal with |- context [hashable ?x] => destruct (hashable x) end;
    reflexivity.
Qed.

Lemma group_entry_rejects (courses : list (str * course)) (e : value) :
  ~ groupable e ->
  exists ex, group_entry courses e = Err ex
             /\ (ex = AttributeError \/ ex = TypeError).
Proof.
  intros Hno. destruct e as [| | | | |d];
    try (exists AttributeError; split; [reflexivity | now left]).
  unfold group_entry.
  change (py_get (VDict d) (lit "course_id") (VStr (lit "mtat-preview")))
    with (Val (match dict_get d (lit "course_id") with
               | Some x => x | None => VStr (lit "mtat-preview") end)).
  unfold res_bind at 1.
  destruct (dict_get d (lit "course_id")) as [v|] eqn:Ec.
  - destruct v as [| | |cid| |]; simpl hashable; simpl negb; cbv iota;
      try (exists AttributeError; split; [reflexivity | now left]);
      try (exists TypeError; split; [reflexivity | now right]).
    rewrite group_entry_module_part.
    destruct (hashable (module_key d)) eqn:Hm.
    + destruct Hno. exists d. split; [reflexivity|]. split; [right; now exists cid | exact Hm].
    + exists TypeError. split; [reflexivity | now right].
  - simpl hashable. simpl negb. cbv iota.
    rewrite group_entry_module_part.
    destruct (hashable (module_key d)) eqn:Hm.
    + destruct Hno. exists d. split; [reflexivity|]. split; [now left | exact Hm].
    + exists TypeError. split; [reflexivity | now right].
Qed.

Lemma group_loop_rejects (good : list value) (bad : value) (rest : list value)
    (courses0 : list (str * course)) :
  Forall groupable good -> ~ groupable bad ->
  exists ex, group_loop courses0 (good ++ bad :: rest) = Err ex
             /\ (ex = AttributeError \/ ex = TypeError).
Proof.
  intros Hgood Hbad. revert courses0.
  induction Hgood as [|e good (d & -> & Hd) _ IH]; intros courses0.
  - destruct (group_entry_rejects courses0 bad Hbad) as (ex & Hex & Hkind).
    exists ex. simpl. now rewrite Hex.
  - simpl. rewrite (group_entry_accepts courses0 d) by (exists d; now split).
    simpl. apply IH.
Qed.

(** X11. Grouping is all or nothing: one ledger element that is not a
    well-formed entry -- not a mapping, a [course_id] that is present but
    not a string (a YAML null, say), or a module key that is a list or a
    mapping -- makes [group_by_course] raise [AttributeError] or [TypeError],
    however many good entries come before it, so nothing of that ledger is
    published. *)
Theorem group_by_course_rejects
    (good : list value) (bad : value) (rest : list value) :
  Forall groupable good -> ~ groupable bad ->
  exists ex, group_by_course (good ++ bad :: rest) = Err ex
             /\ (ex = AttributeError \/ ex = TypeError).
Proof. intros Hgood Hbad. now apply group_loop_rejects. Qed.

End GroupingFails.

Lemma group_by_course_rejects_witness :
  exists ex,
    @group_by_course Demo.platform
      (Demo.ledger3 ++ [VDict [ (lit "course_id", VNone);
                                (lit "module_id", VStr (lit "m9")) ]])
    = Err ex
    /\ (ex = AttributeError \/ ex = TypeError).
Proof.
  apply (@group_by_course_rejects Demo.platform Demo.ledger3
           (VDict [ (lit "course_id", VNone); (lit "module_id", VStr (lit "m9")) ]) []).
  - repeat constructor;
      (eexists; split; [reflexivity | split; [left; reflexivity | reflexivity]]).
  - intros (d & Hd & [Hnone | [cid Hcid]] & _); injection Hd as <-;
      [discriminate Hnone | discriminate Hcid].
Defined.

(** ** A ledger entry without [output_file] *)

Section MissingKey.

Context {P : Platform}.

Lemma for_each_app {A} (l1 l2 : list A) (body : A -> M unit) (w : world) :
  for_each (l1 ++ l2) body w
  = bind (for_each l1 body) (fun _ => for_each l2 body) w.
Proof.
  revert w. induction l1 as [|x l1 IH]; intros w; simpl; [reflexivity|].
  unfold bind. destruct (body x w) as [[u | e | c] w1]; try reflexivity.
  rewrite IH. reflexivity.
Qed.

(** X12. Unlike a missing file, a missing [output_file] key is fatal: when
    an entry lacks the key, [upload_variants_to_book] raises [KeyError] at
    that entry.  The entries before it have been published (those with
    their file on disk, in order); the entries after it are not looked
    at. *)
Theorem upload_entry_without_output_file
    (url token : str) (course_moodle_id module_title : value) (dir : Path)
    (good : list value) (d : dict) (rest : list value) (w : world) :
  transport_ok ->
  Forall (publishable (fs w) dir) good ->
  dict_get d (lit "output_file") = None ->
  let r := upload_variants_to_book url token course_moodle_id module_title
             (good ++ VDict d :: rest) dir w in
  fst r = Raise KeyError
  /\ pages_posted url (events_since w (snd r))
     = flat_map (page_of (fs w) dir module_title) good.
Proof.
  intros Ht Hgood Hkey r. subst r. unfold upload_variants_to_book.
  set (w0 := mkWorld (fs w) (remote w) (clock w) (next_session w)
                     (DEFAULT_USER w) (DEFAULT_PASS w)
                     (trace w ++ [EvPrint (PModule module_title
                                             (length (good ++ VDict d :: rest)))])).
  rewrite (bind_ok (print _) _ w w0 tt eq_refl).
  destruct (upload_loop_run url course_moodle_id module_title dir good w0 Ht Hgood)
    as (w1 & E1 & _ & _ & evs & T & Pg & _ & _).
  assert (Hbad : upload_variant url course_moodle_id module_title dir (VDict d) w1
                 = (Raise KeyError, w1)).
  { unfold upload_variant, subscript_str. rewrite Hkey.
    now rewrite (bind_raise _ _ _ _ _ (lift_err _ _)). }
  assert (Hloop : for_each (good ++ VDict d :: rest)
                    (upload_variant url course_moodle_id module_title dir) w0
                  = (Raise KeyError, w1)).
  { rewrite for_each_app, (bind_ok _ _ _ _ _ E1). simpl for_each.
    now rewrite (bind_raise _ _ _ _ _ Hbad). }
  rewrite (bind_raise _ _ _ _ _ Hloop). simpl fst. simpl snd.
  split; [reflexivity|].
  rewrite (events_since_app w w1
             (EvPrint (PModule module_title (length (good ++ VDict d :: rest))) :: evs))
    by (rewrite T; subst w0; simpl; now rewrite <- app_assoc).
  exact Pg.
Qed.

End MissingKey.

Lemma upload_entry_without_output_file_witness :
  let url := lit "http://localhost:8080" in
  let w := Demo.world0 Demo.disk in
  let r := @upload_variants_to_book Demo.platform url Demo.VALID_TOKEN (VInt 5)
             (VStr (lit "Concepts"))
             (Demo.ledger3 ++ [VDict [(lit "audience", VStr (lit "developer"))]])
             [] w in
  fst r = Raise KeyError
  /\ map fst (pages_posted url (events_since w (snd r)))
     = [ lit "Concepts [developer / en-US]"; lit "Concepts [champion / en-US]" ].
Proof.
  intros url w r.
  destruct (@upload_entry_without_output_file Demo.platform url Demo.VALID_TOKEN
              (VInt 5) (VStr (lit "Concepts")) [] Demo.ledger3
              [(lit "audience", VStr (lit "developer"))] [] w
              demo_transport_ok demo_ledger_publishable eq_refl) as [A B].
  fold r in A, B. rewrite A, B. split; reflexivity.
Defined.

(** ** The display title of a module *)

Section ModuleTitle.

Context {P : Platform}.

Lemma bind_bind {A B C} (m : M A) (f : A -> M B) (g : B -> M C) (w : world) :
  bind (bind m f) g w = bind m (fun x => bind (f x) g) w.
Proof.
  unfold bind. destruct (m w) as [[a | e | c] w1]; reflexivity.
Qed.

(** X13. The title a module is published under comes from the metadata
    file next to the module of its first entry.  No such file: the raw
    module id is used.  A file holding a mapping: its [title] value, or the
    module id when it has none.  A file that parses to anything else (an
    empty file parses to null): [AttributeError], and nothing of the module
    is published. *)
Theorem module_title_resolution
    (a : args) (token : str) (dir : Path) (moodle_course_id module_id : value)
    (d : dict) (s : str) (rest : list value) (w : world) :
  match dict_get d (lit "module_path") with
  | Some x => x | None => VStr [] end = VStr s ->
  let meta_file :=
    joinpath (joinpath dir (Path_of s)) (Path_of (lit "metadata.yaml")) in
  let variants := VDict d :: rest in
  let probed evs :=
    mkWorld (fs w) (remote w) (clock w) (next_session w)
            (DEFAULT_USER w) (DEFAULT_PASS w) (trace w ++ evs) in
  let run := main_module a token dir moodle_course_id (module_id, variants) w in
  (fs_exists (fs w) meta_file = false ->
   run = upload_variants_to_book (args_url a) token moodle_course_id module_id
           variants dir (probed [EvStat meta_file]))
  /\ (forall t md,
         fs_exists (fs w) meta_file = true ->
         fs_read_text (fs w) meta_file = Some t ->
         yaml_safe_load t = Some (VDict md) ->
         run = upload_variants_to_book (args_url a) token moodle_course_id
                 (match dict_get md (lit "title") with
                  | Some ttl => ttl | None => module_id end)
                 variants dir (probed [EvStat meta_file; EvRead meta_file]))
  /\ (forall t data,
         fs_exists (fs w) meta_file = true ->
         fs_read_text (fs w) meta_file = Some t ->
         yaml_safe_load t = Some data -> is_dict data = false ->
         run = (Raise AttributeError, probed [EvStat meta_file; EvRead meta_file])).
Proof.
  intros Hmp mf variants probed run. subst run variants.
  assert (Hstart :
    main_module a token dir moodle_course_id (module_id, VDict d :: rest) w
    = bind (if fs_exists (fs w) mf
            then t <- read_text mf ;; meta <- yaml_load t ;;
                 lift (py_get meta (lit "title") module_id)
            else ret module_id)
           (fun module_title =>
              upload_variants_to_book (args_url a) token moodle_course_id
                module_title (VDict d :: rest) dir)
           (probed [EvStat mf])).
  { unfold main_module. rewrite bind_bind.
    unfold py_get at 1. rewrite Hmp, (bind_ok _ _ _ _ _ (lift_val _ _)).
    rewrite bind_bind.
    change (path_under dir (VStr s)) with (Val (joinpath dir (Path_of s))).
    rewrite (bind_ok _ _ _ _ _ (lift_val _ _)). cbv zeta. fold mf.
    rewrite bind_bind.
    now rewrite (bind_ok (path_exists mf) _ w (probed [EvStat mf])
                   (fs_exists (fs w) mf) eq_refl). }
  rewrite Hstart. clear Hstart.
  assert (Hread_run : forall t, fs_read_text (fs w) mf = Some t ->
            read_text mf (probed [EvStat mf])
            = (Ok t, probed [EvStat mf; EvRead mf])).
  { intros t Hread. unfold read_text, bind, emit, probed. simpl. rewrite Hread.
    now rewrite <- app_assoc. }
  split; [|split].
  - intros Hex. rewrite Hex.
    now rewrite (bind_ok _ _ _ _ _ (eq_refl : ret module_id _ = (Ok module_id, _))).
  - intros t md Hex Hread Hyaml. rewrite Hex. cbv iota. rewrite !bind_bind.
    rewrite (bind_ok _ _ _ _ _ (Hread_run t Hread)), ?bind_bind.
    unfold yaml_load. rewrite Hyaml. cbv iota.
    rewrite (bind_ok _ _ _ _ _ (eq_refl : ret (VDict md) _ = (Ok (VDict md), _))).
    unfold py_get. now rewrite (bind_ok _ _ _ _ _ (lift_val _ _)).
  - intros t data Hex Hread Hyaml Hd. rewrite Hex. cbv iota. rewrite !bind_bind.
    rewrite (bind_ok _ _ _ _ _ (Hread_run t Hread)), ?bind_bind.
    unfold yaml_load. rewrite Hyaml. cbv iota.
    rewrite (bind_ok _ _ _ _ _ (eq_refl : ret data _ = (Ok data, _))).
    assert (Hg : py_get data (lit "title") module_id = Err AttributeError)
      by (destruct data; try reflexivity; discriminate Hd).
    rewrite Hg. now rewrite (bind_raise _ _ _ _ _ (lift_err _ _)).
Qed.

End ModuleTitle.

Lemma module_title_resolution_witness :
  let a := Demo.cli (Some Demo.VALID_TOKEN) false in
  let empty_metadata :=
    [(Demo.path_of (lit "example-course/01-concept/metadata.yaml"), [])] in
  fst (@main_module Demo.platform a Demo.VALID_TOKEN [] (VInt 5)
         (VStr (lit "m1"), Demo.ledger3) (Demo.world0 empty_metadata))
  = Raise AttributeError.
Proof.
  intros a empty_metadata.
  exact (f_equal fst (proj2 (proj2
             (@module_title_resolution Demo.platform a Demo.VALID_TOKEN []
                (VInt 5) (VStr (lit "m1"))
                [ (lit "module_id", VStr (lit "m1"));
                  (lit "module_path", VStr (lit "example-course/01-concept"));
                  (lit "audience", VStr (lit "developer"));
                  (lit "locale", VStr (lit "en-US"));
                  (lit "output_file", VStr (lit "variants/m1/developer-en-US.md")) ]
                (lit "example-course/01-concept")
                (tl Demo.ledger3) (Demo.world0 empty_metadata) eq_refl))
             [] VNone eq_refl eq_refl eq_refl eq_refl)).
Defined.

(** ** Page creation is fire-and-assume *)

Section PageOutcomes.

Context {P : Platform}.

Lemma send_cases (w : world) (session : option nat) (rq : request) :
  exists o w',
    send session rq w = (o, w')
    /\ ((exists resp, o = Ok resp) \/ o = Raise RequestException)
    /\ next_session w' = next_session w
    /\ trace w' = trace w ++ [EvHttp session rq].
Proof.
  unfold send. destruct (http_send _ _ _) as [r' [resp|el]]; simpl.
  - eexists _, _. split; [reflexivity|]. split; [left; now eexists | now split].
  - eexists _, _. split; [reflexivity|]. split; [now right | now split].
Qed.

Lemma form_steps_app (url : str) (a b : list event) :
  form_steps url (a ++ b) = form_steps url a ++ form_steps url b.
Proof. unfold form_steps. apply flat_map_app. Qed.

(** X14. [_create_page_resource] either returns normally or raises the
    transport failure of one of its exchanges; it raises nothing else (no
    HTTP status error, no error for a token it did not find).  The steps it
    took are always an initial part of "open a session, fetch the login
    page, submit the login, fetch the add-page form, submit the page", in
    the one session it opened, and all five when it returns. *)
Theorem page_creation_outcomes
    (url : str) (course_id : value) (title html username password : str)
    (w : world) :
  let r := _create_page_resource url course_id title html username password w in
  let steps := form_steps url (events_since w (snd r)) in
  (fst r = Ok tt \/ fst r = Raise RequestException)
  /\ prefix_of steps (page_dialogue (next_session w))
  /\ (fst r = Ok tt -> steps = page_dialogue (next_session w)).
Proof.
  intros r steps. subst r steps. unfold _create_page_resource.
  rewrite (bind_ok requests_Session _ w _ _ eq_refl).
  set (sid := next_session w).
  set (w0 := mkWorld _ _ _ _ _ _ _).
  assert (T0 : trace w0 = trace w ++ [EvSession sid]) by reflexivity.
  unfold session_get, session_post.
  destruct (send_cases w0 (Some sid)
              (mkRequest GET (url ++ lit "/login/index.php") [] []))
    as (o1 & w1 & E1 & C1 & _ & T1).
  destruct C1 as [[p1 ->] | ->].
  2:{ rewrite (bind_raise _ _ _ _ _ E1). simpl fst. simpl snd.
      rewrite (events_since_app w w1 [EvSession sid; EvHttp (Some sid)
                 (mkRequest GET (url ++ lit "/login/index.php") [] [])])
        by (rewrite T1, T0; now rewrite <- app_assoc).
      unfold form_steps. simpl. rewrite str_eqb_refl. simpl.
      split; [now right|]. split; [eexists; reflexivity|].
      discriminate. }
  rewrite (bind_ok _ _ _ _ _ E1).
  destruct (send_cases w1 (Some sid)
              (mkRequest POST (url ++ lit "/login/index.php") []
                 (login_form username password
                    (scraped LOGINTOKEN_PATTERN (text p1)))))
    as (o2 & w2 & E2 & C2 & _ & T2).
  destruct C2 as [[p2 ->] | ->].
  2:{ rewrite (bind_raise _ _ _ _ _ E2). simpl fst. simpl snd.
      rewrite (events_since_app w w2
                 [EvSession sid;
                  EvHttp (Some sid) (mkRequest GET (url ++ lit "/login/index.php") [] []);
                  EvHttp (Some sid) (mkRequest POST (url ++ lit "/login/index.php") []
                     (login_form username password
                        (scraped LOGINTOKEN_PATTERN (text p1))))])
        by (rewrite T2, T1, T0; now rewrite <- !app_assoc).
      unfold form_steps. simpl. rewrite !str_eqb_refl. simpl.
      split; [now right|]. split; [eexists; reflexivity|].
      discriminate. }
  rewrite (bind_ok _ _ _ _ _ E2).
  destruct (send_cases w2 (Some sid)
              (mkRequest GET (url ++ lit "/course/modedit.php")
                 (add_page_params course_id) []))
    as (o3 & w3 & E3 & C3 & _ & T3).
  destruct C3 as [[p3 ->] | ->].
  2:{ rewrite (bind_raise _ _ _ _ _ E3). simpl fst. simpl snd.
      rewrite (events_since_app w w3
                 [EvSession sid;
                  EvHttp (Some sid) (mkRequest GET (url ++ lit "/login/index.php") [] []);
                  EvHttp (Some sid) (mkRequest POST (url ++ lit "/login/index.php") []
                     (login_form username password
                        (scraped LOGINTOKEN_PATTERN (text p1))));
                  EvHttp (Some sid) (mkRequest GET (url ++ lit "/course/modedit.php")
                     (add_page_params course_id) [])])
        by (rewrite T3, T2, T1, T0; now rewrite <- !app_assoc).
      unfold form_steps. simpl. rewrite modedit_is_not_login, !str_eqb_refl. simpl.
      split; [now right|]. split; [eexists; reflexivity|].
      discriminate. }
  rewrite (bind_ok _ _ _ _ _ E3).
  destruct (send_cases w3 (Some sid)
              (mkRequest POST (url ++ lit "/course/modedit.php") []
                 (page_form (scraped SESSKEY_PATTERN (text p3)) course_id
                    title html)))
    as (o4 & w4 & E4 & C4 & _ & T4).
  assert (Hev : events_since w w4
                = page_events url sid course_id title html username password
                    (scraped LOGINTOKEN_PATTERN (text p1))
                    (scraped SESSKEY_PATTERN (text p3)))
    by (apply events_since_app; rewrite T4, T3, T2, T1, T0; unfold page_events;
        now rewrite <- !app_assoc).
  destruct C4 as [[p4 ->] | ->].
  - rewrite (bind_ok _ _ _ _ _ E4). simpl fst. simpl snd.
    rewrite Hev, form_steps_page_events.
    split; [now left|]. split; [exists []; now rewrite app_nil_r|].
    reflexivity.
  - rewrite (bind_raise _ _ _ _ _ E4). simpl fst. simpl snd.
    rewrite Hev, form_steps_page_events.
    split; [now right|]. split; [exists []; now rewrite app_nil_r|].
    discriminate.
Qed.

End PageOutcomes.

Section PageUnchecked.

Context {P : Platform}.

Lemma send_replied f r c n u p t (session : option nat) (rq : request)
    (r' : Remote) (resp : response) :
  http_send r session rq = (r', Replied resp) ->
  send session rq (mkWorld f r c n u p t)
  = (Ok resp, mkWorld f r' (c + Z.of_N (elapsed resp)) n u p
                      (t ++ [EvHttp session rq])).
Proof. intros H. unfold send. cbn [remote]. now rewrite H. Qed.

(** X15. The answers of the site are not inspected.  If the four exchanges
    of a page creation are answered at all, whatever their status codes,
    [_create_page_resource] returns normally; the login form carries the
    login token scraped from the first answer and the page form the session
    key scraped from the third (the empty string where there is none). *)
Theorem page_creation_ignores_answers
    (url : str) (course_id : value) (title html username password : str)
    (w : world) (r1 r2 r3 r4 : Remote) (p1 p2 p3 p4 : response) :
  let sid := Some (next_session w) in
  let logintoken := scraped LOGINTOKEN_PATTERN (text p1) in
  let sesskey := scraped SESSKEY_PATTERN (text p3) in
  http_send (remote w) sid
    (mkRequest GET (url ++ lit "/login/index.php") [] []) = (r1, Replied p1) ->
  http_send r1 sid
    (mkRequest POST (url ++ lit "/login/index.php") []
       (login_form username password logintoken)) = (r2, Replied p2) ->
  http_send r2 sid
    (mkRequest GET (url ++ lit "/course/modedit.php")
       (add_page_params course_id) []) = (r3, Replied p3) ->
  http_send r3 sid
    (mkRequest POST (url ++ lit "/course/modedit.php") []
       (page_form sesskey course_id title html)) = (r4, Replied p4) ->
  let r := _create_page_resource url course_id title html username password w in
  fst r = Ok tt
  /\ remote (snd r) = r4
  /\ events_since w (snd r)
     = page_events url (next_session w) course_id title html username password
         logintoken sesskey.
Proof.
  cbv zeta. intros H1 H2 H3 H4.
  unfold _create_page_resource.
  rewrite (bind_ok requests_Session _ w _ _ eq_refl).
  unfold session_get, session_post.
  destruct w as [f r0 c n u p t]. cbn [next_session remote fs clock DEFAULT_USER DEFAULT_PASS trace] in *.
  rewrite (bind_ok _ _ _ _ _ (send_replied _ _ _ _ _ _ _ _ _ _ _ H1)).
  rewrite (bind_ok _ _ _ _ _ (send_replied _ _ _ _ _ _ _ _ _ _ _ H2)).
  rewrite (bind_ok _ _ _ _ _ (send_replied _ _ _ _ _ _ _ _ _ _ _ H3)).
  rewrite (bind_ok _ _ _ _ _ (send_replied _ _ _ _ _ _ _ _ _ _ _ H4)).
  unfold ret. cbn [fst snd remote].
  split; [reflexivity|]. split; [reflexivity|].
  apply events_since_app. cbn [trace]. unfold page_events.
  now rewrite <- !app_assoc.
Qed.

End PageUnchecked.

Lemma page_creation_ignores_answers_witness :
  let w := Scripted.start []
             [Scripted.page 500 (lit "Internal Server Error");
              Scripted.page 403 (lit "Forbidden");
              Scripted.page 404 (lit "Not Found");
              Scripted.page 500 (lit "Internal Server Error")] [] in
  fst (@_create_page_resource Scripted.platform (lit "http://localhost:8080")
         (VInt 5) (lit "Title") (lit "<p>x</p>") (lit "admin") (lit "pw") w)
  = Ok tt.
Proof.
  intros w.
  exact (proj1 (@page_creation_ignores_answers Scripted.platform
                  (lit "http://localhost:8080") (VInt 5) (lit "Title")
                  (lit "<p>x</p>") (lit "admin") (lit "pw") w
                  _ _ _ _ _ _ _ _ eq_refl eq_refl eq_refl eq_refl)).
Defined.

(** ** Waiting for the site *)

Section PollOutcomes.

Context {P : Platform}.

Lemma login_page_ready_run (url : str) (w : world) :
  exists ready w1,
    login_page_ready url w = (Ok ready, w1)
    /\ (clock w <= clock w1)%Z
    /\ fs w1 = fs w
    /\ trace w1
       = trace w ++ [EvHttp None (mkRequest GET (url ++ lit "/login/index.php") [] [])].
Proof.
  unfold login_page_ready, try_except_when, bind, requests_get, send, ret.
  destruct (http_send _ _ _) as [r' [resp|el]]; simpl;
    eexists _, _; (split; [reflexivity|]); cbn [clock fs trace];
    (split; [lia|]); now split.
Qed.

Lemma wait_loop_outcomes (fuel : nat) (url : str) (deadline : Z) (w : world) :
  (deadline - clock w <= 5000 * Z.of_nat fuel)%Z ->
  let r := wait_loop fuel url deadline w in
  (fst r = Ok tt \/ fst r = Raise TimeoutError)
  /\ (fst r = Raise TimeoutError -> (deadline <= clock (snd r))%Z)
  /\ (fst r = Ok tt ->
      exists evs,
        trace (snd r)
        = trace w ++ evs
            ++ [EvHttp None (mkRequest GET (url ++ lit "/login/index.php") [] []);
                EvPrint PReady])
  /\ fs (snd r) = fs w.
Proof.
  revert w. induction fuel as [|fuel IH]; intros w H.
  - simpl. unfold bind, time_time.
    destruct (clock w <? deadline)%Z eqn:E.
    + apply Z.ltb_lt in E. lia.
    + apply Z.ltb_ge in E. unfold raise. simpl.
      split; [now right|]. split; [intros _; exact E|].
      split; [discriminate | reflexivity].
  - cbv zeta. rewrite wait_loop_S.
    destruct (clock w <? deadline)%Z eqn:E.
    2:{ apply Z.ltb_ge in E. simpl.
        split; [now right|]. split; [intros _; exact E|].
        split; [discriminate | reflexivity]. }
    destruct (login_page_ready_run url w) as (ready & w1 & Ep & Hc & Hf & Ht).
    rewrite (bind_ok _ _ _ _ _ Ep).
    destruct ready.
    + unfold print, emit. simpl.
      split; [now left|]. split; [discriminate|].
      split; [|exact Hf].
      intros _. exists []. rewrite Ht. now rewrite <- app_assoc.
    + set (w2 := mkWorld (fs w1) (remote w1) (clock w1 + 1000 * 5)
                         (next_session w1) (DEFAULT_USER w1) (DEFAULT_PASS w1)
                         ((trace w1 ++ [EvPrint PDot]) ++ [EvSleep 5])).
      change ((print PDot ;;; time_sleep 5 ;;; wait_loop fuel url deadline) w1)
        with (wait_loop fuel url deadline w2).
      assert (H2 : (deadline - clock w2 <= 5000 * Z.of_nat fuel)%Z)
        by (subst w2; cbn [clock]; lia).
      destruct (IH w2 H2) as (Ho & Hto & Hok & Hfs).
      split; [exact Ho|]. split; [exact Hto|].
      split.
      * intros Hr. destruct (Hok Hr) as (evs & He).
        exists ([EvHttp None (mkRequest GET (url ++ lit "/login/index.php") [] []);
                 EvPrint PDot; EvSleep 5] ++ evs).
        rewrite He. subst w2. cbn [trace]. rewrite Ht.
        now rewrite <- !app_assoc.
      * rewrite Hfs. subst w2. cbn [fs]. exact Hf.
Qed.

(** X16. [wait_for_moodle] ends in one of two ways: it returns, and then
    the last thing it did was a GET of the login page followed by the
    "ready" message; or it raises [TimeoutError], and then the clock has
    reached the deadline, [timeout] seconds after the start.  A failing
    request never escapes it, and it changes no file. *)
Theorem wait_for_moodle_outcomes (url : str) (timeout : Z) (w : world) :
  let r := wait_for_moodle url timeout w in
  (fst r = Ok tt \/ fst r = Raise TimeoutError)
  /\ (fst r = Raise TimeoutError ->
      (clock w + 1000 * timeout <= clock (snd r))%Z)
  /\ (fst r = Ok tt ->
      exists evs,
        events_since w (snd r)
        = EvPrint (PWaiting url) :: evs
            ++ [EvHttp None (mkRequest GET (url ++ lit "/login/index.php") [] []);
                EvPrint PReady])
  /\ fs (snd r) = fs w.
Proof.
  cbv zeta.
  set (w0 := mkWorld (fs w) (remote w) (clock w) (next_session w)
                     (DEFAULT_USER w) (DEFAULT_PASS w)
                     (trace w ++ [EvPrint (PWaiting url)])).
  change (wait_for_moodle url timeout w)
    with (wait_loop (S (Z.to_nat (timeout / 5))) url
            (clock w0 + 1000 * timeout) w0).
  assert (H0 : (clock w0 + 1000 * timeout - clock w0
                <= 5000 * Z.of_nat (S (Z.to_nat (timeout / 5))))%Z).
  { destruct (Z.le_gt_cases 0 timeout) as [Hpos|Hneg].
    - pose proof (Z.mod_pos_bound timeout 5 ltac:(lia)).
      pose proof (Z.div_mod timeout 5 ltac:(lia)).
      assert (0 <= timeout / 5)%Z by (apply Z.div_pos; lia).
      lia.
    - lia. }
  destruct (wait_loop_outcomes _ url _ w0 H0) as (Ho & Hto & Hok & Hfs).
  split; [exact Ho|]. split; [exact Hto|]. split; [|exact Hfs].
  intros Hr. destruct (Hok Hr) as (evs & He). exists evs.
  apply events_since_app. rewrite He. subst w0. cbn [trace].
  now rewrite <- app_assoc.
Qed.

End PollOutcomes.

(** ** Minting a token *)

Lemma splitlines_aux_no_break (s cur : str) (after_cr : bool) :
  forallb (fun c => negb (is_linebreak c)) cur = true ->
  Forall (fun l => forallb (fun c => negb (is_linebreak c)) l = true)
         (splitlines_aux s cur after_cr).
Proof.
  assert (Hrev : forall l : str,
             forallb (fun c => negb (is_linebreak c)) l = true ->
             forallb (fun c => negb (is_linebreak c)) (rev l) = true).
  { intros l H. rewrite forallb_forall in *. intros x Hx.
    apply H. now apply in_rev. }
  revert cur after_cr. induction s as [|c s IH]; intros cur after_cr Hcur; simpl.
  - destruct cur; constructor; [now apply Hrev | constructor].
  - destruct ((c =? 10)%N && after_cr); [now apply IH|].
    destruct (is_linebreak c) eqn:E.
    + constructor; [now apply Hrev | now apply IH].
    + apply IH. simpl. now rewrite E.
Qed.

Lemma last_item_in (ls : list str) (l : str) : last_item ls = Val l -> In l ls.
Proof.
  unfold last_item. destruct (rev ls) as [|x xs] eqn:E; [discriminate|].
  intros H. injection H as <-. apply in_rev. rewrite E. now left.
Qed.

(** A line of [splitlines] that passes the token pattern is exactly 32
    lower-case hexadecimal digits: the newline [$] would tolerate cannot be
    there. *)
Lemma line_token_shape (out t : str) :
  last_item (splitlines (strip out)) = Val t ->
  is_token t = true ->
  length t = 32%nat /\ forallb is_lower_hex t = true.
Proof.
  intros Hl Ht. apply last_item_in in Hl.
  pose proof (splitlines_aux_no_break (strip out) [] false eq_refl) as Hall.
  rewrite Forall_forall in Hall. specialize (Hall t Hl).
  unfold is_token in Ht.
  apply andb_prop in Ht as [Ht H3]. apply andb_prop in Ht as [H1 H2].
  apply Nat.eqb_eq in H2.
  assert (Hs : skipn 32 t = []).
  { destruct (skipn 32 t) as [|c [|d rest]] eqn:E; [reflexivity| |discriminate].
    apply N.eqb_eq in H3. subst c.
    assert (Hin : In 10%N t)
      by (rewrite <- (firstn_skipn 32 t), E; apply in_or_app; right; now left).
    rewrite forallb_forall in Hall. specialize (Hall _ Hin). discriminate. }
  rewrite <- (firstn_skipn 32 t), Hs, app_nil_r. now split.
Qed.

Lemma strip_blank (s : str) : forallb isspace s = true -> strip s = [].
Proof.
  intros H. unfold strip, rstrip.
  assert (L : lstrip s = []).
  { induction s as [|c s IH]; [reflexivity|]. simpl in *.
    apply andb_prop in H as [Hc Hs]. rewrite Hc. now apply IH. }
  now rewrite L.
Qed.

Section Mint.

Context {P : Platform}.

(** The two command lines of [setup_moodle_webservices]. *)
Lemma setup_moodle_webservices_cases (container : str) (w : world) :
  let r := setup_moodle_webservices container w in
  ((exists t argv1 argv2,
       fst r = Ok t
       /\ length t = 32%nat /\ forallb is_lower_hex t = true
       /\ events_since w (snd r)
          = [EvPrint PSetupStart; EvExec argv1; EvExec argv2;
             EvPrint (PSetupDone t)])
   \/ (exists stderr, fst r = Raise (RuntimeError (DockerExecFailed stderr)))
   \/ (exists out, fst r = Raise (RuntimeError (UnexpectedPhpOutput out))
                   /\ strip out <> [])
   \/ fst r = Raise IndexError
   \/ fst r = Raise OSError
   \/ fst r = Raise UnicodeDecodeError)
  /\ fs (snd r) = fs w.
Proof.
  cbv zeta. remember (setup_moodle_webservices container w) as r eqn:Er.
  unfold setup_moodle_webservices, try_except_when, bind, print, emit,
    subprocess_run, subprocess_run_text in Er.
  cbn [remote fs clock next_session DEFAULT_USER DEFAULT_PASS trace] in Er.
  destruct (docker_exec (remote w) _) as [r1 [o1|e1| |[|e1]]].
  2,3,5: (subst r; cbn [fst snd fs]; split; [|reflexivity];
          first [ right; left; now eexists | do 4 right; left; reflexivity ]).
  all: cbn [remote fs clock next_session DEFAULT_USER DEFAULT_PASS trace] in Er.
  all: destruct (docker_exec r1 _) as [r2 [out|e2| |st]].
  all: try (subst r; cbn [fst snd fs]; split; [|reflexivity];
            first [ right; left; now eexists
                  | do 4 right; left; reflexivity
                  | do 5 right; reflexivity ]).
  all: destruct (last_item (splitlines (strip out))) as [t|e] eqn:EL.
  all: try (unfold last_item in EL; destruct (rev _); [|discriminate];
            injection EL as <-; cbn [lift] in Er; unfold raise in Er;
            subst r; cbn [fst snd fs]; split; [|reflexivity];
            do 3 right; left; reflexivity).
  all: cbn [lift] in Er; unfold ret at 1 in Er.
  all: destruct (is_token t) eqn:Et; cbn [negb] in Er.
  all: try (unfold raise in Er; subst r; cbn [fst snd fs]; split; [|reflexivity];
            right; right; left; exists out; split; [reflexivity|];
            intros Hs; rewrite Hs in EL; discriminate).
  all: destruct (line_token_shape out t EL Et) as [Hlen Hhex].
  all: unfold ret in Er; subst r; cbn [fst snd fs]; split; [|reflexivity].
  all: left; eexists t, _, _; split; [reflexivity|]; split; [exact Hlen|];
       split; [exact Hhex|]; apply events_since_app; cbn [trace];
       rewrite <- !app_assoc; reflexivity.
Qed.

(** What [setup_moodle_webservices] returns is a well-formed token, and it
    has run docker for it. *)
Lemma setup_returns_token (container : str) (w w' : world) (t : str) :
  setup_moodle_webservices container w = (Ok t, w') ->
  length t = 32%nat /\ forallb is_lower_hex t = true
  /\ existsb is_exec (events_since w w') = true.
Proof.
  intros H. destruct (setup_moodle_webservices_cases container w) as [C _].
  rewrite H in C. cbn [fst snd] in C.
  destruct C as [(t' & ? & ? & Ht & Hl & Hh & He)
                | [(? & Hx) | [(? & Hx & _) | [Hx | [Hx | Hx]]]]];
    try discriminate.
  injection Ht as <-. rewrite He. now repeat split.
Qed.

(** The second command line, once the first has run. *)
Lemma setup_second_run (container : str) (w : world) (r1 : Remote) (o1 : str) :
  docker_exec (remote w)
    [ lit "docker"; lit "exec"; container; lit "bash"; lit "-c";
      lit "cat > " ++ lit "/tmp/mtat_setup.php" ++ lit " << 'PHPEOF'"
        ++ [LF] ++ MOODLE_CLI_SCRIPT ++ [LF] ++ lit "PHPEOF" ]
  = (r1, Completed o1) ->
  forall r2 rep,
    docker_exec r1
      [ lit "docker"; lit "exec"; container; lit "php";
        lit "/tmp/mtat_setup.php" ]
    = (r2, rep) ->
    fst (setup_moodle_webservices container w)
    = match rep with
      | Completed out =>
          match last_item (splitlines (strip out)) with
          | Val t => if is_token t then Ok t
                     else Raise (RuntimeError (UnexpectedPhpOutput out))
          | Err e => Raise e
          end
      | NonZeroExit err => Raise (RuntimeError (DockerExecFailed err))
      | NotLaunched => Raise OSError
      | OutputNotText _ => Raise UnicodeDecodeError
      end.
Proof.
  intros E1 r2 rep E2.
  unfold setup_moodle_webservices, try_except_when, bind, print, emit,
    subprocess_run, subprocess_run_text.
  cbn [remote fs clock next_session DEFAULT_USER DEFAULT_PASS trace].
  rewrite E1.
  cbn [remote fs clock next_session DEFAULT_USER DEFAULT_PASS trace].
  rewrite E2.
  destruct rep as [out|e2| |st]; try reflexivity.
  destruct (last_item (splitlines (strip out))) as [t|e] eqn:EL.
  - cbn [lift]. unfold ret at 1. destruct (is_token t); reflexivity.
  - unfold last_item in EL. destruct (rev _); [|discriminate].
    injection EL as <-. reflexivity.
Qed.

(** X17. [setup_moodle_webservices] returns only a well-formed token:
    exactly 32 lower-case hexadecimal digits, after exactly the two
    [docker exec] runs.  Otherwise it raises: [RuntimeError] for a run that
    exits non-zero or for output whose last line is not a token,
    [IndexError] when the script prints nothing but white space,
    [UnicodeDecodeError] when what the script printed is not valid text,
    [OSError] when docker cannot be started.  It changes no file. *)
Theorem setup_moodle_webservices_outcomes (container : str) (w : world) :
  let r := setup_moodle_webservices container w in
  ((exists t argv1 argv2,
       fst r = Ok t
       /\ length t = 32%nat /\ forallb is_lower_hex t = true
       /\ events_since w (snd r)
          = [EvPrint PSetupStart; EvExec argv1; EvExec argv2;
             EvPrint (PSetupDone t)])
   \/ (exists stderr, fst r = Raise (RuntimeError (DockerExecFailed stderr)))
   \/ (exists out, fst r = Raise (RuntimeError (UnexpectedPhpOutput out))
                   /\ strip out <> [])
   \/ fst r = Raise IndexError
   \/ fst r = Raise OSError
   \/ fst r = Raise UnicodeDecodeError)
  /\ fs (snd r) = fs w
  /\ (forall r1 o1 r2 rep,
        docker_exec (remote w)
          [ lit "docker"; lit "exec"; container; lit "bash"; lit "-c";
            lit "cat > " ++ lit "/tmp/mtat_setup.php" ++ lit " << 'PHPEOF'"
              ++ [LF] ++ MOODLE_CLI_SCRIPT ++ [LF] ++ lit "PHPEOF" ]
        = (r1, Completed o1) ->
        docker_exec r1
          [ lit "docker"; lit "exec"; container; lit "php";
            lit "/tmp/mtat_setup.php" ]
        = (r2, rep) ->
        (forall out, rep = Completed out -> forallb isspace out = true ->
                     fst r = Raise IndexError)
        /\ (forall status, rep = OutputNotText status ->
                           fst r = Raise UnicodeDecodeError)).
Proof.
  cbv zeta. destruct (setup_moodle_webservices_cases container w) as [C F].
  split; [exact C|]. split; [exact F|].
  intros r1 o1 r2 rep E1 E2.
  rewrite (setup_second_run container w r1 o1 E1 r2 rep E2).
  split.
  - intros out -> Hb. now rewrite (strip_blank out Hb).
  - intros status ->. reflexivity.
Qed.

End Mint.

(** ** What a run writes *)

Section Quiet.

Context {P : Platform}.
Variable ok : event -> bool.

Lemma quiet_unit {A} (o : outcome A) : quiet ok (fun w => (o, w)).
Proof. intros w. split; [reflexivity|]. exists []. simpl. now rewrite app_nil_r. Qed.

Lemma quiet_ret {A} (a : A) : quiet ok (ret a).
Proof. apply quiet_unit. Qed.

Lemma quiet_raise {A} (e : exn) : quiet ok (@raise P A e).
Proof. apply quiet_unit. Qed.

Lemma quiet_sys_exit {A} (c : Z) : quiet ok (@sys_exit P A c).
Proof. apply quiet_unit. Qed.

Lemma quiet_lift {A} (r : res A) : quiet ok (lift r).
Proof. destruct r; apply quiet_unit. Qed.

Lemma quiet_get {A} (f : world -> A) : quiet ok (fun w => (Ok (f w), w)).
Proof. intros w. split; [reflexivity|]. exists []. simpl. now rewrite app_nil_r. Qed.

Lemma quiet_bind {A B} (m : M A) (k : A -> M B) :
  quiet ok m -> (forall a, quiet ok (k a)) -> quiet ok (bind m k).
Proof.
  intros Hm Hk w. destruct (Hm w) as (F1 & e1 & H1 & O1). unfold bind.
  destruct (m w) as [[a | e | c] w1]; simpl in F1, H1.
  - destruct (Hk a w1) as (F2 & e2 & H2 & O2). split; [congruence|].
    exists (e1 ++ e2). rewrite H2, H1, app_assoc, forallb_app, O1, O2. now split.
  - split; [exact F1|]. exists e1. now split.
  - split; [exact F1|]. exists e1. now split.
Qed.

Lemma quiet_try_except {A} (m : M A) (h : exn -> M A) :
  quiet ok m -> (forall e, quiet ok (h e)) -> quiet ok (try_except m h).
Proof.
  intros Hm Hh w. destruct (Hm w) as (F1 & e1 & H1 & O1). unfold try_except.
  destruct (m w) as [[a | e | c] w1]; simpl in F1, H1;
    try (split; [exact F1|]; exists e1; now split).
  destruct (Hh e w1) as (F2 & e2 & H2 & O2). split; [congruence|].
  exists (e1 ++ e2). rewrite H2, H1, app_assoc, forallb_app, O1, O2. now split.
Qed.

Lemma quiet_try_except_when {A} (m : M A) (h : exn -> option (M A)) :
  quiet ok m -> (forall e k, h e = Some k -> quiet ok k) ->
  quiet ok (try_except_when m h).
Proof.
  intros Hm Hh w. destruct (Hm w) as (F1 & e1 & H1 & O1). unfold try_except_when.
  destruct (m w) as [[a | e | c] w1]; simpl in F1, H1;
    try (split; [exact F1|]; exists e1; now split).
  destruct (h e) as [k|] eqn:E; [|split; [exact F1|]; exists e1; now split].
  destruct (Hh e k E w1) as (F2 & e2 & H2 & O2). split; [congruence|].
  exists (e1 ++ e2). rewrite H2, H1, app_assoc, forallb_app, O1, O2. now split.
Qed.

Lemma quiet_emit (e : event) : ok e = true -> quiet ok (emit e).
Proof.
  intros H w. split; [reflexivity|]. exists [e]. simpl. rewrite H. now split.
Qed.

Lemma quiet_send (session : option nat) (rq : request) :
  ok (EvHttp session rq) = true -> quiet ok (send session rq).
Proof.
  intros H w. unfold send.
  destruct (http_send _ _ _) as [r' [resp|el]]; simpl;
    (split; [reflexivity|]); exists [EvHttp session rq]; simpl; rewrite H;
    now split.
Qed.

Lemma quiet_subprocess_run (argv : list str) :
  ok (EvExec argv) = true -> quiet ok (subprocess_run argv).
Proof.
  intros H w. unfold subprocess_run.
  destruct (docker_exec _ _) as [r' [out|err| |[|err]]]; simpl;
    (split; [reflexivity|]); exists [EvExec argv]; simpl; rewrite H; now split.
Qed.

Lemma quiet_subprocess_run_text (argv : list str) :
  ok (EvExec argv) = true -> quiet ok (subprocess_run_text argv).
Proof.
  intros H w. unfold subprocess_run_text.
  destruct (docker_exec _ _) as [r' [out|err| |st]]; simpl;
    (split; [reflexivity|]); exists [EvExec argv]; simpl; rewrite H; now split.
Qed.

Lemma quiet_time_sleep (seconds : Z) :
  ok (EvSleep seconds) = true -> quiet ok (time_sleep seconds).
Proof.
  intros H w. split; [reflexivity|]. exists [EvSleep seconds]. simpl.
  rewrite H. now split.
Qed.

Lemma quiet_path_exists (p : Path) :
  ok (EvStat p) = true -> quiet ok (path_exists p).
Proof.
  intros H. unfold path_exists. apply quiet_bind; [now apply quiet_emit|].
  intros _. apply quiet_get.
Qed.

Lemma quiet_read_text (p : Path) :
  ok (EvRead p) = true -> quiet ok (read_text p).
Proof.
  intros H. unfold read_text. apply quiet_bind; [now apply quiet_emit|].
  intros _ w. destruct (fs_read_text _ _); [|destruct (fs_read_error _ _)];
    apply quiet_unit.
Qed.

Lemma quiet_requests_Session :
  (forall n, ok (EvSession n) = true) -> quiet ok requests_Session.
Proof.
  intros H w. split; [reflexivity|]. exists [EvSession (next_session w)].
  simpl. rewrite H. now split.
Qed.

Lemma quiet_for_each {A} (l : list A) (body : A -> M unit) :
  (forall x, quiet ok (body x)) -> quiet ok (for_each l body).
Proof.
  intros H. induction l as [|x l IH]; simpl; [apply quiet_ret|].
  apply quiet_bind; [apply H | intros _; exact IH].
Qed.

End Quiet.

Ltac quiet_go :=
  repeat first
    [ apply quiet_ret | apply quiet_raise | apply quiet_sys_exit
    | apply quiet_lift
    | apply quiet_emit; reflexivity
    | apply quiet_send; reflexivity
    | apply quiet_subprocess_run; reflexivity
    | apply quiet_subprocess_run_text; reflexivity
    | apply quiet_path_exists; reflexivity
    | apply quiet_read_text; reflexivity
    | apply quiet_time_sleep; reflexivity
    | apply quiet_requests_Session; intros; reflexivity
    | apply quiet_get
    | apply quiet_bind; [|intros ?]
    | match goal with
      | |- quiet _ (if ?b then _ else _) => destruct b
      | |- quiet _ (match ?x with _ => _ end) => destruct x
      end ].

Section QuietProgram.

Context {P : Platform}.

Lemma writes_app (a b : list event) : writes (a ++ b) = writes a ++ writes b.
Proof. unfold writes. apply flat_map_app. Qed.

Lemma no_write_writes (evs : list event) :
  forallb no_write evs = true -> writes evs = [].
Proof.
  induction evs as [|e evs IH]; [reflexivity|]. simpl.
  intros H. apply andb_prop in H as [He Hs]. rewrite (IH Hs).
  destruct e; try reflexivity. discriminate.
Qed.

Lemma no_write_no_exec_weaken (evs : list event) :
  forallb no_write_no_exec evs = true -> forallb no_write evs = true.
Proof.
  induction evs as [|e evs IH]; [reflexivity|]. simpl.
  intros H. apply andb_prop in H as [He Hs]. rewrite (IH Hs).
  destruct e; try reflexivity. discriminate.
Qed.

Lemma quiet_wait_loop (fuel : nat) (url : str) (deadline : Z) :
  quiet no_write (wait_loop fuel url deadline).
Proof.
  induction fuel as [|fuel IH]; simpl.
  - quiet_go.
  - apply quiet_bind; [apply quiet_get|]. intros now.
    destruct (now <? deadline)%Z; [|apply quiet_raise].
    apply quiet_bind.
    + unfold login_page_ready. apply quiet_try_except_when.
      * unfold requests_get. quiet_go.
      * intros e k. destruct (is_RequestException e); [|discriminate].
        intros H. injection H as <-. apply quiet_ret.
    + intros [|].
      * now apply quiet_emit.
      * apply quiet_bind; [now apply quiet_emit|]. intros _.
        apply quiet_bind; [now apply quiet_time_sleep|]. intros _. exact IH.
Qed.

Lemma quiet_wait_for_moodle (url : str) (timeout : Z) :
  quiet no_write (wait_for_moodle url timeout).
Proof.
  unfold wait_for_moodle.
  apply quiet_bind; [now apply quiet_emit|]. intros _.
  apply quiet_bind; [apply quiet_get|]. intros now.
  apply quiet_wait_loop.
Qed.

Lemma quiet_setup_moodle_webservices (container : str) :
  quiet no_write (setup_moodle_webservices container).
Proof.
  unfold setup_moodle_webservices.
  apply quiet_bind; [now apply quiet_emit|]. intros _.
  apply quiet_try_except_when.
  - apply quiet_bind; [now apply quiet_subprocess_run|]. intros _.
    apply quiet_bind; [now apply quiet_subprocess_run_text|]. intros out.
    apply quiet_bind; [apply quiet_lift|]. intros token.
    destruct (negb (is_token token)); [apply quiet_raise|].
    apply quiet_bind; [now apply quiet_emit|]. intros _. apply quiet_ret.
  - intros e k. destruct e; try discriminate.
    intros H. injection H as <-. apply quiet_raise.
Qed.

Lemma quiet_api (url token function : str) (params : dict) :
  quiet no_write_no_exec (api url token function params).
Proof.
  unfold api, requests_post, raise_for_status, response_json. quiet_go.
Qed.

Lemma quiet_ensure_course (url token cid ttl : str) :
  quiet no_write_no_exec (ensure_course url token cid ttl).
Proof.
  unfold ensure_course.
  apply quiet_bind; [apply quiet_api|]. intros existing.
  apply quiet_bind; [apply quiet_lift|]. intros courses.
  destruct (truthy courses).
  - quiet_go.
  - apply quiet_bind; [apply quiet_api|]. intros created. quiet_go.
Qed.

Lemma quiet_create_page_resource
    (url : str) (course_id : value) (title html username password : str) :
  quiet no_write_no_exec
    (_create_page_resource url course_id title html username password).
Proof.
  unfold _create_page_resource, session_get, session_post. quiet_go.
Qed.

Lemma quiet_upload_variant
    (url : str) (course_moodle_id module_title : value) (manifest_dir : Path)
    (variant : value) :
  quiet no_write_no_exec
    (upload_variant url course_moodle_id module_title manifest_dir variant).
Proof.
  unfold upload_variant.
  apply quiet_bind; [apply quiet_lift|]. intros output_file.
  apply quiet_bind; [apply quiet_lift|]. intros variant_path.
  apply quiet_bind; [now apply quiet_path_exists|]. intros found.
  destruct (negb found); [now apply quiet_emit|].
  apply quiet_bind; [now apply quiet_read_text|]. intros raw.
  apply quiet_bind; [apply quiet_lift|]. intros audience.
  apply quiet_bind; [apply quiet_lift|]. intros locale.
  apply quiet_bind; [apply quiet_get|]. intros user.
  apply quiet_bind; [apply quiet_get|]. intros pass.
  apply quiet_bind; [apply quiet_create_page_resource|]. intros _.
  now apply quiet_emit.
Qed.

Lemma quiet_upload_variants_to_book
    (url token : str) (course_moodle_id module_title : value)
    (variants : list value) (manifest_dir : Path) :
  quiet no_write_no_exec
    (upload_variants_to_book url token course_moodle_id module_title variants
       manifest_dir).
Proof.
  unfold upload_variants_to_book.
  apply quiet_bind; [now apply quiet_emit|]. intros _.
  apply quiet_bind; [|intros _; now apply quiet_emit].
  apply quiet_for_each. intros v. apply quiet_upload_variant.
Qed.

Lemma quiet_load_manifest (manifest_path : Path) :
  quiet no_write_no_exec (load_manifest manifest_path).
Proof.
  unfold load_manifest, yaml_load.
  apply quiet_bind; [now apply quiet_path_exists|]. intros found.
  destruct (negb found); quiet_go.
Qed.

Lemma quiet_main_verify_token (a : args) (token : str) :
  quiet no_write_no_exec (main_verify_token a token).
Proof.
  unfold main_verify_token. apply quiet_try_except.
  - apply quiet_bind; [apply quiet_api|]. intros site. quiet_go.
  - intros e. quiet_go.
Qed.

Lemma quiet_main_module (a : args) (token : str) (manifest_dir : Path)
    (moodle_course_id : value) (m : value * list value) :
  quiet no_write_no_exec (main_module a token manifest_dir moodle_course_id m).
Proof.
  unfold main_module. destruct m as [module_id variants].
  apply quiet_bind; [|intros ttl; apply quiet_upload_variants_to_book].
  destruct variants as [|v0 rest]; [apply quiet_ret|].
  unfold yaml_load.
  apply quiet_bind; [apply quiet_lift|]. intros mp.
  apply quiet_bind; [apply quiet_lift|]. intros meta_dir.
  apply quiet_bind; [now apply quiet_path_exists|]. intros found.
  destruct found; quiet_go.
Qed.

Lemma quiet_main_course (a : args) (token : str) (manifest_dir : Path)
    (c : str * course) :
  quiet no_write_no_exec (main_course a token manifest_dir c).
Proof.
  unfold main_course. destruct c as [course_id course_data].
  apply quiet_bind; [now apply quiet_emit|]. intros _.
  apply quiet_bind; [apply quiet_ensure_course|]. intros mid.
  apply quiet_for_each. intros m. apply quiet_main_module.
Qed.

(** [main] is the token resolution followed by a part that writes no file
    and runs no process. *)
Lemma main_after_token (a : args) :
  exists rest : str -> M unit,
    (forall w, main a w = bind (main_token_resolution a) rest (patch_defaults a w))
    /\ forall token, quiet no_write_no_exec (rest token).
Proof.
  eexists. split.
  - intros w. unfold main. unfold bind at 1. unfold patch_defaults. reflexivity.
  - intros token. cbv beta.
    destruct (args_get_token a); [now apply quiet_emit|].
    apply quiet_bind; [apply quiet_main_verify_token|]. intros _.
    apply quiet_bind; [apply quiet_load_manifest|]. intros entries.
    destruct entries as [|e0 entries]; [quiet_go|].
    apply quiet_bind.
    + destruct (opt_truthy (args_course_id a)); [|apply quiet_ret].
      apply quiet_bind; [apply quiet_lift|]. intros kept.
      destruct kept; quiet_go.
    + intros entries'.
      apply quiet_bind; [apply quiet_lift|]. intros courses.
      apply quiet_bind; [now apply quiet_emit|]. intros _.
      apply quiet_bind.
      * apply quiet_for_each. intros c. apply quiet_main_course.
      * intros _. quiet_go.
Qed.

End QuietProgram.

Section TokenCache.

Context {P : Platform}.

(** What the token resolution writes: nothing, or the token it minted,
    once, into the cache file. *)
Lemma token_resolution_cases (a : args) (w : world) :
  let r := main_token_resolution a w in
  exists evs,
    trace (snd r) = trace w ++ evs
    /\ ((writes evs = [] /\ fs (snd r) = fs w
         /\ forall t, fst r = Ok t -> args_setup_moodle a = false)
        \/ exists t,
             writes evs = [(TOKEN_CACHE_FILE, t)]
             /\ existsb is_exec evs = true
             /\ length t = 32%nat /\ forallb is_lower_hex t = true
             /\ ((fs_write_text (fs w) TOKEN_CACHE_FILE t = Some (fs (snd r))
                  /\ fst r = Ok t)
                 \/ (fs_write_text (fs w) TOKEN_CACHE_FILE t = None
                     /\ fs (snd r) = fs w /\ fst r = Raise OSError))).
Proof.
  cbv zeta. remember (main_token_resolution a w) as r eqn:Er.
  unfold main_token_resolution in Er.
  match type of Er with
  | _ = bind ?m ?k w =>
      assert (Q1 : quiet no_write m);
      [ | destruct (Q1 w) as (F1 & e1 & T1 & O1); unfold bind at 1 in Er;
          destruct (m w) as [[tok|e|c] w1] ]
  end.
  { destruct (negb (opt_truthy (args_token a))); [|apply quiet_ret].
    apply quiet_bind; [now apply quiet_path_exists|]. intros cached.
    destruct cached; [|apply quiet_ret].
    apply quiet_bind; [now apply quiet_read_text|]. intros t. apply quiet_ret. }
  2,3: (subst r; cbn [fst snd] in *; exists e1; split; [exact T1|]; left;
        split; [now apply no_write_writes|]; split; [exact F1|]; discriminate).
  cbn [fst snd] in F1, T1.
  destruct (negb (opt_truthy tok) || args_setup_moodle a) eqn:Ec.
  2:{ subst r. unfold ret. cbn [fst snd]. exists e1. split; [exact T1|]. left.
      split; [now apply no_write_writes|]. split; [exact F1|].
      intros _ _. now apply orb_false_elim in Ec. }
  destruct (quiet_wait_for_moodle (args_url a) 180 w1) as (F2 & e2 & T2 & O2).
  unfold bind at 1 in Er.
  destruct (wait_for_moodle (args_url a) 180 w1) as [[[]|e|c] w2].
  2,3: (subst r; cbn [fst snd] in *; exists (e1 ++ e2);
        split; [now rewrite T2, T1, app_assoc|]; left;
        split; [rewrite writes_app, !no_write_writes by assumption; reflexivity|];
        split; [congruence|]; discriminate).
  cbn [fst snd] in F2, T2.
  destruct (quiet_setup_moodle_webservices (lit "mtat-moodle") w2)
    as (F3 & e3 & T3 & O3).
  pose proof (setup_returns_token (lit "mtat-moodle") w2) as C3.
  unfold bind at 1 in Er.
  destruct (setup_moodle_webservices (lit "mtat-moodle") w2) as [[t|e|c] w3].
  2,3: (subst r; cbn [fst snd] in *; exists (e1 ++ e2 ++ e3);
        split; [now rewrite T3, T2, T1, !app_assoc|]; left;
        split; [rewrite !writes_app, !no_write_writes by assumption; reflexivity|];
        split; [congruence|]; discriminate).
  cbn [fst snd] in F3, T3.
  destruct (C3 w3 t eq_refl) as (Hlen & Hhex & Hexec).
  rewrite (events_since_app w2 w3 e3 T3) in Hexec.
  assert (Fw : fs w3 = fs w) by congruence.
  unfold write_text, bind, print, emit, ret in Er.
  cbn [fs remote clock next_session DEFAULT_USER DEFAULT_PASS trace] in Er.
  rewrite Fw in Er.
  destruct (fs_write_text (fs w) TOKEN_CACHE_FILE t) as [f'|] eqn:Ew.
  - subst r. cbn [fst snd fs trace].
    exists (e1 ++ e2 ++ e3 ++ [EvWrite TOKEN_CACHE_FILE t; EvPrint PTokenCached]).
    split; [rewrite T3, T2, T1, <- !app_assoc; reflexivity|].
    right. exists t.
    split; [rewrite !writes_app, !no_write_writes by assumption; reflexivity|].
    split; [rewrite !existsb_app, Hexec, !Bool.orb_true_r; reflexivity|].
    split; [exact Hlen|]. split; [exact Hhex|]. left. now split.
  - subst r. cbn [fst snd fs trace].
    exists (e1 ++ e2 ++ e3 ++ [EvWrite TOKEN_CACHE_FILE t]).
    split; [rewrite T3, T2, T1, <- !app_assoc; reflexivity|].
    right. exists t.
    split; [rewrite !writes_app, !no_write_writes by assumption; reflexivity|].
    split; [rewrite !existsb_app, Hexec, !Bool.orb_true_r; reflexivity|].
    split; [exact Hlen|]. split; [exact Hhex|]. right.
    split; [exact Ew|]. split; reflexivity.
Qed.

End TokenCache.

(** ** Which token is used *)

Section TokenPrecedence.

Context {P : Platform}.



End TokenPrecedence.




Section RunWrites.

Context {P : Platform}.

(** X18. The only file a run of [main] can write is the token cache, and
    only with a token it has just minted (32 hexadecimal digits), at most
    once; the ledger, the variants and the metadata files are never
    changed.  Either nothing was written and the files are as before, or
    the files are those of before with that one write (if the write itself
    failed, they are as before). *)
Theorem main_writes_only_token_cache (a : args) (w : world) :
  let w' := snd (main a w) in
  let evs := events_since w w' in
  (writes evs = [] /\ fs w' = fs w)
  \/ exists t,
       writes evs = [(TOKEN_CACHE_FILE, t)]
       /\ length t = 32%nat /\ forallb is_lower_hex t = true
       /\ (fs_write_text (fs w) TOKEN_CACHE_FILE t = Some (fs w')
           \/ (fs_write_text (fs w) TOKEN_CACHE_FILE t = None /\ fs w' = fs w)).
Proof.
  cbv zeta. destruct (main_after_token a) as (rest & Hm & Hq). rewrite Hm.
  destruct (token_resolution_cases a (patch_defaults a w)) as (e1 & T1 & C).
  unfold bind.
  destruct (main_token_resolution a (patch_defaults a w)) as [[t|e|c] w1];
    cbn [fst snd] in *.
  - destruct (Hq t w1) as (F2 & e2 & T2 & O2).
    apply no_write_no_exec_weaken in O2.
    assert (E : events_since w (snd (rest t w1)) = e1 ++ e2)
      by (apply events_since_app; rewrite T2, T1; cbn [trace patch_defaults];
          now rewrite app_assoc).
    rewrite E, writes_app, (no_write_writes e2 O2), app_nil_r, F2.
    destruct C as [(W & F & _) | (t' & W & _ & L & H & [[F _] | (F & F' & _)])].
    + left. now split.
    + right. exists t'. repeat split; try assumption. now left.
    + right. exists t'. repeat split; try assumption. right. now split.
  - rewrite (events_since_app w w1 e1) by exact T1.
    destruct C as [(W & F & _) | (t' & W & _ & L & H & [[F _] | (F & F' & _)])].
    + left. now split.
    + right. exists t'. repeat split; try assumption. now left.
    + right. exists t'. repeat split; try assumption. right. now split.
  - rewrite (events_since_app w w1 e1) by exact T1.
    destruct C as [(W & F & _) | (t' & W & _ & L & H & [[F _] | (F & F' & _)])].
    + left. now split.
    + right. exists t'. repeat split; try assumption. now left.
    + right. exists t'. repeat split; try assumption. right. now split.
Qed.

(** X19. Given a non-empty [--token] and no [--setup-moodle], a whole run
    of [main], however it ends, writes no file and starts no process: the
    files are as before and docker is never called. *)
Theorem explicit_token_run_is_read_only (a : args) (w : world) :
  opt_truthy (args_token a) = true ->
  args_setup_moodle a = false ->
  let w' := snd (main a w) in
  fs w' = fs w
  /\ forallb no_write_no_exec (events_since w w') = true.
Proof.
  intros Ht Hs. cbv zeta.
  destruct (main_after_token a) as (rest & Hm & Hq). rewrite Hm.
  assert (E : main_token_resolution a (patch_defaults a w)
              = (Ok (match args_token a with Some t => t | None => [] end),
                 patch_defaults a w)).
  { unfold main_token_resolution. rewrite Ht. cbn [negb].
    unfold bind at 1, ret at 1. rewrite Ht, Hs. reflexivity. }
  rewrite (bind_ok _ _ _ _ _ E).
  destruct (Hq (match args_token a with Some t => t | None => [] end)
               (patch_defaults a w)) as (F2 & e2 & T2 & O2).
  split; [exact F2|].
  now rewrite (events_since_app w _ e2) by exact T2.
Qed.

End RunWrites.

Lemma explicit_token_run_is_read_only_witness :
  let a := Demo.cli (Some Demo.VALID_TOKEN) false in
  let w := Demo.world0 Demo.disk in
  fs (snd (@main Demo.platform a w)) = fs w
  /\ forallb no_write_no_exec (events_since w (snd (@main Demo.platform a w)))
     = true.
Proof.
  intros a w.
  exact (@explicit_token_run_is_read_only Demo.platform a w eq_refl eq_refl).
Defined.

(** ** The cached token comes back *)

Lemma hex_not_space (c : char) : is_lower_hex c = true -> isspace c = false.
Proof.
  unfold is_lower_hex, isspace. intros H.
  apply Bool.orb_true_iff in H.
  rewrite !Bool.andb_true_iff, !N.leb_le in H.
  repeat (apply Bool.orb_false_iff; split);
    try (apply Bool.andb_false_iff; rewrite !N.leb_gt; lia);
    try (apply N.eqb_neq; lia).
Qed.

Lemma lstrip_hex (t : str) : forallb is_lower_hex t = true -> lstrip t = t.
Proof.
  destruct t as [|c t]; [reflexivity|]. simpl. intros H.
  apply andb_prop in H as [Hc _]. now rewrite (hex_not_space c Hc).
Qed.

Lemma strip_hex (t : str) : forallb is_lower_hex t = true -> strip t = t.
Proof.
  intros H. unfold strip, rstrip. rewrite (lstrip_hex t H).
  rewrite lstrip_hex; [apply rev_involutive|].
  rewrite forallb_forall in *. intros x Hx. apply H. now apply in_rev.
Qed.

Section CacheRoundTrip.

Context {P : Platform}.

(** X20. What one run mints, the next run finds.  On a file system where
    the token cache reads back what was written to it, the token resolved
    by a run with [--setup-moodle] is the token a later run without
    [--token] and without [--setup-moodle] resolves, and that later run
    only looks at the cache file: no polling, no docker. *)
Theorem minted_token_is_reused (a a' : args) (w w1 w2 : world) (t : str) :
  (forall f f' s,
      fs_write_text f TOKEN_CACHE_FILE s = Some f' ->
      fs_exists f' TOKEN_CACHE_FILE = true
      /\ fs_read_text f' TOKEN_CACHE_FILE = Some s) ->
  args_setup_moodle a = true ->
  main_token_resolution a w = (Ok t, w1) ->
  opt_truthy (args_token a') = false ->
  args_setup_moodle a' = false ->
  fs w2 = fs w1 ->
  let r := main_token_resolution a' w2 in
  fst r = Ok t
  /\ events_since w2 (snd r) = [EvStat TOKEN_CACHE_FILE; EvRead TOKEN_CACHE_FILE].
Proof.
  intros Hlaw Hs Hrun Ht' Hs' Hfs.
  destruct (token_resolution_cases a w) as (e1 & _ & C).
  rewrite Hrun in C. cbn [fst snd] in C.
  destruct C as [(_ & _ & Hno)
                | (t' & _ & _ & Hlen & Hhex & [[Hw Hok] | (_ & _ & Hbad)])].
  - rewrite (Hno t eq_refl) in Hs. discriminate.
  - injection Hok as <-.
    destruct (Hlaw _ _ _ Hw) as [Hex Hrd].
    cbv zeta. remember (main_token_resolution a' w2) as r eqn:Er.
    unfold main_token_resolution in Er. rewrite Ht' in Er. cbn [negb] in Er.
    unfold path_exists, read_text, bind, emit, ret in Er.
    cbn [fs remote clock next_session DEFAULT_USER DEFAULT_PASS trace] in Er.
    rewrite Hfs, Hex in Er.
    cbn [fs remote clock next_session DEFAULT_USER DEFAULT_PASS trace] in Er.
    rewrite Hrd, (strip_hex t Hhex) in Er.
    assert (Htr : opt_truthy (Some t) = true)
      by (destruct t; [discriminate | reflexivity]).
    rewrite Htr, Hs' in Er. cbn [negb orb] in Er.
    subst r. cbn [fst snd]. split; [reflexivity|].
    apply events_since_app. cbn [trace]. now rewrite <- app_assoc.
  - discriminate.
Qed.

End CacheRoundTrip.

Lemma minted_token_is_reused_witness :
  let first_run := Demo.cli None true in
  let next_run := Demo.cli None false in
  let w := Scripted.start []
             [Scripted.page 200 []]
             [Completed []; Completed (Demo.VALID_TOKEN ++ [LF])] in
  let w1 := snd (@main_token_resolution Scripted.platform first_run w) in
  fst (@main_token_resolution Scripted.platform next_run w1)
  = Ok Demo.VALID_TOKEN.
Proof.
  intros first_run next_run w w1.
  refine (proj1 (@minted_token_is_reused Scripted.platform first_run next_run
                   w w1 w1 Demo.VALID_TOKEN _ eq_refl _ eq_refl eq_refl eq_refl)).
  - intros f f' s H. injection H as <-. split; reflexivity.
  - vm_compute. reflexivity.
Defined.

(** ** A ledger that is not a list *)

Section LedgerShape.

Context {P : Platform}.

(** X21. Once the token is resolved and validated, a ledger file whose
    document is not a list (a mapping, a string, a number) is taken as an
    empty ledger: the run prints that there is nothing to upload and ends
    with exit code 0.  A ledger that is not valid YAML ends the run with
    the parser's exception; one that cannot be read, with [OSError]; one
    whose bytes are not valid text, with [UnicodeDecodeError].  In all these
    cases nothing follows the reading of the file. *)
Theorem ledger_not_a_list (a : args) (w w1 w2 : world) (token : str) :
  args_get_token a = false ->
  main_token_resolution a (patch_defaults a w) = (Ok token, w1) ->
  main_verify_token a token w1 = (Ok tt, w2) ->
  let manifest_path := Path_of (args_manifest a) in
  let out := fst (main a w) in
  let after := events_since w2 (snd (main a w)) in
  fs_exists (fs w2) manifest_path = true ->
  (forall t data,
      fs_read_text (fs w2) manifest_path = Some t ->
      yaml_safe_load t = Some data ->
      (forall l, data <> VList l) ->
      out = Exit 0
      /\ after = [ EvStat manifest_path; EvRead manifest_path;
                   EvPrint PManifestEmpty ])
  /\ (forall t,
         fs_read_text (fs w2) manifest_path = Some t ->
         yaml_safe_load t = None ->
         out = Raise YAMLError
         /\ after = [ EvStat manifest_path; EvRead manifest_path ])
  /\ (fs_read_text (fs w2) manifest_path = None ->
      out = Raise (match fs_read_error (fs w2) manifest_path with
                   | NotReadable => OSError
                   | NotText => UnicodeDecodeError
                   end)
      /\ after = [ EvStat manifest_path; EvRead manifest_path ]).
Proof.
  intros Hget Htok Hver mp out after Hex. subst out after.
  rewrite (main_from_ledger a w w1 w2 token Hget Htok Hver). fold mp.
  split; [|split].
  - intros t data Hread Hyaml Hdata.
    assert (Hload : load_manifest mp w2
              = (Ok [], mkWorld (fs w2) (remote w2) (clock w2) (next_session w2)
                          (DEFAULT_USER w2) (DEFAULT_PASS w2)
                          (trace w2 ++ [ EvStat mp; EvRead mp ]))).
    { unfold load_manifest, path_exists, read_text, yaml_load, bind, emit, ret.
      simpl. rewrite Hex. simpl. rewrite Hread, Hyaml.
      rewrite <- !app_assoc. simpl.
      destruct data; try reflexivity. now destruct (Hdata l). }
    rewrite (bind_ok _ _ _ _ _ Hload).
    unfold bind, print, emit, sys_exit. simpl fst. simpl snd.
    split; [reflexivity|].
    apply events_since_app. cbn [trace]. now rewrite <- app_assoc.
  - intros t Hread Hyaml.
    assert (Hload : load_manifest mp w2
              = (Raise YAMLError,
                 mkWorld (fs w2) (remote w2) (clock w2) (next_session w2)
                   (DEFAULT_USER w2) (DEFAULT_PASS w2)
                   (trace w2 ++ [ EvStat mp; EvRead mp ]))).
    { unfold load_manifest, path_exists, read_text, yaml_load, bind, emit, raise.
      simpl. rewrite Hex. simpl. rewrite Hread, Hyaml.
      now rewrite <- !app_assoc. }
    rewrite (bind_raise _ _ _ _ _ Hload). simpl fst. simpl snd.
    split; [reflexivity|]. apply events_since_app. reflexivity.
  - intros Hread.
    assert (Hload : load_manifest mp w2
              = (Raise (match fs_read_error (fs w2) mp with
                        | NotReadable => OSError
                        | NotText => UnicodeDecodeError
                        end),
                 mkWorld (fs w2) (remote w2) (clock w2) (next_session w2)
                   (DEFAULT_USER w2) (DEFAULT_PASS w2)
                   (trace w2 ++ [ EvStat mp; EvRead mp ]))).
    { unfold load_manifest, path_exists, read_text, yaml_load, bind, emit, raise.
      simpl. rewrite Hex. simpl. rewrite Hread.
      rewrite <- !app_assoc. now destruct (fs_read_error (fs w2) mp). }
    rewrite (bind_raise _ _ _ _ _ Hload). simpl fst. simpl snd.
    split; [reflexivity|]. apply events_since_app. reflexivity.
Qed.

End LedgerShape.

Lemma ledger_not_a_list_witness :
  let a := Demo.cli (Some Demo.VALID_TOKEN) false in
  let mapping_ledger :=
    [(Demo.path_of (lit "variants/manifest.yaml"), lit "title: Concepts")] in
  fst (@main Demo.platform a (Demo.world0 mapping_ledger)) = Exit 0.
Proof.
  intros a mapping_ledger.
  pose (w := Demo.world0 mapping_ledger).
  pose (w1 := snd (@main_token_resolution Demo.platform a (patch_defaults a w))).
  pose (w2 := snd (@main_verify_token Demo.platform a Demo.VALID_TOKEN w1)).
  apply (proj1 (@ledger_not_a_list Demo.platform a w w1 w2 Demo.VALID_TOKEN
                  eq_refl eq_refl eq_refl eq_refl)
           (lit "title: Concepts")
           (VDict [ (lit "title", VStr (lit "Concepts")) ])); try reflexivity.
  intros l. discriminate.
Defined.

(** ** From the generator to the published page *)

(** A fence cannot begin in the last two characters before a newline. *)
Lemma fence_open_before_newline (q rest post : str) :
  q ++ LF :: rest = fence_open ++ post -> exists q', q = fence_open ++ q'.
Proof.
  cbv [fence_open of_ascii LF]. simpl. intros H.
  destruct q as [|a [|b [|c q]]]; simpl in H; try discriminate H.
  injection H as -> -> -> _. now exists q.
Qed.

Lemma find_from_absent_inv (sub s : str) (i : Z) :
  (0 <= i)%Z -> find_from s sub i = (-1)%Z ->
  forall pre post, s <> pre ++ sub ++ post.
Proof.
  intros Hi H pre post Hs.
  pose proof (find_from_present sub s pre post i Hs). lia.
Qed.

Section GeneratedVariant.

Variable yaml_dump : value -> str.
Variable generated_at : str.

(** X22. What the generator writes, the uploader strips.  If the dumped
    metadata ends with a newline and none of its lines begins with the
    fence, then stripping the front matter of a generated variant gives the
    adapted content, left-trimmed, whatever that content is.  For metadata
    that is not a mapping (an empty [metadata.yaml] loads as [None]) the
    generator raises [AttributeError] and produces no text. *)
Theorem generated_variant_strips_to_content
    (metadata : value) (audience locale content : str) :
  (forall vm body,
      variant_meta generated_at metadata audience locale = Val vm ->
      yaml_dump (VDict vm) = body ++ [LF] ->
      startswith (yaml_dump (VDict vm)) fence_open = false ->
      find_from (yaml_dump (VDict vm)) fence_close 0 = (-1)%Z ->
      exists text,
        full_output yaml_dump generated_at metadata audience locale content
        = Val text
        /\ strip_front_matter text = lstrip content)
  /\ (is_dict metadata = false ->
      full_output yaml_dump generated_at metadata audience locale content
      = Err AttributeError).
Proof.
  split.
  - intros vm body Hvm Hbody Hstart Hfind.
    unfold full_output, build_output_front_matter. rewrite Hvm. cbn [res_bind].
    eexists. split; [reflexivity|].
    pose proof (find_from_absent_inv fence_close _ 0%Z ltac:(lia) Hfind) as Habs.
    assert (Hnostart : forall t, yaml_dump (VDict vm) <> fence_open ++ t)
      by (apply startswith_false_iff; exact Hstart).
    rewrite Hbody in *.
    change (((lit "---" ++ [LF] ++ (body ++ [LF]) ++ lit "---" ++ [LF; LF])
             ++ content))
      with (fence_open ++ (LF :: (body ++ [LF]) ++ lit "---" ++ [LF; LF]) ++ content).
    rewrite (strip_front_matter_closed _ (LF :: body) (LF :: LF :: content)).
    + reflexivity.
    + split.
      * cbv [fence_close fence_open of_ascii]. simpl.
        rewrite <- !app_assoc. reflexivity.
      * intros pre' post' H.
        destruct (Nat.le_gt_cases (length (LF :: body)) (length pre')) as [|Hlt];
          [assumption|exfalso].
        assert (H' : LF :: body ++ LF :: fence_open ++ LF :: LF :: content
                     = pre' ++ LF :: fence_open ++ post').
        { change (pre' ++ LF :: fence_open ++ post')
            with (pre' ++ fence_close ++ post').
          rewrite <- H. simpl. rewrite <- !app_assoc. reflexivity. }
        destruct pre' as [|c pre'].
        -- simpl in H'. injection H' as H'.
           destruct (fence_open_before_newline body _ _ H') as [q ->].
           apply (Hnostart (q ++ [LF])). now rewrite <- app_assoc.
        -- simpl in H', Hlt. injection H' as _ H'.
           apply app_eq_app in H' as [l [[Hb Hp] | [Hp Hb]]].
           ++ destruct l as [|d l].
              ** rewrite app_nil_r in Hb. subst body. lia.
              ** simpl in Hp. injection Hp as <- Hp. symmetry in Hp.
                 destruct (fence_open_before_newline l _ _ Hp) as [q ->].
                 apply (Habs pre' (q ++ [LF])). rewrite Hb.
                 cbv [fence_close fence_open of_ascii]. simpl.
                 rewrite <- !app_assoc. reflexivity.
           ++ subst pre'. rewrite length_app in Hlt. lia.
  - intros Hd. destruct metadata; try discriminate; reflexivity.
Qed.

End GeneratedVariant.

Lemma generated_variant_strips_to_content_witness :
  let dump := fun _ : value => join_lines ["id: m1"; "audience: developer"; EmptyString] in
  let metadata := VDict [ (lit "id", VStr (lit "m1")) ] in
  let content := [LF] ++ lit "# Concepts, for developers" in
  exists text,
    full_output dump (lit "2026-01-01T00:00:00Z") metadata
      (lit "developer") (lit "en-US") content = Val text
    /\ strip_front_matter text = lit "# Concepts, for developers".
Proof.
  intros dump metadata content.
  exact (proj1 (generated_variant_strips_to_content dump
                  (lit "2026-01-01T00:00:00Z") metadata (lit "developer")
                  (lit "en-US") content)
           _ (join_lines ["id: m1"; "audience: developer"])
           eq_refl eq_refl eq_refl eq_refl).
Defined.

(** ** From the generator's ledger to the uploader's *)

Section LedgerAppend.

Context {P : Platform}.
Variable yaml_dump : value -> str.

Lemma load_manifest_list (mp : Path) (w : world) (t : str) (l : list value) :
  fs_exists (fs w) mp = true ->
  fs_read_text (fs w) mp = Some t ->
  yaml_safe_load t = Some (VList l) ->
  fst (load_manifest mp w) = Ok l.
Proof.
  intros Hex Hread Hyaml.
  unfold load_manifest, path_exists, read_text, yaml_load, bind, emit, ret.
  cbn [fs]. rewrite Hex. cbn [negb fs]. now rewrite Hread, Hyaml.
Qed.

(** X23. What the generator appends, the uploader loads.  Where the
    ledger file reads back what was written to it and the loader makes of
    the dump the same data (the dumper may reorder the keys of a mapping,
    as [yaml.dump] does), after a successful [update_manifest]
    [load_manifest] returns as many entries as it returned before plus one:
    in order, the entries of before (none, when the file did not exist)
    and then the new entry, each with the same data. *)
Theorem appended_entry_is_loaded
    (mp : Path) (entry loaded : value) (l : list value) (w w1 w2 : world) :
  (forall f f' s,
      fs_write_text f mp s = Some f' ->
      fs_exists f' mp = true /\ fs_read_text f' mp = Some s) ->
  yaml_safe_load (yaml_dump (VList (l ++ [entry]))) = Some loaded ->
  same_data (VList (l ++ [entry])) loaded ->
  (if fs_exists (fs w) mp then fst (load_manifest mp w) = Ok l else l = []) ->
  update_manifest yaml_dump mp entry w = (Ok tt, w1) ->
  fs w2 = fs w1 ->
  exists l',
    fst (load_manifest mp w2) = Ok l'
    /\ Forall2 same_data (l ++ [entry]) l'.
Proof.
  intros Hlaw Hyaml Hsame Hbefore Hupd Hfs.
  assert (Hw : exists f',
             fs_write_text (fs w) mp (yaml_dump (VList (l ++ [entry]))) = Some f'
             /\ fs w1 = f').
  { unfold update_manifest, path_exists, read_text, yaml_load in Hupd.
    unfold write_text, bind, emit, ret in Hupd. cbn [fs] in Hupd.
    destruct (fs_exists (fs w) mp) eqn:Hex.
    - unfold load_manifest, path_exists, read_text, yaml_load, bind, emit, ret
        in Hbefore.
      cbn [fs] in Hbefore. rewrite Hex in Hbefore. cbn [negb fs] in Hbefore.
      cbn [fs remote clock next_session DEFAULT_USER DEFAULT_PASS trace] in Hupd.
      destruct (fs_read_text (fs w) mp) as [t|];
        [|destruct (fs_read_error (fs w) mp); discriminate Hbefore].
      destruct (yaml_safe_load t) as [data|]; [|discriminate Hbefore].
      cbn [fst] in Hbefore. injection Hbefore as Hl.
      unfold ret in Hupd.
      assert (Hex' : (if truthy data then data else VList []) = VList l
                     \/ forall x, (if truthy data then data else VList [])
                                  <> VList x).
      { destruct data as [|b|z|s|l0|d]; cbn [truthy].
        - left. now subst l.
        - destruct b; [right; discriminate | left; now subst l].
        - destruct (negb (z =? 0)%Z); [right; discriminate | left; now subst l].
        - destruct s; [left; now subst l | right; discriminate].
        - left. subst l. now destruct l0.
        - destruct d; [left; now subst l | right; discriminate]. }
      destruct Hex' as [Hv | Hv].
      + rewrite Hv in Hupd. cbn [lift list_append] in Hupd.
        unfold ret in Hupd.
        cbn [fs remote clock next_session DEFAULT_USER DEFAULT_PASS trace]
          in Hupd.
        destruct (fs_write_text (fs w) mp _) as [f'|]; [|discriminate Hupd].
        injection Hupd as <-. now exists f'.
      + destruct (if truthy data then data else VList []) eqn:E;
          try discriminate Hupd.
        now destruct (Hv l0).
    - subst l. cbn [lift list_append app] in Hupd. unfold ret in Hupd.
      cbn [fs remote clock next_session DEFAULT_USER DEFAULT_PASS trace] in Hupd.
      destruct (fs_write_text (fs w) mp _) as [f'|]; [|discriminate Hupd].
      injection Hupd as <-. now exists f'. }
  destruct Hw as (f' & Hwrite & Hf').
  destruct (Hlaw _ _ _ Hwrite) as [Hex Hread].
  inversion Hsame as [| | | | x l' Hall Hx Hl' |]. subst loaded.
  exists l'. split; [|exact Hall].
  apply (load_manifest_list mp w2 (yaml_dump (VList (l ++ [entry])))).
  - now rewrite Hfs, Hf'.
  - now rewrite Hfs, Hf'.
  - exact Hyaml.
Qed.

End LedgerAppend.

(** Looking a key up in two concrete mappings that hold the same pairs. *)
Ltac same_pairs :=
  let k := fresh "k" in
  intros k; cbv -[str_eqb];
  repeat match goal with
         | |- context [str_eqb ?c k] =>
             let E := fresh "E" in destruct (str_eqb c k) eqn:E
         end;
  first [ solve [repeat constructor]
        | exfalso;
          repeat match goal with
                 | H : str_eqb _ k = true |- _ => apply str_eqb_eq in H
                 end;
          congruence ].

Lemma appended_entry_is_loaded_witness :
  let mp := Demo.path_of (lit "variants/manifest.yaml") in
  let before := [Appended.sorted Appended.developer] in
  let w := Appended.start
             [(mp, Appended.dump (VList [Appended.developer]))] in
  let w1 := snd (@update_manifest Appended.platform Appended.dump mp
                   Appended.executive w) in
  fst (@load_manifest Appended.platform mp w) = Ok before
  /\ exists l',
       fst (@load_manifest Appended.platform mp w1) = Ok l'
       /\ Forall2 same_data (before ++ [Appended.executive]) l'.
Proof.
  intros mp before w w1. split; [vm_compute; reflexivity|].
  refine (@appended_entry_is_loaded Appended.platform Appended.dump mp
            Appended.executive
            (VList [Appended.sorted Appended.developer;
                    Appended.sorted Appended.executive])
            before w w1 w1 _ _ _ _ _ eq_refl).
  - intros f f' s H. injection H as <-. split; reflexivity.
  - vm_compute. reflexivity.
  - constructor. repeat constructor; same_pairs.
  - vm_compute. reflexivity.
  - vm_compute. reflexivity.
Defined.
